(** * Soil data collection sketch (coleta_dados_solo.ino): model and properties

    The sketch samples three simulated sensors, keeps the samples in a singly
    linked list of heap nodes and, every 16 samples, averages them without the
    node of lowest and the node of highest temperature, decides on irrigation
    and prints a report.

    The model keeps the source's shape: [float] is IEEE binary32 (the
    executable specification of the standard library, instantiated at
    precision 24), the list lives in an explicit heap of nodes addressed by
    locations, the globals form a record that every function threads, the two
    [while] loops over the list are fuelled recursions that can fault on a
    dangling pointer, and [Serial] is a log of print events. *)

From Stdlib Require Import ZArith Floats.SpecFloat.
From stdpp Require Import gmap strings list fin_maps.

Open Scope Z_scope.

(** ** Floating point *)

Module F32.

Definition prec : Z := 24.
Definition emax : Z := 128.

Definition add := SFadd prec emax.
Definition div := SFdiv prec emax.
Definition ltb := SFltb.
Definition leb := SFleb.
Definition eqb := SFeqb.

(** The value [m * 2^e], rounded to nearest-even: every decimal literal of
    the sketch is such a value exactly. *)
Definition lit (m e : Z) : spec_float := binary_normalize prec emax m e false.

(** Conversion of an [int] to [float]. *)
Definition of_int (z : Z) : spec_float := binary_normalize prec emax z 0 false.

Definition is_nan (x : spec_float) : bool :=
  match x with S754_nan => true | _ => false end.

End F32.

Abbreviation float := spec_float.

(** The type [double] of the literals [15.0], [10.0], ...: binary32 with
    avr-gcc (the classic boards), binary64 on the 32-bit boards. The
    arithmetic of the simulated sensors is done in it and converted to
    [float] on return. *)
Record float_format := { fprec : Z; femax : Z }.

Definition binary32 : float_format := {| fprec := 24; femax := 128 |}.
Definition binary64 : float_format := {| fprec := 53; femax := 1024 |}.

Module Dbl.
Section Ops.
Variable d : float_format.

Definition add := SFadd (fprec d) (femax d).
Definition div := SFdiv (fprec d) (femax d).
Definition lit (m e : Z) : spec_float :=
  binary_normalize (fprec d) (femax d) m e false.
Definition of_int (z : Z) : spec_float :=
  binary_normalize (fprec d) (femax d) z 0 false.

(** Conversion [double -> float] of a returned value. *)
Definition to_float (x : spec_float) : float :=
  match x with
  | S754_finite s m e => binary_round F32.prec F32.emax s m e
  | _ => x
  end.
End Ops.
End Dbl.

(** ** Machine integers *)

(** [int] of the AVR boards, for which the sketch is written: 16 bits, two's
    complement. An [int] of 32 bits differs beyond 32767 only, and the
    counters of the sketch stay at 16 or below. *)
Definition INT_BITS : Z := 16.
Definition INT_MAX : Z := 2 ^ (INT_BITS - 1) - 1.

Definition wrap_int (z : Z) : Z :=
  (z + 2 ^ (INT_BITS - 1)) mod 2 ^ INT_BITS - 2 ^ (INT_BITS - 1).

(** [unsigned long]: 32 bits. *)
Definition wrap_ulong (z : Z) : Z := z mod 2 ^ 32.

(** ** Data structures *)

Record SampleData := mkSample {
  temperature : float;
  humidity : float;
  salinity : float
}.

#[global] Instance float_eq_dec : EqDecision float.
Proof. solve_decision. Defined.

#[global] Instance SampleData_eq_dec : EqDecision SampleData.
Proof. solve_decision. Defined.

Abbreviation loc := positive.

(** A pointer to a node; [None] is [nullptr]. *)
Abbreviation ptr := (option loc).

Record Node := mkNode {
  data : SampleData;
  next : ptr
}.

(** ** Serial port *)

Inductive SerialOut :=
| PrintStr (s : string)
| PrintInt (n : Z)
| PrintFloat (x : float) (digits : Z)
| NewLine.

#[global] Instance SerialOut_eq_dec : EqDecision SerialOut.
Proof. solve_decision. Defined.

(** ** Global variables *)

Record State := mkState {
  heap : gmap loc Node;
  dataListHead : ptr;
  sampleCount : Z;
  lastSampleTime : Z;
  serial : list SerialOut
}.

Definition SAMPLE_INTERVAL : Z := 10000.
Definition SAMPLES_PER_CYCLE : Z := 16.

Definition initial_state : State :=
  {| heap := ∅; dataListHead := None; sampleCount := 0;
     lastSampleTime := 0; serial := [] |}.

(** ** Outcome of a run *)

(** A loop over the list may not end within the fuel it is given, and a
    dereference of [nullptr] or of a freed node has no defined behaviour. *)
Inductive result (A : Type) :=
| Ok (a : A)
| Fault
| OutOfFuel.
Arguments Ok {A} a.
Arguments Fault {A}.
Arguments OutOfFuel {A}.

#[global] Instance result_ret : MRet result := @Ok.
#[global] Instance result_bind : MBind result := λ A B f m,
  match m with
  | Ok a => f a
  | Fault => Fault
  | OutOfFuel => OutOfFuel
  end.

(** [p->...]: the node a pointer refers to. *)
Definition deref (h : gmap loc Node) (p : ptr) : result Node :=
  match p with
  | None => Fault
  | Some a => match h !! a with Some n => Ok n | None => Fault end
  end.

Definition print (o : SerialOut) (s : State) : State :=
  {| heap := heap s; dataListHead := dataListHead s;
     sampleCount := sampleCount s; lastSampleTime := lastSampleTime s;
     serial := serial s ++ [o] |}.

Definition println (o : SerialOut) (s : State) : State :=
  print NewLine (print o s).

(** [Serial.print] of a [float] prints two decimals unless told otherwise. *)
Definition print_float (x : float) : State -> State := print (PrintFloat x 2).

Definition set_lastSampleTime (t : Z) (s : State) : State :=
  {| heap := heap s; dataListHead := dataListHead s;
     sampleCount := sampleCount s; lastSampleTime := t;
     serial := serial s |}.

(** The character ['\n'] of the string literals. *)
Definition nl : string := String (Ascii.ascii_of_nat 10) EmptyString.

(** ** [setup] *)

Definition setup (s : State) : State :=
  let s := println (PrintStr "--- Sistema de Monitoramento de Solo Iniciado ---") s in
  let s := print (PrintStr "Coletando 1 amostra a cada ") s in
  let s := print (PrintInt (SAMPLE_INTERVAL ÷ 1000)) s in
  println (PrintStr " segundos (simulação).") s.

(** ** Simulated sensors *)

(** Each function takes the value [r] that its call of [rand()] returns. *)
Section Sensors.
Variable d : float_format.

Definition readSimulatedTemperature (r : Z) : float :=
  Dbl.to_float
    (Dbl.add d (Dbl.lit d 15 0)
       (Dbl.div d (Dbl.of_int d (Z.rem r 200)) (Dbl.lit d 10 0))).

Definition readSimulatedHumidity (r : Z) : float :=
  Dbl.to_float
    (Dbl.add d (Dbl.lit d 30 0)
       (Dbl.div d (Dbl.of_int d (Z.rem r 600)) (Dbl.lit d 10 0))).

Definition readSimulatedSalinity (r : Z) : float :=
  Dbl.to_float
    (Dbl.add d (Dbl.lit d 1 (-1))
       (Dbl.div d (Dbl.of_int d (Z.rem r 35)) (Dbl.lit d 10 0))).

(** ** [collectSample] *)

(** [new Node]: an address that is not in use; the allocation is taken to
    succeed, as the sketch takes it. *)
Definition new_node (h : gmap loc Node) : loc := fresh (dom h).

Definition collectSample (r1 r2 r3 : Z) (s : State) : State :=
  let newSample :=
    {| temperature := readSimulatedTemperature r1;
       humidity := readSimulatedHumidity r2;
       salinity := readSimulatedSalinity r3 |} in
  let newNode := new_node (heap s) in
  {| heap := <[newNode := {| data := newSample; next := dataListHead s |}]> (heap s);
     dataListHead := Some newNode;
     sampleCount := wrap_int (sampleCount s + 1);
     lastSampleTime := lastSampleTime s;
     serial := serial s |}.
End Sensors.

(** ** [decideIrrigation] *)

Definition HIGH_SALINITY : string := "NAO IRRIGAR (Risco de Salinidade Alta)".
Definition LOW_HUMIDITY : string := "IRRIGAR (Umidade Baixa)".
Definition HIGH_HUMIDITY : string := "NAO IRRIGAR (Umidade Alta)".
Definition IDEAL_LEVEL : string := "NAO IRRIGAR (Nivel Ideal)".

(** The thresholds are [double] literals that binary32 holds exactly, and a
    [float] converts to [double] without rounding: the comparisons are those
    of binary32 whatever the width of [double]. *)
Definition decideIrrigation (temp hum sal : float) : string :=
  if F32.ltb hum (F32.lit 45 0) then
    if F32.ltb (F32.lit 3 0) sal then HIGH_SALINITY
    else LOW_HUMIDITY
  else if F32.ltb (F32.lit 80 0) hum then HIGH_HUMIDITY
  else IDEAL_LEVEL.

(** ** [printReport] *)

Definition printReport (temp hum sal : float) (decision : string) (count : Z)
    (s : State) : State :=
  let s := println (PrintStr "-------------------------------------------------") s in
  let s := println (PrintStr "RELATORIO DE PROCESSAMENTO (Ciclo de 4 Horas)") s in
  let s := println (PrintStr "-------------------------------------------------") s in
  let s := print (PrintStr "Amostras processadas (apos remocao min/max): ") s in
  let s := println (PrintInt count) s in
  let s := println (PrintStr (nl +:+ "Valores Medios:")) s in
  let s := print (PrintStr "  Temperatura Media: ") s in
  let s := print (PrintFloat temp 2) s in
  let s := println (PrintStr " C") s in
  let s := print (PrintStr "  Umidade Media:     ") s in
  let s := print (PrintFloat hum 2) s in
  let s := println (PrintStr " %") s in
  let s := print (PrintStr "  Salinidade Media:  ") s in
  let s := print (PrintFloat sal 2) s in
  let s := println (PrintStr " dS/m (simulado)") s in
  let s := println (PrintStr (nl +:+ "Decisao de Irrigacao:")) s in
  let s := print (PrintStr "  ") s in
  let s := println (PrintStr decision) s in
  println (PrintStr "-------------------------------------------------") s.

(** ** [processAndReportData] *)

(** What the first loop leaves in its four node pointers. *)
Record Extremes := mkExtremes {
  minNode : ptr;
  minNodePrev : ptr;
  maxNode : ptr;
  maxNodePrev : ptr
}.

(** The first [while]: one iteration per unit of fuel. *)
Fixpoint find_extremes (fuel : nat) (h : gmap loc Node)
    (current prev : ptr) (x : Extremes) : result Extremes :=
  match current with
  | None => Ok x
  | Some _ =>
    match fuel with
    | O => OutOfFuel
    | S fuel' =>
      cur ← deref h current;
      mn ← deref h (minNode x);
      let x :=
        if F32.ltb (temperature (data cur)) (temperature (data mn))
        then {| minNode := current; minNodePrev := prev;
                maxNode := maxNode x; maxNodePrev := maxNodePrev x |}
        else x in
      mx ← deref h (maxNode x);
      let x :=
        if F32.ltb (temperature (data mx)) (temperature (data cur))
        then {| minNode := minNode x; minNodePrev := minNodePrev x;
                maxNode := current; maxNodePrev := prev |}
        else x in
      find_extremes fuel' h (next cur) current x
    end
  end.

(** The four pointers before the first loop: both nodes are the head. *)
Definition from_head (s : State) : Extremes :=
  {| minNode := dataListHead s; minNodePrev := None;
     maxNode := dataListHead s; maxNodePrev := None |}.

(** What the second loop accumulates. *)
Record Sums := mkSums {
  sumTemp : float;
  sumHum : float;
  sumSal : float;
  remainingCount : Z
}.

Definition zero_sums : Sums :=
  {| sumTemp := F32.of_int 0; sumHum := F32.of_int 0; sumSal := F32.of_int 0;
     remainingCount := 0 |}.

Definition add_sample (a : Sums) (x : SampleData) : Sums :=
  {| sumTemp := F32.add (sumTemp a) (temperature x);
     sumHum := F32.add (sumHum a) (humidity x);
     sumSal := F32.add (sumSal a) (salinity x);
     remainingCount := wrap_int (remainingCount a + 1) |}.

(** The second [while]. *)
Fixpoint sum_remaining (fuel : nat) (h : gmap loc Node)
    (current mn mx : ptr) (a : Sums) : result Sums :=
  match current with
  | None => Ok a
  | Some _ =>
    match fuel with
    | O => OutOfFuel
    | S fuel' =>
      cur ← deref h current;
      let a :=
        if bool_decide (current ≠ mn) && bool_decide (current ≠ mx)
        then add_sample a (data cur)
        else a in
      sum_remaining fuel' h (next cur) mn mx a
    end
  end.

Definition processAndReportData (fuel : nat) (s : State) : result State :=
  if bool_decide (sampleCount s ≠ SAMPLES_PER_CYCLE) then Ok s
  else
    x ← find_extremes fuel (heap s) (dataListHead s) None (from_head s);
    let s := print (PrintStr "Removendo valor MÍNIMO (Temp: ") s in
    mn ← deref (heap s) (minNode x);
    let s := print_float (temperature (data mn)) s in
    let s := println (PrintStr ")") s in
    let s := print (PrintStr "Removendo valor MÁXIMO (Temp: ") s in
    mx ← deref (heap s) (maxNode x);
    let s := print_float (temperature (data mx)) s in
    let s := println (PrintStr ")") s in
    a ← sum_remaining fuel (heap s) (dataListHead s) (minNode x) (maxNode x) zero_sums;
    let avgTemp := F32.div (sumTemp a) (F32.of_int (remainingCount a)) in
    let avgHum := F32.div (sumHum a) (F32.of_int (remainingCount a)) in
    let avgSal := F32.div (sumSal a) (F32.of_int (remainingCount a)) in
    let irrigationDecision := decideIrrigation avgTemp avgHum avgSal in
    Ok (printReport avgTemp avgHum avgSal irrigationDecision (remainingCount a) s).

(** ** [clearList] *)

Fixpoint delete_nodes (fuel : nat) (h : gmap loc Node) (current : ptr)
    : result (gmap loc Node) :=
  match current with
  | None => Ok h
  | Some c =>
    match fuel with
    | O => OutOfFuel
    | S fuel' =>
      cur ← deref h current;
      delete_nodes fuel' (delete c h) (next cur)
    end
  end.

Definition clearList (fuel : nat) (s : State) : result State :=
  h ← delete_nodes fuel (heap s) (dataListHead s);
  Ok {| heap := h; dataListHead := None; sampleCount := 0;
        lastSampleTime := lastSampleTime s; serial := serial s |}.

(** ** [loop] *)

(** One call of [loop]: [now1] and [now2] are what its two calls of
    [millis()] return, [r1], [r2], [r3] what the three calls of [rand()]
    return. *)
Section Loop.
Variable d : float_format.

(** The test on the timer. *)
Definition sample_due (now1 : Z) (s : State) : bool :=
  bool_decide (SAMPLE_INTERVAL ≤ wrap_ulong (now1 - lastSampleTime s)).

(** From the reset of the timer to the end of [collectSample]. *)
Definition loop_collect (now2 r1 r2 r3 : Z) (s : State) : State :=
  collectSample d r1 r2 r3 (set_lastSampleTime now2 s).

(** The status line of the new sample. *)
Definition loop_announce (s : State) : result State :=
  let s := print (PrintStr "Amostra ") s in
  let s := print (PrintInt (sampleCount s)) s in
  let s := print (PrintStr " coletada. (Temp: ") s in
  hd ← deref (heap s) (dataListHead s);
  let s := print_float (temperature (data hd)) s in
  Ok (println (PrintStr " C)") s).

Definition cycle_banner : SerialOut :=
  PrintStr (nl +:+ "--- Ciclo de 4 horas concluído. Processando dados... ---").

Definition cleared_banner : SerialOut :=
  PrintStr ("--- Lista de dados limpa. Iniciando novo ciclo. ---" +:+ nl).

Definition loop (fuel : nat) (now1 now2 r1 r2 r3 : Z) (s : State) : result State :=
  if sample_due now1 s then
    s ← loop_announce (loop_collect now2 r1 r2 r3 s);
    if bool_decide (sampleCount s = SAMPLES_PER_CYCLE) then
      let s := println cycle_banner s in
      s ← processAndReportData fuel s;
      s ← clearList fuel s;
      Ok (println cleared_banner s)
    else Ok s
  else Ok s.

(** The states between two calls of [loop]. [rand()] returns a value
    between 0 and [RAND_MAX]. *)
Inductive at_loop : State -> Prop :=
| at_loop_setup : at_loop (setup initial_state)
| at_loop_next fuel now1 now2 r1 r2 r3 s s' :
    at_loop s -> 0 ≤ r1 -> 0 ≤ r2 -> 0 ≤ r3 ->
    loop fuel now1 now2 r1 r2 r3 s = Ok s' ->
    at_loop s'.

(** The states of the globals at the points of the program where they can
    be observed: at power-up, between two calls of [loop], and inside
    [loop] after each of the calls that touch them. *)
Inductive reachable : State -> Prop :=
| reach_init : reachable initial_state
| reach_at_loop s : at_loop s -> reachable s
| reach_collected now1 now2 r1 r2 r3 s :
    at_loop s -> 0 ≤ r1 -> 0 ≤ r2 -> 0 ≤ r3 ->
    sample_due now1 s = true ->
    reachable (loop_collect now2 r1 r2 r3 s)
| reach_processed fuel now1 now2 r1 r2 r3 s s1 s2 :
    at_loop s -> 0 ≤ r1 -> 0 ≤ r2 -> 0 ≤ r3 ->
    sample_due now1 s = true ->
    loop_announce (loop_collect now2 r1 r2 r3 s) = Ok s1 ->
    sampleCount s1 = SAMPLES_PER_CYCLE ->
    processAndReportData fuel (println cycle_banner s1) = Ok s2 ->
    reachable s2
| reach_cleared fuel fuel' now1 now2 r1 r2 r3 s s1 s2 s3 :
    at_loop s -> 0 ≤ r1 -> 0 ≤ r2 -> 0 ≤ r3 ->
    sample_due now1 s = true ->
    loop_announce (loop_collect now2 r1 r2 r3 s) = Ok s1 ->
    sampleCount s1 = SAMPLES_PER_CYCLE ->
    processAndReportData fuel (println cycle_banner s1) = Ok s2 ->
    clearList fuel' s2 = Ok s3 ->
    reachable s3.
End Loop.

(** ** The list that the heap holds *)

(** [is_list h p l]: from [p], the [next] links of [h] run through the nodes
    of [l], given with their addresses, and end in [nullptr]. *)
Fixpoint is_list (h : gmap loc Node) (p : ptr) (l : list (loc * SampleData)) : Prop :=
  match l with
  | [] => p = None
  | (a, x) :: l' =>
    p = Some a ∧ ∃ nx, h !! a = Some {| data := x; next := nx |} ∧ is_list h nx l'
  end.

Definition samples (l : list (loc * SampleData)) : list SampleData := l.*2.
Definition addresses (l : list (loc * SampleData)) : list loc := l.*1.

(** The node [n] is in the heap, with its data. *)
Definition node_at (h : gmap loc Node) (n : loc * SampleData) : Prop :=
  ∃ nx, h !! n.1 = Some {| data := n.2; next := nx |}.

(** The sample that [collectSample] builds. *)
Definition new_sample d (r1 r2 r3 : Z) : SampleData :=
  {| temperature := readSimulatedTemperature d r1;
     humidity := readSimulatedHumidity d r2;
     salinity := readSimulatedSalinity d r3 |}.

(** ** The order of the floats *)

(** The place of a number in the order of the floats: its class, then its
    exponent, then its mantissa, the last two negated below zero. A NaN has
    no place. *)
Definition fkey (x : float) : option (Z * Z * Z) :=
  match x with
  | S754_nan => None
  | S754_infinity s => Some (if s then -2 else 2, 0, 0)
  | S754_zero _ => Some (0, 0, 0)
  | S754_finite s m e =>
    Some (if s then (-1, - e, Z.neg m) else (1, e, Z.pos m))
  end.

Definition key_compare (k1 k2 : Z * Z * Z) : comparison :=
  let '(a1, b1, c1) := k1 in
  let '(a2, b2, c2) := k2 in
  match a1 ?= a2 with
  | Eq => match b1 ?= b2 with Eq => c1 ?= c2 | c => c end
  | c => c
  end.

Definition key_lt (k1 k2 : Z * Z * Z) : Prop :=
  k1.1.1 < k2.1.1 ∨
  (k1.1.1 = k2.1.1 ∧ (k1.1.2 < k2.1.2 ∨ (k1.1.2 = k2.1.2 ∧ k1.2 < k2.2))).

Definition key_le (k1 k2 : Z * Z * Z) : Prop :=
  key_lt k1 k2 ∨ (k1.1.1 = k2.1.1 ∧ k1.1.2 = k2.1.2 ∧ k1.2 = k2.2).

(** A number that is not below zero: a zero, a positive number or plus
    infinity. *)
Definition nonneg (x : float) : bool :=
  match x with
  | S754_zero _ => true
  | S754_infinity s | S754_finite s _ _ => negb s
  | S754_nan => false
  end.

(** A zero, of either sign. *)
Definition is_zero (x : float) : bool :=
  match x with S754_zero _ => true | _ => false end.

(** ** The decision table *)

(** The four rows of the table of outcomes, in their order of priority, with
    the comparisons of the floats. *)
Inductive decision_table (hum sal : float) : string -> Prop :=
| row_high_salinity :
    F32.ltb hum (F32.lit 45 0) = true -> F32.ltb (F32.lit 3 0) sal = true ->
    decision_table hum sal HIGH_SALINITY
| row_low_humidity :
    F32.ltb hum (F32.lit 45 0) = true -> F32.leb sal (F32.lit 3 0) = true ->
    decision_table hum sal LOW_HUMIDITY
| row_high_humidity :
    F32.ltb (F32.lit 80 0) hum = true ->
    decision_table hum sal HIGH_HUMIDITY
| row_ideal :
    F32.leb (F32.lit 45 0) hum = true -> F32.leb hum (F32.lit 80 0) = true ->
    decision_table hum sal IDEAL_LEVEL.

Definition labels : list string :=
  [HIGH_SALINITY; LOW_HUMIDITY; HIGH_HUMIDITY; IDEAL_LEVEL].

(** ** Ranges of the readings *)

Definition in_range (lo hi x : float) : bool := F32.leb lo x && F32.leb x hi.

(** Temperature in [15.0, 35.0], humidity in [30.0, 90.0], salinity in
    [0.5, 4.0]. *)
Definition sample_in_range (x : SampleData) : bool :=
  in_range (F32.lit 15 0) (F32.lit 35 0) (temperature x)
  && in_range (F32.lit 30 0) (F32.lit 90 0) (humidity x)
  && in_range (F32.lit 1 (-1)) (F32.lit 4 0) (salinity x).

(** Every node of the heap holds readings within the ranges. *)
Definition heap_in_range (s : State) : Prop :=
  ∀ a n, heap s !! a = Some n → sample_in_range (data n) = true.

(** ** The two loops, read on the list of nodes *)

(** One step of the scan for an extreme: the node [c] takes the place of the
    node [m] kept so far when its temperature comes strictly before. *)
Definition pick (before : float -> float -> bool) (m c : loc * SampleData)
    : loc * SampleData :=
  if before (temperature c.2) (temperature m.2) then c else m.

Definition below (t1 t2 : float) : bool := F32.ltb t1 t2.
Definition above (t1 t2 : float) : bool := F32.ltb t2 t1.

(** The nodes that the scan started at the head [hd] ends on. *)
Definition scan_min (hd : loc * SampleData) (l : list (loc * SampleData)) :=
  foldl (pick below) hd l.
Definition scan_max (hd : loc * SampleData) (l : list (loc * SampleData)) :=
  foldl (pick above) hd l.

(** The nodes that the second loop adds up: all but the two at [mn], [mx]. *)
Definition kept (mn mx : ptr) (l : list (loc * SampleData)) : list (loc * SampleData) :=
  filter (λ n, Some n.1 ≠ mn ∧ Some n.1 ≠ mx) l.

(** The list without the node at the address [a]. *)
Definition without (a : loc) (l : list (loc * SampleData)) : list (loc * SampleData) :=
  filter (λ k, k.1 ≠ a) l.

(** ** Arithmetic mean *)

(** Sum from 0.0 in the order of the list, divided by the count. *)
Definition fsum (xs : list float) : float := foldl F32.add (F32.of_int 0) xs.

Definition mean (xs : list float) : float :=
  F32.div (fsum xs) (F32.of_int (Z.of_nat (length xs))).

(** ** The output of the processing step *)

(** The two lines that announce the extremes. *)
Definition removal_lines (tmin tmax : float) (s : State) : State :=
  let s := print (PrintStr "Removendo valor MÍNIMO (Temp: ") s in
  let s := print_float tmin s in
  let s := println (PrintStr ")") s in
  let s := print (PrintStr "Removendo valor MÁXIMO (Temp: ") s in
  let s := print_float tmax s in
  println (PrintStr ")") s.

(** The report on the samples [rem], after the two lines on the extremes. *)
Definition cycle_report (tmin tmax : float) (rem : list SampleData) (s : State)
    : State :=
  let avgTemp := mean (temperature <$> rem) in
  let avgHum := mean (humidity <$> rem) in
  let avgSal := mean (salinity <$> rem) in
  printReport avgTemp avgHum avgSal (decideIrrigation avgTemp avgHum avgSal)
    (Z.of_nat (length rem)) (removal_lines tmin tmax s).

(** ** Extreme temperatures of a list of samples *)

(** The sample [x] has the temperature [v]. *)
Definition attains (v : float) (x : SampleData) : Prop :=
  F32.eqb (temperature x) v = true.

#[global] Instance attains_dec v x : Decision (attains v x).
Proof. unfold attains. apply _. Defined.

(** [v] is the lowest (highest) temperature of the list: no sample is below
    (above) it and some sample has it. *)
Definition min_temperature (v : float) (xs : list SampleData) : Prop :=
  (∀ x, x ∈ xs → F32.leb v (temperature x) = true) ∧ ∃ x, x ∈ xs ∧ attains v x.

Definition max_temperature (v : float) (xs : list SampleData) : Prop :=
  (∀ x, x ∈ xs → F32.leb (temperature x) v = true) ∧ ∃ x, x ∈ xs ∧ attains v x.

(** [c] is the first entry of [l] that satisfies [P]. *)
Definition first_with {A : Type} (P : A → Prop) (l : list A) (c : A) : Prop :=
  ∃ l1 l2, l = l1 ++ c :: l2 ∧ P c ∧ ∀ n, n ∈ l1 → ¬ P n.

(** Exactly one sample of the list has the temperature [v]. *)
Definition attained_once (v : float) (xs : list SampleData) : Prop :=
  length (filter (attains v) xs) = 1%nat.

(** The samples that have neither the temperature [vmin] nor [vmax]. *)
Definition strictly_between (vmin vmax : float) (xs : list SampleData)
    : list SampleData :=
  filter (λ x, ¬ attains vmin x ∧ ¬ attains vmax x) xs.

(** ** Cycle counter and list *)

(** The cycle counter is the length of the list that the heap holds from
    [dataListHead]. *)
Definition counter_matches (s : State) : Prop :=
  ∃ l, is_list (heap s) (dataListHead s) l ∧ sampleCount s = Z.of_nat (length l).

(** Calls of [collectSample] in a row, one per triple of values of [rand()]. *)
Definition collect_all (d : float_format) (rs : list (Z * Z * Z)) (s : State) : State :=
  foldl (λ s r, collectSample d r.1.1 r.1.2 r.2 s) s rs.

(** What the processing step leaves alone. *)
Definition same_globals (s s' : State) : Prop :=
  heap s' = heap s ∧ dataListHead s' = dataListHead s
  ∧ sampleCount s' = sampleCount s ∧ lastSampleTime s' = lastSampleTime s.

(** Between two calls of [loop] the cycle is not complete. *)
Definition cycle_open (s : State) : Prop :=
  counter_matches s ∧ 0 ≤ sampleCount s < SAMPLES_PER_CYCLE.

(** ** Concrete cycles *)

(** Values of [rand()] for sixteen samples: one at 25.0 degrees, thirteen at
    20.0 and, last collected, two at 15.0 with humidities 89.9 and 30.0. *)
Definition tie_draws : list (Z * Z * Z) :=
  [(100, 300, 10)] ++ replicate 13 (50, 300, 10) ++ [(0, 599, 10); (0, 0, 10)].

(** The same draws with the last two exchanged. *)
Definition tie_draws_swapped : list (Z * Z * Z) :=
  [(100, 300, 10)] ++ replicate 13 (50, 300, 10) ++ [(0, 0, 10); (0, 599, 10)].

(** Values of [rand()] for sixteen samples of distinct temperatures, from
    15.0 degrees for the first to 34.9 for the last, the humidities of the
    fourteen in between adding up to 14 times 45.0. *)
Definition mean45_draws : list (Z * Z * Z) :=
  [(0, 300, 10); (10, 28, 10); (20, 46, 10); (30, 43, 10); (40, 184, 10);
   (50, 86, 10); (60, 157, 10); (70, 128, 10); (80, 108, 10); (90, 18, 10);
   (100, 297, 10); (110, 81, 10); (120, 220, 10); (130, 201, 10);
   (140, 503, 10); (199, 300, 10)].

(** Values of [rand()] for sixteen equal samples. *)
Definition flat_draws : list (Z * Z * Z) := replicate 16 (50, 300, 10).

(** A cycle of sixteen samples, from the initial state. *)
Definition cycle_of (rs : list (Z * Z * Z)) : State :=
  collect_all binary32 rs initial_state.

(** The samples of a cycle, in the order of the list: last collected
    first. *)
Definition samples_of (rs : list (Z * Z * Z)) : list SampleData :=
  reverse ((λ r, new_sample binary32 r.1.1 r.1.2 r.2) <$> rs).

(** The draws of a cycle without the first and the last. *)
Definition middle (rs : list (Z * Z * Z)) : list (Z * Z * Z) := take 14 (drop 1 rs).

(** ** Vocabulary of the further properties *)

(** The status line that [loop] prints after a sample of temperature [t]. *)
Definition status_line (t : float) (s : State) : State :=
  let s := print (PrintStr "Amostra ") s in
  let s := print (PrintInt (sampleCount s)) s in
  let s := print (PrintStr " coletada. (Temp: ") s in
  let s := print_float t s in
  println (PrintStr " C)") s.

(** The heap holds the nodes of the list and nothing else. *)
Definition heap_is_list (s : State) : Prop :=
  ∃ l, is_list (heap s) (dataListHead s) l
       ∧ ∀ a, a ∈ dom (heap s) → a ∈ addresses l.

(** A state with a single node, at the address [a], and the counter at
    [n]. *)
Definition single_node (a : loc) (x : SampleData) (n : Z) : State :=
  {| heap := {[ a := {| data := x; next := None |} ]};
     dataListHead := Some a; sampleCount := n;
     lastSampleTime := 0; serial := [] |}.

(** The state at the end of a cycle: the list cleared, the counter at 0. *)
Definition cleared (t : Z) (log : list SerialOut) : State :=
  {| heap := ∅; dataListHead := None; sampleCount := 0;
     lastSampleTime := t; serial := log |}.

(** ** Successive calls of [loop] *)

(** What one call of [loop] reads: the two values of [millis()] and the
    three values of [rand()]. *)
Record Tick := mkTick {
  now1 : Z;
  now2 : Z;
  draw1 : Z;
  draw2 : Z;
  draw3 : Z
}.

(** The calls of [loop] that the runtime makes one after the other. *)
Fixpoint run_loop (d : float_format) (fuel : nat) (ticks : list Tick) (s : State)
    : result State :=
  match ticks with
  | [] => Ok s
  | t :: ticks' =>
    s' ← loop d fuel (now1 t) (now2 t) (draw1 t) (draw2 t) (draw3 t) s;
    run_loop d fuel ticks' s'
  end.

(** Each call finds the interval elapsed since the timestamp that the call
    before it has left. *)
Fixpoint due_in_turn (last : Z) (ticks : list Tick) : Prop :=
  match ticks with
  | [] => True
  | t :: ticks' =>
    SAMPLE_INTERVAL ≤ wrap_ulong (now1 t - last) ∧ due_in_turn (now2 t) ticks'
  end.

(** The sample that a call collects. *)
Definition sample_of_tick (d : float_format) (t : Tick) : SampleData :=
  new_sample d (draw1 t) (draw2 t) (draw3 t).

(** The timestamp after the calls. *)
Definition last_time (last : Z) (ticks : list Tick) : Z :=
  foldl (λ _ t, now2 t) last ticks.

(** Calls of [loop] every ten seconds, one per triple of values of
    [rand()]. *)
Definition ticks_of (rs : list (Z * Z * Z)) : list Tick :=
  imap (λ i r, {| now1 := 10000 * (Z.of_nat i + 1); now2 := 10000 * (Z.of_nat i + 1);
                  draw1 := r.1.1; draw2 := r.1.2; draw3 := r.2 |}) rs.

(** [rand()] returns no negative value. *)
Definition draws_nonneg (t : Tick) : Prop := 0 ≤ draw1 t ∧ 0 ≤ draw2 t ∧ 0 ≤ draw3 t.

(** The address of the node before the one at [a] in the list, [prev] being
    the address before the list; [None] when [a] is the first. *)
Fixpoint prev_of (a : loc) (prev : ptr) (l : list (loc * SampleData)) : ptr :=
  match l with
  | [] => None
  | n :: l' => if decide (n.1 = a) then prev else prev_of a (Some n.1) l'
  end.

(** The node before the one that [q] points to. *)
Definition prev_ptr (q : ptr) (l : list (loc * SampleData)) : ptr :=
  match q with
  | Some a => prev_of a None l
  | None => None
  end.

(** What a call of [loop] that collects and does not complete the cycle
    leaves: the timer reset, the sample in the list, its status line in the
    log. *)
Definition collect_tick (d : float_format) (s : State) (t : Tick) : State :=
  status_line (readSimulatedTemperature d (draw1 t))
    (loop_collect d (now2 t) (draw1 t) (draw2 t) (draw3 t) s).

Definition collect_ticks (d : float_format) (ticks : list Tick) (s : State) : State :=
  foldl (collect_tick d) s ticks.

(** The status line of the sample number [n], of temperature [t], as it is
    sent to the serial port. *)
Definition status_events (n : Z) (t : float) : list SerialOut :=
  [PrintStr "Amostra "; PrintInt n; PrintStr " coletada. (Temp: ";
   PrintFloat t 2; PrintStr " C)"; NewLine].

(** The status lines of the calls, the first sample having the number
    [n]. *)
Fixpoint status_log (d : float_format) (n : Z) (ticks : list Tick) : list SerialOut :=
  match ticks with
  | [] => []
  | t :: ticks' =>
    status_events n (readSimulatedTemperature d (draw1 t)) ++ status_log d (n + 1) ticks'
  end.

(** A list of three nodes whose head has a temperature that is not a
    number, before a node at 34.9 degrees and a node at 15.0. *)
Definition nan_sample : SampleData :=
  {| temperature := S754_nan; humidity := F32.lit 60 0; salinity := F32.lit 1 0 |}.

Definition nan_headed : State :=
  {| heap := {[ 3%positive := {| data := nan_sample; next := Some 2%positive |};
                2%positive := {| data := new_sample binary32 199 300 10;
                                 next := Some 1%positive |};
                1%positive := {| data := new_sample binary32 0 300 10;
                                 next := None |} ]};
     dataListHead := Some 3%positive; sampleCount := 3;
     lastSampleTime := 0; serial := [] |}.

(** An [int] of [bits] bits, two's complement: [wrap_int] is the case of 16
    bits; other boards have 32. *)
Definition wrap_signed (bits z : Z) : Z :=
  (z + 2 ^ (bits - 1)) mod 2 ^ bits - 2 ^ (bits - 1).

(* ================================================================== *)
(** * Properties *)

(** ** Comparisons of floats *)

Lemma key_compare_Lt k1 k2 : key_compare k1 k2 = Lt ↔ key_lt k1 k2.
Proof.
  destruct k1 as [[a1 b1] c1], k2 as [[a2 b2] c2]. unfold key_compare, key_lt. simpl.
  destruct (Z.compare_spec a1 a2), (Z.compare_spec b1 b2), (Z.compare_spec c1 c2);
    split; intros; try discriminate; try lia; reflexivity.
Qed.

Lemma key_compare_Eq k1 k2 : key_compare k1 k2 = Eq ↔ k1 = k2.
Proof.
  destruct k1 as [[a1 b1] c1], k2 as [[a2 b2] c2]. unfold key_compare.
  destruct (Z.compare_spec a1 a2), (Z.compare_spec b1 b2), (Z.compare_spec c1 c2);
    split; intros H'; try discriminate; try reflexivity; try (inversion H'; lia).
  congruence.
Qed.

Lemma key_compare_Gt k1 k2 : key_compare k1 k2 = Gt ↔ key_lt k2 k1.
Proof.
  destruct k1 as [[a1 b1] c1], k2 as [[a2 b2] c2]. unfold key_compare, key_lt. simpl.
  destruct (Z.compare_spec a1 a2), (Z.compare_spec b1 b2), (Z.compare_spec c1 c2);
    split; intros; try discriminate; try lia; reflexivity.
Qed.

Lemma SFcompare_fkey x y :
  SFcompare x y =
  match fkey x, fkey y with
  | Some k1, Some k2 => Some (key_compare k1 k2)
  | _, _ => None
  end.
Proof.
  destruct x as [[]|[]| |[] m1 e1], y as [[]|[]| |[] m2 e2]; try reflexivity; simpl.
  rewrite Z.compare_opp, (Z.compare_antisym e1 e2).
  destruct (e1 ?= e2); reflexivity.
Qed.

(** The three comparisons of the sketch, read on the keys. *)
Lemma ltb_key x y :
  F32.ltb x y = true ↔ ∃ k1 k2, fkey x = Some k1 ∧ fkey y = Some k2 ∧ key_lt k1 k2.
Proof.
  unfold F32.ltb, SFltb. rewrite SFcompare_fkey.
  destruct (fkey x) as [k1|], (fkey y) as [k2|];
    try (split; [discriminate | intros (? & ? & ? & ? & ?); discriminate]).
  split.
  - intros H. exists k1, k2. repeat split. apply key_compare_Lt.
    destruct (key_compare k1 k2); congruence.
  - intros (? & ? & [= <-] & [= <-] & H). apply key_compare_Lt in H. now rewrite H.
Qed.

Lemma leb_key x y :
  F32.leb x y = true ↔
  ∃ k1 k2, fkey x = Some k1 ∧ fkey y = Some k2 ∧ key_le k1 k2.
Proof.
  unfold F32.leb, SFleb. rewrite SFcompare_fkey.
  destruct (fkey x) as [k1|], (fkey y) as [k2|];
    try (split; [discriminate | intros (? & ? & ? & ? & ?); discriminate]).
  split.
  - intros H. exists k1, k2. repeat split.
    destruct (key_compare k1 k2) eqn:E; try discriminate.
    + right. apply key_compare_Eq in E. now subst.
    + left. now apply key_compare_Lt.
  - intros (? & ? & [= <-] & [= <-] & [H|H]).
    + apply key_compare_Lt in H. now rewrite H.
    + assert (k1 = k2) as H'.
      { destruct k1 as [[? ?] ?], k2 as [[? ?] ?]; simpl in H.
        destruct H as (-> & -> & ->). reflexivity. }
      apply key_compare_Eq in H'. now rewrite H'.
Qed.

Lemma eqb_key x y :
  F32.eqb x y = true ↔ ∃ k, fkey x = Some k ∧ fkey y = Some k.
Proof.
  unfold F32.eqb, SFeqb. rewrite SFcompare_fkey.
  destruct (fkey x) as [k1|], (fkey y) as [k2|];
    try (split; [discriminate | intros (? & ? & ?); discriminate]).
  split.
  - intros H. exists k1. split; [reflexivity|].
    destruct (key_compare k1 k2) eqn:E; try discriminate.
    apply key_compare_Eq in E. now subst.
  - intros (k & [= ->] & [= ->]).
    now rewrite (proj2 (key_compare_Eq k k) eq_refl).
Qed.

Lemma ltb_false_key x y k1 k2 :
  fkey x = Some k1 → fkey y = Some k2 → F32.ltb x y = false →
  key_le k2 k1.
Proof.
  intros H1 H2. unfold F32.ltb, SFltb. rewrite SFcompare_fkey, H1, H2.
  destruct (key_compare k1 k2) eqn:E; try discriminate; intros _.
  - right. apply key_compare_Eq in E. now subst.
  - left. now apply key_compare_Gt.
Qed.

(** Turns the comparisons that hold among the hypotheses into facts on
    keys. *)
Ltac key_facts :=
  repeat match goal with
  | H : F32.ltb _ _ = true |- _ =>
    apply ltb_key in H; destruct H as (? & ? & ? & ? & ?)
  | H : F32.leb _ _ = true |- _ =>
    apply leb_key in H; destruct H as (? & ? & ? & ? & ?)
  | H : F32.eqb _ _ = true |- _ =>
    apply eqb_key in H; destruct H as (? & ? & ?)
  end;
  repeat match goal with
  | H1 : fkey ?x = Some _, H2 : fkey ?x = Some _ |- _ =>
    rewrite H1 in H2; injection H2 as <-
  end.

(** Opens the keys into their three integers, for [lia]. *)
Ltac key_unfold :=
  unfold key_le, key_lt in *;
  repeat match goal with
  | k : (Z * Z * Z)%type |- _ => destruct k as [[? ?] ?]
  end; simpl in *.

Lemma ltb_irrefl x : F32.ltb x x = false.
Proof.
  destruct (F32.ltb x x) eqn:E; [exfalso|reflexivity].
  key_facts. key_unfold. lia.
Qed.

Lemma ltb_asym x y : F32.ltb x y = true → F32.ltb y x = false.
Proof.
  intros H. destruct (F32.ltb y x) eqn:E; [exfalso|reflexivity].
  key_facts. key_unfold. lia.
Qed.

Lemma leb_not_ltb x y : F32.leb x y = true → F32.ltb y x = false.
Proof.
  intros H. destruct (F32.ltb y x) eqn:E; [exfalso|reflexivity].
  key_facts. key_unfold. lia.
Qed.

Lemma ltb_trans x y z :
  F32.ltb x y = true → F32.ltb y z = true → F32.ltb x z = true.
Proof.
  intros H1 H2. key_facts. apply ltb_key. eexists _, _. repeat split; eauto.
  key_unfold. lia.
Qed.

Lemma fkey_not_nan x : F32.is_nan x = false → ∃ k, fkey x = Some k.
Proof. destruct x as [[]|[]| |[] m e]; try discriminate; intros _; eexists; reflexivity. Qed.

Lemma ltb_total x y kx ky :
  fkey x = Some kx → fkey y = Some ky →
  F32.ltb x y = true ∨ F32.leb y x = true.
Proof.
  intros Hx Hy. destruct (F32.ltb x y) eqn:E; [now left|right].
  apply (ltb_false_key _ _ _ _ Hx Hy) in E.
  apply leb_key. eauto.
Qed.

(** Replaces the key of a literal by its value. *)
Ltac key_literals :=
  repeat match goal with
  | H : fkey (F32.lit _ _) = Some _ |- _ => vm_compute in H; simplify_eq
  end.

(** Reduces a comparison to prove to a fact on keys. *)
Ltac key_side := first [eassumption | vm_compute; reflexivity].
Ltac key_goal :=
  match goal with
  | |- F32.ltb _ _ = true =>
    apply ltb_key; eexists _, _; split; [key_side | split; [key_side|]]
  | |- F32.leb _ _ = true =>
    apply leb_key; eexists _, _; split; [key_side | split; [key_side|]]
  | |- F32.eqb _ _ = true =>
    apply eqb_key; eexists; split; key_side
  end.

(** ** Sums and quotients of numbers that are not below zero *)

Lemma shr_1_nonneg mrs : 0 ≤ shr_m mrs → 0 ≤ shr_m (shr_1 mrs).
Proof. destruct mrs as [[|[p|p|]|p] r s]; simpl; lia. Qed.

Lemma iter_shr_1_nonneg p : ∀ mrs,
  0 ≤ shr_m mrs → 0 ≤ shr_m (SpecFloat.iter_pos shr_1 p mrs).
Proof.
  induction p as [p IH|p IH|]; intros mrs H; simpl.
  - apply IH, IH, shr_1_nonneg, H.
  - apply IH, IH, H.
  - apply shr_1_nonneg, H.
Qed.

Lemma shr_fexp_nonneg prec emax m e l :
  0 ≤ m → 0 ≤ shr_m (shr_fexp prec emax m e l).1.
Proof.
  intros H. unfold shr_fexp, shr.
  assert (0 ≤ shr_m (shr_record_of_loc m l)) as H'
    by (destruct l as [|[]]; exact H).
  destruct (fexp prec emax (Zdigits2 m + e) - e); simpl; auto.
  now apply iter_shr_1_nonneg.
Qed.

Lemma round_nearest_even_nonneg m l : 0 ≤ m → 0 ≤ round_nearest_even m l.
Proof.
  intros H. destruct l as [|[]]; simpl; try lia.
  destruct (Z.even m); lia.
Qed.

(** Rounding a mantissa that is not below zero never gives a NaN. *)
Lemma binary_round_aux_nonneg prec emax m e l :
  0 ≤ m → nonneg (binary_round_aux prec emax false m e l) = true.
Proof.
  intros H. unfold binary_round_aux.
  pose proof (shr_fexp_nonneg prec emax m e l H) as H1.
  destruct (shr_fexp prec emax m e l) as [mrs1 e1]. simpl in H1.
  pose proof (shr_fexp_nonneg prec emax _ e1 loc_Exact
                (round_nearest_even_nonneg _ (loc_of_shr_record mrs1) H1)) as H2.
  destruct (shr_fexp prec emax _ e1 loc_Exact) as [mrs2 e2]. simpl in H2.
  destruct (shr_m mrs2) as [|q|q]; [reflexivity| |lia].
  destruct (e2 <=? emax - prec); reflexivity.
Qed.

Lemma add_nonneg x y :
  nonneg x = true → nonneg y = true → nonneg (F32.add x y) = true.
Proof.
  destruct x as [[]|[]| |[] mx ex], y as [[]|[]| |[] my ey];
    try discriminate; try reflexivity.
  intros _ _. unfold F32.add, SFadd. cbn [cond_Zopp].
  destruct (shl_align mx ex (Z.min ex ey)) as [mx' ex'].
  destruct (shl_align my ey (Z.min ex ey)) as [my' ey'].
  cbn [fst]. unfold binary_normalize.
  change (Z.pos mx' + Z.pos my') with (Z.pos (mx' + my')).
  unfold binary_round.
  destruct (shl_align (mx' + my') _ _) as [mz ez].
  apply binary_round_aux_nonneg. lia.
Qed.

Lemma div_nonneg x my ey :
  nonneg x = true → nonneg (F32.div x (S754_finite false my ey)) = true.
Proof.
  destruct x as [[]|[]| |[] mx ex]; try discriminate; try reflexivity.
  intros _. unfold F32.div, SFdiv, SFdiv_core_binary.
  set (m' := match _ - _ - _ with Z.pos _ => _ | 0 => _ | Z.neg _ => _ end).
  assert (0 ≤ m') as Hm'.
  { unfold m'. destruct (_ - _ - _); [lia| |lia]. apply Z.shiftl_nonneg. lia. }
  pose proof (Z.div_pos m' (Z.pos my) Hm' ltac:(lia)) as Hq.
  unfold Z.div in Hq. destruct (Z.div_eucl m' (Z.pos my)) as [q r].
  apply binary_round_aux_nonneg. exact Hq.
Qed.

Lemma fsum_nonneg xs :
  (∀ x, x ∈ xs → nonneg x = true) → nonneg (fsum xs) = true.
Proof.
  unfold fsum. generalize (F32.of_int 0) (eq_refl : nonneg (F32.of_int 0) = true).
  induction xs as [|x xs IH]; intros a Ha Hxs; simpl; [exact Ha|].
  apply IH.
  - apply add_nonneg; [exact Ha|]. apply Hxs. now left.
  - intros y Hy. apply Hxs. now right.
Qed.

Lemma nonneg_not_nan x : nonneg x = true → F32.is_nan x = false.
Proof. destruct x; try discriminate; reflexivity. Qed.

(** The mean of one to sixteen numbers that are not below zero is no NaN. *)
Lemma mean_nonneg xs :
  xs ≠ [] → (length xs ≤ 16)%nat → (∀ x, x ∈ xs → nonneg x = true) →
  nonneg (mean xs) = true.
Proof.
  intros Hne Hlen Hxs. unfold mean.
  assert (∃ m e, F32.of_int (Z.of_nat (length xs)) = S754_finite false m e)
    as (m & e & ->).
  { destruct xs as [|x xs]; [contradiction|]. clear -Hlen.
    do 16 (destruct xs as [|? xs]; [eexists _, _; reflexivity|]).
    simpl in Hlen. lia. }
  apply div_nonneg, fsum_nonneg, Hxs.
Qed.

Lemma in_range_nonneg lo hi x :
  nonneg lo = true → is_zero lo = false → in_range lo hi x = true →
  nonneg x = true.
Proof.
  unfold in_range. intros H1 H2 [H _]%andb_prop. revert H.
  destruct lo as [[]|[]| |[] m e]; try discriminate;
    destruct x as [[]|[]| |[] m' e']; try discriminate; reflexivity.
Qed.

(** ** The decision *)

Lemma decideIrrigation_table temp hum sal label :
  decision_table hum sal label → decideIrrigation temp hum sal = label.
Proof.
  unfold decideIrrigation. intros [H1 H2|H1 H2|H1|H1 H2].
  - now rewrite H1, H2.
  - now rewrite H1, (leb_not_ltb _ _ H2).
  - destruct (F32.ltb hum (F32.lit 45 0)) eqn:E; [exfalso|now rewrite H1].
    key_facts. key_literals. key_unfold. lia.
  - now rewrite (leb_not_ltb _ _ H1), (leb_not_ltb _ _ H2).
Qed.

Lemma decideIrrigation_in_table temp hum sal :
  F32.is_nan hum = false → F32.is_nan sal = false →
  decision_table hum sal (decideIrrigation temp hum sal).
Proof.
  intros [kh Hh]%fkey_not_nan [ks Hs]%fkey_not_nan. unfold decideIrrigation.
  destruct (F32.ltb hum (F32.lit 45 0)) eqn:E1.
  - destruct (ltb_total (F32.lit 3 0) sal (1, -22, 12582912) ks eq_refl Hs) as [H|H].
    + rewrite H. now constructor.
    + rewrite (leb_not_ltb _ _ H). now constructor.
  - destruct (F32.ltb (F32.lit 80 0) hum) eqn:E2; [now constructor|].
    apply row_ideal.
    + destruct (ltb_total hum (F32.lit 45 0) kh _ Hh eq_refl); congruence.
    + destruct (ltb_total (F32.lit 80 0) hum _ kh eq_refl Hh); congruence.
Qed.

Lemma sample_in_range_nonneg x :
  sample_in_range x = true →
  nonneg (temperature x) = true ∧ nonneg (humidity x) = true
  ∧ nonneg (salinity x) = true.
Proof.
  unfold sample_in_range. intros [[Ht Hh]%andb_prop Hs]%andb_prop.
  repeat split; eapply in_range_nonneg; try eassumption; reflexivity.
Qed.

(** The averages of one to sixteen samples within the ranges fall in a row
    of the table. *)
Lemma averages_in_table xs :
  xs ≠ [] → (length xs ≤ 16)%nat → (∀ x, x ∈ xs → sample_in_range x = true) →
  decision_table (mean (humidity <$> xs)) (mean (salinity <$> xs))
    (decideIrrigation (mean (temperature <$> xs)) (mean (humidity <$> xs))
       (mean (salinity <$> xs))).
Proof.
  intros Hne Hlen Hxs.
  apply decideIrrigation_in_table; apply nonneg_not_nan, mean_nonneg;
    try (intros E; apply fmap_nil_inv in E; contradiction);
    try (rewrite length_fmap; exact Hlen);
    intros y (x & -> & Hx)%list_elem_of_fmap; now apply sample_in_range_nonneg, Hxs.
Qed.

(** C1. [decideIrrigation] returns one of four distinct labels; whichever
    row of the table applies, read in its order of priority, the label is
    that of the row, and a row applies as soon as humidity and salinity are
    numbers, as the averages of the samples of a cycle are; a humidity
    equal to 45.0 or to 80.0 gives the ideal-level label, and the
    temperature plays no part. *)
Theorem decideIrrigation_priority :
  NoDup labels
  ∧ (∀ temp hum sal,
       decideIrrigation temp hum sal ∈ labels
       ∧ (∀ label, decision_table hum sal label →
                   decideIrrigation temp hum sal = label)
       ∧ (F32.is_nan hum = false → F32.is_nan sal = false →
          decision_table hum sal (decideIrrigation temp hum sal))
       ∧ (F32.eqb hum (F32.lit 45 0) = true →
          decideIrrigation temp hum sal = IDEAL_LEVEL)
       ∧ (F32.eqb hum (F32.lit 80 0) = true →
          decideIrrigation temp hum sal = IDEAL_LEVEL)
       ∧ (∀ temp', decideIrrigation temp' hum sal = decideIrrigation temp hum sal))
  ∧ (∀ xs, xs ≠ [] → (length xs ≤ 16)%nat →
       (∀ x, x ∈ xs → sample_in_range x = true) →
       decision_table (mean (humidity <$> xs)) (mean (salinity <$> xs))
         (decideIrrigation (mean (temperature <$> xs)) (mean (humidity <$> xs))
            (mean (salinity <$> xs)))).
Proof.
  split; [|split; [|apply averages_in_table]].
  { unfold labels. apply NoDup_ListNoDup.
    repeat constructor; cbn; intuition discriminate. }
  intros temp hum sal. split; [|split; [|split; [|split; [|split]]]].
  - unfold decideIrrigation, labels.
    repeat case_match; set_solver.
  - apply decideIrrigation_table.
  - apply decideIrrigation_in_table.
  - intros H. apply decideIrrigation_table, row_ideal;
      key_facts; key_literals; key_goal; key_unfold; lia.
  - intros H. apply decideIrrigation_table, row_ideal;
      key_facts; key_literals; key_goal; key_unfold; lia.
  - reflexivity.
Qed.

Lemma decideIrrigation_priority_witness :
  decideIrrigation (F32.lit 25 0) (F32.lit 40 0) (F32.lit 7 (-1)) = HIGH_SALINITY
  ∧ decideIrrigation (F32.lit 25 0) (F32.lit 40 0) (F32.lit 2 0) = LOW_HUMIDITY
  ∧ decideIrrigation (F32.lit 25 0) (F32.lit 85 0) (F32.lit 2 0) = HIGH_HUMIDITY
  ∧ decideIrrigation (F32.lit 25 0) (F32.lit 60 0) (F32.lit 2 0) = IDEAL_LEVEL
  ∧ decideIrrigation (F32.lit 25 0) (F32.lit 45 0) (F32.lit 2 0) = IDEAL_LEVEL
  ∧ decideIrrigation (F32.lit 25 0) (F32.lit 80 0) (F32.lit 7 (-1)) = IDEAL_LEVEL.
Proof.
  pose proof (proj1 (proj2 decideIrrigation_priority)) as P.
  split; [|split; [|split; [|split; [|split]]]].
  - apply (proj1 (proj2 (P (F32.lit 25 0) (F32.lit 40 0) (F32.lit 7 (-1))))).
    apply row_high_salinity; reflexivity.
  - apply (proj1 (proj2 (P (F32.lit 25 0) (F32.lit 40 0) (F32.lit 2 0)))).
    apply row_low_humidity; reflexivity.
  - apply (proj1 (proj2 (P (F32.lit 25 0) (F32.lit 85 0) (F32.lit 2 0)))).
    apply row_high_humidity; reflexivity.
  - apply (proj1 (proj2 (P (F32.lit 25 0) (F32.lit 60 0) (F32.lit 2 0)))).
    apply row_ideal; reflexivity.
  - apply (proj1 (proj2 (proj2 (proj2
      (P (F32.lit 25 0) (F32.lit 45 0) (F32.lit 2 0)))))).
    reflexivity.
  - apply (proj1 (proj2 (proj2 (proj2 (proj2
      (P (F32.lit 25 0) (F32.lit 80 0) (F32.lit 7 (-1)))))))).
    reflexivity.
Defined.

(** ** The simulated sensors *)

Lemma range_by_cases (f : Z → float) (lo hi : float) (n : nat) :
  forallb (λ k, in_range lo hi (f (Z.of_nat k))) (seq 0 n) = true →
  ∀ k, 0 ≤ k < Z.of_nat n → in_range lo hi (f k) = true.
Proof.
  intros H k Hk. rewrite forallb_forall in H.
  specialize (H (Z.to_nat k)). rewrite Z2Nat.id in H by lia.
  apply H, in_seq. lia.
Qed.

Lemma rem_rem_pos r n : 0 ≤ r → 0 < n → Z.rem (Z.rem r n) n = Z.rem r n.
Proof. intros Hr Hn. apply Z.rem_small, Z.rem_bound_pos; lia. Qed.

Lemma readSimulatedTemperature_range d r :
  d = binary32 ∨ d = binary64 → 0 ≤ r →
  in_range (F32.lit 15 0) (F32.lit 35 0) (readSimulatedTemperature d r) = true.
Proof.
  intros Hd Hr.
  replace (readSimulatedTemperature d r)
    with (readSimulatedTemperature d (Z.rem r 200))
    by (unfold readSimulatedTemperature; now rewrite rem_rem_pos).
  apply (range_by_cases _ _ _ 200); [|apply Z.rem_bound_pos; lia].
  destruct Hd as [-> | ->]; vm_compute; reflexivity.
Qed.

Lemma readSimulatedHumidity_range d r :
  d = binary32 ∨ d = binary64 → 0 ≤ r →
  in_range (F32.lit 30 0) (F32.lit 90 0) (readSimulatedHumidity d r) = true.
Proof.
  intros Hd Hr.
  replace (readSimulatedHumidity d r)
    with (readSimulatedHumidity d (Z.rem r 600))
    by (unfold readSimulatedHumidity; now rewrite rem_rem_pos).
  apply (range_by_cases _ _ _ 600); [|apply Z.rem_bound_pos; lia].
  destruct Hd as [-> | ->]; vm_compute; reflexivity.
Qed.

Lemma readSimulatedSalinity_range d r :
  d = binary32 ∨ d = binary64 → 0 ≤ r →
  in_range (F32.lit 1 (-1)) (F32.lit 4 0) (readSimulatedSalinity d r) = true.
Proof.
  intros Hd Hr.
  replace (readSimulatedSalinity d r)
    with (readSimulatedSalinity d (Z.rem r 35))
    by (unfold readSimulatedSalinity; now rewrite rem_rem_pos).
  apply (range_by_cases _ _ _ 35); [|apply Z.rem_bound_pos; lia].
  destruct Hd as [-> | ->]; vm_compute; reflexivity.
Qed.

(** ** Lists in the heap *)

Lemma is_list_lookup h p l a x :
  is_list h p l → (a, x) ∈ l → ∃ nx, h !! a = Some {| data := x; next := nx |}.
Proof.
  revert p. induction l as [|[b y] l IH]; intros p Hl Hin.
  - inversion Hin.
  - destruct Hl as (-> & nx & Hb & Hl).
    apply elem_of_cons in Hin as [[= -> ->]|Hin]; eauto.
Qed.

Lemma is_list_functional h p l1 l2 :
  is_list h p l1 → is_list h p l2 → l1 = l2.
Proof.
  revert p l2. induction l1 as [|[a x] l1 IH]; intros p [|[b y] l2] H1 H2; simpl in *.
  - reflexivity.
  - destruct H2 as (? & _). congruence.
  - destruct H1 as (? & _). congruence.
  - destruct H1 as (-> & nx1 & Ha & H1), H2 as ([= <-] & nx2 & Hb & H2).
    rewrite Ha in Hb. injection Hb as <- <-.
    f_equal. eauto.
Qed.

Lemma is_list_app h p l1 l2 :
  is_list h p (l1 ++ l2) → ∃ q, is_list h q l2.
Proof.
  revert p. induction l1 as [|[a x] l1 IH]; intros p H; simpl in *.
  - eauto.
  - destruct H as (_ & nx & _ & H). eauto.
Qed.

(** A list that ends has no node twice. *)
Lemma is_list_NoDup h p l : is_list h p l → NoDup (addresses l).
Proof.
  revert p. induction l as [|[a x] l IH]; intros p H; simpl.
  - constructor.
  - pose proof H as (-> & nx & Ha & Hl).
    constructor; [|eauto].
    intros Hin. apply list_elem_of_fmap in Hin as ([b y] & [= <-] & Hin).
    apply list_elem_of_split in Hin as (l1 & l2 & ->).
    destruct (is_list_app h nx l1 _ Hl) as (q & Hq).
    pose proof Hq as (-> & nx' & Ha' & Hq').
    rewrite Ha in Ha'. injection Ha' as <- <-.
    pose proof (is_list_functional _ _ _ _ Hl Hq') as E.
    apply (f_equal length) in E. rewrite length_app in E. simpl in E. lia.
Qed.

(** ** The loops run through the list *)

Lemma pick_cases before m c : pick before m c = m ∨ pick before m c = c.
Proof. unfold pick. destruct (before _ _); auto. Qed.

Lemma pick_same before m : pick before m m = m.
Proof. unfold pick. now destruct (before _ _). Qed.

Lemma foldl_pick_elem before m l :
  foldl (pick before) m l ∈ m :: l.
Proof.
  revert m. induction l as [|c l IH]; intros m; simpl.
  - apply elem_of_cons. now left.
  - pose proof (IH (pick before m c)) as Hin.
    destruct (pick_cases before m c) as [E|E]; rewrite E in Hin |- *;
      rewrite !elem_of_cons in *; tauto.
Qed.

Lemma deref_Some h a n : h !! a = Some n → deref h (Some a) = Ok n.
Proof. intros H. unfold deref. now rewrite H. Qed.

Lemma find_extremes_list h l : ∀ fuel p prev x m M,
  is_list h p l → (length l ≤ fuel)%nat →
  minNode x = Some m.1 → node_at h m →
  maxNode x = Some M.1 → node_at h M →
  ∃ x', find_extremes fuel h p prev x = Ok x'
        ∧ minNode x' = Some (scan_min m l).1
        ∧ maxNode x' = Some (scan_max M l).1.
Proof.
  induction l as [|[a d] l IH]; intros fuel p prev x m M Hl Hfuel Hm Hmh HM HMh.
  - simpl in Hl. subst p. destruct fuel; simpl; eauto.
  - destruct Hl as (-> & nx & Ha & Hl).
    destruct fuel as [|fuel]; [simpl in Hfuel; lia|].
    destruct Hmh as (nm & Hmh), HMh as (nM & HMh).
    cbn [find_extremes]. rewrite (deref_Some _ _ _ Ha). cbn [mbind result_bind].
    rewrite Hm, (deref_Some _ _ _ Hmh). cbn [mbind result_bind data].
    set (x1 := if F32.ltb _ _ then _ else x).
    assert (minNode x1 = Some (pick below m (a, d)).1 ∧ maxNode x1 = Some M.1) as [Hm1 HM1].
    { unfold x1, pick, below. simpl. destruct (F32.ltb _ _); auto. }
    clearbody x1.
    rewrite HM1, (deref_Some _ _ _ HMh). cbn [mbind result_bind data].
    set (x2 := if F32.ltb _ _ then _ else x1).
    assert (minNode x2 = Some (pick below m (a, d)).1
            ∧ maxNode x2 = Some (pick above M (a, d)).1) as [Hm2 HM2].
    { split; unfold x2; simpl; [|unfold pick, above; simpl];
        destruct (F32.ltb (temperature M.2) (temperature d)); simpl;
        first [assumption | reflexivity]. }
    apply (IH fuel nx (Some a) x2 (pick below m (a, d)) (pick above M (a, d)));
      auto.
    + simpl in Hfuel. lia.
    + destruct (pick_cases below m (a, d)) as [-> | ->]; red; eauto.
    + destruct (pick_cases above M (a, d)) as [-> | ->]; red; eauto.
Qed.

Lemma sum_remaining_list h l : ∀ fuel p mn mx a,
  is_list h p l → (length l ≤ fuel)%nat →
  sum_remaining fuel h p mn mx a = Ok (foldl add_sample a (samples (kept mn mx l))).
Proof.
  induction l as [|[c d] l IH]; intros fuel p mn mx a Hl Hfuel.
  - simpl in Hl. subst p. destruct fuel; reflexivity.
  - destruct Hl as (-> & nx & Ha & Hl).
    destruct fuel as [|fuel]; [simpl in Hfuel; lia|].
    cbn [sum_remaining]. rewrite (deref_Some _ _ _ Ha). cbn [mbind result_bind data next].
    rewrite (IH fuel nx) by (auto; simpl in Hfuel; lia).
    unfold kept. rewrite filter_cons. simpl.
    destruct (decide (Some c ≠ mn ∧ Some c ≠ mx)) as [[H1 H2]|H].
    + rewrite !bool_decide_eq_true_2 by assumption. reflexivity.
    + apply not_and_l in H as [H|H].
      * rewrite (bool_decide_eq_false_2 (Some c ≠ mn)) by assumption. reflexivity.
      * rewrite (bool_decide_eq_false_2 (Some c ≠ mx)) by assumption.
        rewrite andb_false_r. reflexivity.
Qed.

(** ** The scan keeps the first extreme node *)

Section Scan.
(** [before c m]: the temperature [c] of the current node takes the place
    of the temperature [m] kept so far. [v] is the extreme temperature,
    [bound] says that a temperature is not beyond it and [strict] that it
    is strictly short of it. *)
Variable before : float → float → bool.
Variable v : float.
Variables bound strict : float → Prop.

Hypothesis keep : ∀ c m, bound c → F32.eqb m v = true → before c m = false.
Hypothesis take : ∀ c m, F32.eqb c v = true → strict m → before c m = true.
Hypothesis bound_cases : ∀ t, bound t → F32.eqb t v = true ∨ strict t.

Lemma scan_keeps m l :
  attains v m.2 → (∀ n, n ∈ l → bound (temperature n.2)) →
  foldl (pick before) m l = m.
Proof.
  intros Hm. induction l as [|c l IH]; intros Hl; simpl; [reflexivity|].
  unfold pick at 2. rewrite keep; [|apply Hl; left|exact Hm].
  apply IH. intros n Hn. apply Hl. now right.
Qed.

Lemma scan_takes m l1 c l2 :
  strict (temperature m.2) → (∀ n, n ∈ l1 → strict (temperature n.2)) →
  attains v c.2 → (∀ n, n ∈ l2 → bound (temperature n.2)) →
  foldl (pick before) m (l1 ++ c :: l2) = c.
Proof.
  revert m. induction l1 as [|n l1 IH]; intros m Hm H1 Hc H2; simpl.
  - unfold pick at 2. rewrite take by assumption. now apply scan_keeps.
  - apply IH; auto.
    + destruct (pick_cases before m n) as [-> | ->]; [assumption|].
      apply H1. now left.
    + intros k Hk. apply H1. now right.
Qed.

Lemma first_attaining (l : list (loc * SampleData)) :
  (∃ n, n ∈ l ∧ attains v n.2) →
  ∃ c, first_with (λ n, attains v n.2) l c.
Proof.
  induction l as [|n l IH]; intros (k & Hk & Hv).
  - inversion Hk.
  - destruct (decide (attains v n.2)) as [Hn|Hn].
    + exists n, [], l. repeat split; auto. intros ? H. inversion H.
    + apply elem_of_cons in Hk as [->|Hk]; [contradiction|].
      destruct IH as (c & l1 & l2 & -> & Hc & H1); [eauto|].
      exists c, (n :: l1), l2. repeat split; auto.
      intros k' [->|Hk']%elem_of_cons; auto.
Qed.

Lemma scan_first hd tl :
  (∀ n, n ∈ hd :: tl → bound (temperature n.2)) →
  (∃ n, n ∈ hd :: tl ∧ attains v n.2) →
  first_with (λ n, attains v n.2) (hd :: tl) (foldl (pick before) hd (hd :: tl)).
Proof.
  intros Hb Hex.
  destruct (first_attaining _ Hex) as (c & l1 & l2 & E & Hc & H1).
  assert (foldl (pick before) hd (hd :: tl) = c) as ->;
    [|exists l1, l2; auto].
  assert (∀ n, n ∈ l2 → bound (temperature n.2)) as Hb2.
  { intros n Hn. apply Hb. rewrite E. apply elem_of_app. right. now right. }
  assert (∀ n, n ∈ l1 → strict (temperature n.2)) as Hs1.
  { intros n Hn. destruct (bound_cases (temperature n.2)) as [H|H]; auto.
    - apply Hb. rewrite E. apply elem_of_app. now left.
    - now apply H1 in Hn. }
  simpl. rewrite pick_same.
  destruct l1 as [|n l1]; simpl in E; injection E as -> ->.
  - now apply scan_keeps.
  - apply scan_takes; auto.
    + apply Hs1. now left.
    + intros k Hk. apply Hs1. now right.
Qed.
End Scan.

Lemma key_le_antisym k1 k2 : key_le k1 k2 → key_le k2 k1 → k1 = k2.
Proof.
  intros H1 H2. key_unfold.
  repeat match goal with |- (_, _) = (_, _) => f_equal end; lia.
Qed.

Lemma leb_cases x y :
  F32.leb x y = true → F32.eqb x y = true ∨ F32.ltb x y = true.
Proof.
  intros H. key_facts.
  match goal with Hle : key_le ?a ?b |- _ => destruct Hle as [Hlt|Heq] end.
  - right. key_goal. assumption.
  - left.
    match goal with
    | Ha : fkey x = Some ?a, Hb : fkey y = Some ?b |- _ =>
      assert (a = b) as -> by (apply key_le_antisym; right; key_unfold; lia)
    end.
    key_goal.
Qed.

Lemma eqb_sym x y : F32.eqb x y = true → F32.eqb y x = true.
Proof. intros H. key_facts. key_goal. Qed.

Lemma min_keep v c m :
  F32.leb v c = true → F32.eqb m v = true → below c m = false.
Proof.
  intros H1 H2. unfold below. destruct (F32.ltb c m) eqn:E; [exfalso|reflexivity].
  key_facts. key_unfold. lia.
Qed.

Lemma min_take v c m :
  F32.eqb c v = true → F32.ltb v m = true → below c m = true.
Proof. intros H1 H2. unfold below. key_facts. key_goal. assumption. Qed.

Lemma max_keep v c m :
  F32.leb c v = true → F32.eqb m v = true → above c m = false.
Proof.
  intros H1 H2. unfold above. destruct (F32.ltb m c) eqn:E; [exfalso|reflexivity].
  key_facts. key_unfold. lia.
Qed.

Lemma max_take v c m :
  F32.eqb c v = true → F32.ltb m v = true → above c m = true.
Proof. intros H1 H2. unfold above. key_facts. key_goal. assumption. Qed.

Lemma elem_of_samples (n : loc * SampleData) l : n ∈ l → n.2 ∈ samples l.
Proof. intros H. apply list_elem_of_fmap. eauto. Qed.

Lemma samples_elem_of x l : x ∈ samples l → ∃ n, n ∈ l ∧ n.2 = x.
Proof. intros (n & -> & H)%list_elem_of_fmap. eauto. Qed.

Lemma scan_min_first hd tl v :
  min_temperature v (samples (hd :: tl)) →
  first_with (λ n, attains v n.2) (hd :: tl) (scan_min hd (hd :: tl)).
Proof.
  intros [Hb (x & (n & Hn & <-)%samples_elem_of & Hx)].
  apply (scan_first below v (λ t, F32.leb v t = true) (λ t, F32.ltb v t = true)).
  - apply min_keep.
  - apply min_take.
  - intros t [H|H]%leb_cases; auto using eqb_sym.
  - intros k Hk. now apply Hb, elem_of_samples.
  - eauto.
Qed.

Lemma scan_max_first hd tl v :
  max_temperature v (samples (hd :: tl)) →
  first_with (λ n, attains v n.2) (hd :: tl) (scan_max hd (hd :: tl)).
Proof.
  intros [Hb (x & (n & Hn & <-)%samples_elem_of & Hx)].
  apply (scan_first above v (λ t, F32.leb t v = true) (λ t, F32.ltb t v = true)).
  - apply max_keep.
  - apply max_take.
  - intros t [H|H]%leb_cases; auto.
  - intros k Hk. now apply Hb, elem_of_samples.
  - eauto.
Qed.

(** ** The sums of the second loop *)

Lemma wrap_int_small z : - 2 ^ 15 ≤ z ≤ INT_MAX → wrap_int z = z.
Proof.
  unfold wrap_int, INT_MAX, INT_BITS. intros H.
  change (2 ^ (16 - 1)) with 32768 in *. change (2 ^ 16) with 65536.
  change (2 ^ 15) with 32768 in H.
  rewrite Z.mod_small; lia.
Qed.

Lemma foldl_add_sample a xs :
  0 ≤ remainingCount a →
  remainingCount a + Z.of_nat (length xs) ≤ INT_MAX →
  foldl add_sample a xs =
  {| sumTemp := foldl F32.add (sumTemp a) (temperature <$> xs);
     sumHum := foldl F32.add (sumHum a) (humidity <$> xs);
     sumSal := foldl F32.add (sumSal a) (salinity <$> xs);
     remainingCount := remainingCount a + Z.of_nat (length xs) |}.
Proof.
  revert a. induction xs as [|x xs IH]; intros a H0 Hmax; simpl.
  - destruct a; simpl. f_equal. lia.
  - simpl in Hmax.
    assert (wrap_int (remainingCount a + 1) = remainingCount a + 1) as E.
    { apply wrap_int_small. change (2 ^ 15) with 32768. lia. }
    rewrite IH; simpl; rewrite E; [|lia|lia].
    f_equal. lia.
Qed.

Lemma heap_print o s : heap (print o s) = heap s.
Proof. reflexivity. Qed.

(** ** The processing step on a list held by the heap *)

Lemma processAndReportData_list fuel s hd tl :
  let l := hd :: tl in
  let m := scan_min hd l in
  let M := scan_max hd l in
  is_list (heap s) (dataListHead s) l →
  sampleCount s = SAMPLES_PER_CYCLE →
  (length l ≤ fuel)%nat → Z.of_nat (length l) ≤ INT_MAX →
  processAndReportData fuel s =
  Ok (cycle_report (temperature m.2) (temperature M.2)
        (samples (kept (Some m.1) (Some M.1) l)) s).
Proof.
  intros l m M Hl Hc Hfuel Hmax.
  assert (node_at (heap s) hd) as Hhd.
  { destruct hd as [a x]. destruct Hl as (_ & nx & Ha & _). red. eauto. }
  assert (dataListHead s = Some hd.1) as Hhead.
  { destruct hd as [a x]. now destruct Hl as (-> & _). }
  destruct (find_extremes_list (heap s) l fuel (dataListHead s) None
              (from_head s) hd hd)
    as (x & Hx & Hmin & Hmax'); auto.
  fold m in Hmin. fold M in Hmax'.
  assert (∀ n, n ∈ hd :: l → node_at (heap s) n) as Hnode.
  { intros [a y] [->|Hn]%elem_of_cons; [assumption|].
    destruct (is_list_lookup _ _ _ _ _ Hl Hn) as (nx & Ha). red. eauto. }
  destruct (Hnode m) as (nm & Hm); [apply foldl_pick_elem|].
  destruct (Hnode M) as (nM & HM); [apply foldl_pick_elem|].
  unfold processAndReportData.
  rewrite bool_decide_eq_false_2 by (intros H; apply H; exact Hc).
  rewrite Hx. cbn [mbind result_bind].
  rewrite !heap_print, Hmin, (deref_Some _ _ _ Hm). cbn [mbind result_bind].
  unfold print_float, println. rewrite !heap_print, Hmax', (deref_Some _ _ _ HM).
  cbn [mbind result_bind].
  rewrite !heap_print.
  change (dataListHead (print _ _)) with (dataListHead s).
  rewrite (sum_remaining_list _ l) by assumption.
  cbn [mbind result_bind].
  rewrite foldl_add_sample; [|simpl; lia|].
  - unfold cycle_report, mean, fsum, removal_lines, print_float, println. simpl.
    rewrite !length_fmap, Z.add_0_l. reflexivity.
  - simpl. unfold samples. rewrite length_fmap.
    pose proof (length_filter (λ n, Some n.1 ≠ Some m.1 ∧ Some n.1 ≠ Some M.1) l).
    unfold kept. lia.
Qed.

(** ** The nodes left out *)

Lemma filter_ext_in {A} (P1 P2 : A → Prop)
    `{!∀ x, Decision (P1 x), !∀ x, Decision (P2 x)} (l : list A) :
  (∀ x, x ∈ l → P1 x ↔ P2 x) → filter P1 l = filter P2 l.
Proof.
  induction l as [|a l IH]; intros Hiff; [reflexivity|].
  rewrite !filter_cons, IH by (intros x Hx; apply Hiff; now right).
  pose proof (Hiff a ltac:(now left)) as Ha.
  destruct (decide (P1 a)), (decide (P2 a)); tauto || reflexivity.
Qed.

Lemma filter_fmap {A B} (f : A → B) (P : B → Prop) `{!∀ y, Decision (P y)}
    (l : list A) :
  filter P (f <$> l) = f <$> filter (λ x, P (f x)) l.
Proof.
  induction l as [|a l IH]; [reflexivity|].
  rewrite fmap_cons, !filter_cons, IH.
  destruct (decide (P (f a))); reflexivity.
Qed.

Lemma addresses_inj l (n k : loc * SampleData) :
  NoDup (addresses l) → n ∈ l → k ∈ l → n.1 = k.1 → n = k.
Proof.
  induction l as [|c l IH]; intros Hnd Hn Hk E; [inversion Hn|].
  unfold addresses in Hnd. rewrite fmap_cons in Hnd.
  apply NoDup_cons in Hnd as [Hc Hnd].
  apply elem_of_cons in Hn as [->|Hn], Hk as [->|Hk]; auto.
  - exfalso. apply Hc. rewrite E. apply list_elem_of_fmap. eauto.
  - exfalso. apply Hc. rewrite <- E. apply list_elem_of_fmap. eauto.
Qed.

Lemma NoDup_nodes l : NoDup (addresses l) → NoDup l.
Proof. apply NoDup_fmap_1. Qed.

(** The list is made of the one or two nodes left out and of those kept. *)
Lemma kept_complement l (m M : loc * SampleData) :
  NoDup (addresses l) → m ∈ l → M ∈ l →
  l ≡ₚ (if decide (m = M) then [m] else [m; M]) ++ kept (Some m.1) (Some M.1) l.
Proof.
  intros Hnd Hm HM.
  set (P := λ n : loc * SampleData, Some n.1 ≠ Some m.1 ∧ Some n.1 ≠ Some M.1).
  rewrite <- (filter_app_complement P l) at 1.
  rewrite (comm (++)). apply Permutation_app; [|reflexivity].
  assert (∀ n, n ∈ filter (λ x, ¬ P x) l ↔ n = m ∨ n = M) as Hin.
  { intros n. rewrite list_elem_of_filter. unfold P. split.
    - intros [Hn Hl].
      destruct (decide (n.1 = m.1)) as [E|E];
        [left; eapply addresses_inj; eauto|].
      destruct (decide (n.1 = M.1)) as [E'|E'];
        [right; eapply addresses_inj; eauto|].
      exfalso. apply Hn. split; congruence.
    - intros [-> | ->]; (split; [|assumption]); intros [H1 H2]; congruence. }
  apply NoDup_Permutation.
  - apply NoDup_filter, NoDup_nodes, Hnd.
  - destruct (decide (m = M)).
    + apply NoDup_singleton.
    + apply NoDup_cons. split; [|apply NoDup_singleton].
      intros H%list_elem_of_singleton. contradiction.
  - intros n. rewrite Hin. destruct (decide (m = M)) as [<-|].
    + rewrite list_elem_of_singleton. tauto.
    + rewrite elem_of_cons, list_elem_of_singleton. tauto.
Qed.

Lemma length_kept l (m M : loc * SampleData) :
  NoDup (addresses l) → m ∈ l → M ∈ l →
  length l = ((if decide (m = M) then 1 else 2) + length (kept (Some m.1) (Some M.1) l))%nat.
Proof.
  intros Hnd Hm HM.
  rewrite (kept_complement l m M Hnd Hm HM) at 1.
  rewrite length_app. destruct (decide (m = M)); reflexivity.
Qed.

(** ** What the processing step leaves alone *)

Lemma processAndReportData_frame fuel s s' :
  processAndReportData fuel s = Ok s' → same_globals s s'.
Proof.
  unfold processAndReportData, same_globals.
  case_bool_decide; [intros [= <-]; auto|].
  destruct (find_extremes _ _ _ _ _) as [x| |]; try discriminate.
  cbn [mbind result_bind].
  destruct (deref _ (minNode x)) as [mn| |]; try discriminate.
  cbn [mbind result_bind].
  destruct (deref _ (maxNode x)) as [mx| |]; try discriminate.
  cbn [mbind result_bind].
  destruct (sum_remaining _ _ _ _ _ _) as [a| |]; try discriminate.
  cbn [mbind result_bind].
  intros [= <-]. auto.
Qed.

Lemma processAndReportData_skip fuel s :
  sampleCount s ≠ SAMPLES_PER_CYCLE → processAndReportData fuel s = Ok s.
Proof.
  intros H. unfold processAndReportData. now rewrite bool_decide_eq_true_2.
Qed.

(** C7. When the counter is not 16 the processing step returns at once,
    whatever the fuel: it is no fault, and the state that comes out, list,
    counter, timestamp and serial log, is the state that went in. *)
Theorem processAndReportData_noop (fuel : nat) (s : State) :
  sampleCount s ≠ SAMPLES_PER_CYCLE → processAndReportData fuel s = Ok s.
Proof.
  intros Hc. unfold processAndReportData.
  destruct (bool_decide_reflect (sampleCount s ≠ SAMPLES_PER_CYCLE)) as [_|Hn].
  - reflexivity.
  - contradiction.
Qed.

Lemma processAndReportData_noop_witness :
  sampleCount (setup initial_state) ≠ SAMPLES_PER_CYCLE
  ∧ processAndReportData 0 (setup initial_state) = Ok (setup initial_state).
Proof.
  assert (sampleCount (setup initial_state) ≠ SAMPLES_PER_CYCLE) as H
    by (vm_compute; discriminate).
  split; [exact H|].
  exact (processAndReportData_noop 0 (setup initial_state) H).
Defined.

(** ** [collectSample] and [clearList] on the list *)

Lemma is_list_insert h p l a n :
  h !! a = None → is_list h p l → is_list (<[a := n]> h) p l.
Proof.
  intros Ha. revert p. induction l as [|[b y] l IH]; intros p Hl; simpl in *.
  - assumption.
  - destruct Hl as (-> & nx & Hb & Hl). split; [reflexivity|].
    exists nx. split; [|auto].
    rewrite lookup_insert_ne; [assumption|congruence].
Qed.

Lemma new_node_fresh (h : gmap loc Node) : h !! new_node h = None.
Proof. apply not_elem_of_dom. unfold new_node. apply is_fresh. Qed.

Lemma collectSample_list d r1 r2 r3 s l :
  is_list (heap s) (dataListHead s) l →
  is_list (heap (collectSample d r1 r2 r3 s))
          (dataListHead (collectSample d r1 r2 r3 s))
          ((new_node (heap s), new_sample d r1 r2 r3) :: l).
Proof.
  intros Hl. simpl. split; [reflexivity|].
  exists (dataListHead s). split.
  - apply lookup_insert_eq.
  - apply is_list_insert; [apply new_node_fresh|assumption].
Qed.

Lemma collectSample_count d r1 r2 r3 s :
  0 ≤ sampleCount s < INT_MAX →
  sampleCount (collectSample d r1 r2 r3 s) = sampleCount s + 1.
Proof.
  intros H. simpl. apply wrap_int_small. change (2 ^ 15) with 32768. lia.
Qed.

Lemma is_list_delete h p l a :
  a ∉ addresses l → is_list h p l → is_list (delete a h) p l.
Proof.
  revert p. induction l as [|[b y] l IH]; intros p Ha Hl; simpl in *.
  - assumption.
  - destruct Hl as (-> & nx & Hb & Hl). split; [reflexivity|].
    apply not_elem_of_cons in Ha as [Hab Ha].
    exists nx. split; [|auto].
    rewrite lookup_delete_ne; [assumption|congruence].
Qed.

(** [clearList] frees the nodes of the list, and only them. *)
Lemma delete_nodes_list h l : ∀ fuel p,
  is_list h p l → (length l ≤ fuel)%nat →
  ∃ h', delete_nodes fuel h p = Ok h'
        ∧ ∀ a, h' !! a = if decide (a ∈ addresses l) then None else h !! a.
Proof.
  revert h. induction l as [|[b y] l IH]; intros h fuel p Hl Hfuel.
  - simpl in Hl. subst p. exists h. split; [destruct fuel; reflexivity|].
    intros a. rewrite decide_False; [reflexivity|]. intros H. inversion H.
  - pose proof (is_list_NoDup _ _ _ Hl) as Hnd.
    destruct Hl as (-> & nx & Hb & Hl).
    destruct fuel as [|fuel]; [simpl in Hfuel; lia|].
    cbn [delete_nodes]. rewrite (deref_Some _ _ _ Hb). cbn [mbind result_bind next].
    unfold addresses in Hnd. rewrite fmap_cons in Hnd.
    apply NoDup_cons in Hnd as [Hb' Hnd].
    destruct (IH (delete b h) fuel nx) as (h' & -> & Hh').
    { now apply is_list_delete. }
    { simpl in Hfuel. lia. }
    exists h'. split; [reflexivity|].
    intros a. rewrite Hh'. unfold addresses. rewrite fmap_cons. simpl.
    destruct (decide (a ∈ l.*1)) as [Ha|Ha].
    + rewrite decide_True; [reflexivity|now right].
    + destruct (decide (a = b)) as [->|Hab].
      * rewrite decide_True by now left. apply lookup_delete_eq.
      * rewrite decide_False by (intros [?|?]%elem_of_cons; contradiction).
        now apply lookup_delete_ne.
Qed.

(** Short of fuel for the whole list, the loop of [clearList] does not end. *)
Lemma delete_nodes_short h l : ∀ fuel p,
  is_list h p l → (fuel < length l)%nat → delete_nodes fuel h p = OutOfFuel.
Proof.
  revert h. induction l as [|[b y] l IH]; intros h fuel p Hl Hfuel.
  - simpl in Hfuel. lia.
  - pose proof (is_list_NoDup _ _ _ Hl) as Hnd.
    destruct Hl as (-> & nx & Hb & Hl).
    destruct fuel as [|fuel]; [reflexivity|].
    cbn [delete_nodes]. rewrite (deref_Some _ _ _ Hb). cbn [mbind result_bind next].
    unfold addresses in Hnd. rewrite fmap_cons in Hnd.
    apply NoDup_cons in Hnd as [Hb' Hnd].
    apply IH; [now apply is_list_delete|simpl in Hfuel; lia].
Qed.

Lemma clearList_list fuel s l :
  is_list (heap s) (dataListHead s) l → (length l ≤ fuel)%nat →
  ∃ s', clearList fuel s = Ok s'
        ∧ dataListHead s' = None ∧ sampleCount s' = 0
        ∧ lastSampleTime s' = lastSampleTime s ∧ serial s' = serial s
        ∧ ∀ a, heap s' !! a =
               if decide (a ∈ addresses l) then None else heap s !! a.
Proof.
  intros Hl Hfuel. unfold clearList.
  destruct (delete_nodes_list _ _ fuel _ Hl Hfuel) as (h' & -> & Hh').
  cbn [mbind result_bind]. eexists. split; [reflexivity|]. simpl. auto.
Qed.

Lemma clearList_counter_matches fuel s s' :
  clearList fuel s = Ok s' → counter_matches s' ∧ sampleCount s' = 0.
Proof.
  unfold clearList. destruct (delete_nodes _ _ _) as [h| |]; try discriminate.
  intros [= <-]. split; [|reflexivity]. exists []. simpl. auto.
Qed.

(** ** The counter along [loop] *)

Lemma counter_matches_same s s' :
  same_globals s s' → counter_matches s → counter_matches s'.
Proof.
  intros (Hh & Hp & Hc & _) (l & Hl & Hn). exists l.
  rewrite Hh, Hp, Hc. auto.
Qed.

Lemma same_globals_print o s : same_globals s (print o s).
Proof. repeat split. Qed.

Lemma same_globals_trans s1 s2 s3 :
  same_globals s1 s2 → same_globals s2 s3 → same_globals s1 s3.
Proof.
  intros (? & ? & ? & ?) (? & ? & ? & ?). repeat split; congruence.
Qed.

Lemma setup_counter : cycle_open (setup initial_state).
Proof.
  split; [exists []; simpl; auto|].
  simpl. unfold SAMPLES_PER_CYCLE. lia.
Qed.

Lemma loop_collect_counter d now2 r1 r2 r3 s :
  cycle_open s →
  counter_matches (loop_collect d now2 r1 r2 r3 s)
  ∧ sampleCount (loop_collect d now2 r1 r2 r3 s) = sampleCount s + 1
  ∧ dataListHead (loop_collect d now2 r1 r2 r3 s) ≠ None.
Proof.
  intros [(l & Hl & Hn) Hc]. unfold loop_collect.
  set (s0 := set_lastSampleTime now2 s).
  assert (sampleCount (collectSample d r1 r2 r3 s0) = sampleCount s + 1) as E.
  { apply (collectSample_count d r1 r2 r3 s0). simpl.
    unfold SAMPLES_PER_CYCLE, INT_MAX, INT_BITS in *. simpl. lia. }
  split; [|split; [exact E|discriminate]].
  exists ((new_node (heap s0), new_sample d r1 r2 r3) :: l). split.
  - now apply (collectSample_list d r1 r2 r3 s0).
  - rewrite E, Hn. simpl length. lia.
Qed.

Lemma loop_announce_frame s s' : loop_announce s = Ok s' → same_globals s s'.
Proof.
  unfold loop_announce.
  destruct (deref _ _) as [hd| |]; try discriminate.
  cbn [mbind result_bind]. intros [= <-]. repeat split.
Qed.

Lemma loop_announce_runs s :
  counter_matches s → dataListHead s ≠ None → ∃ s', loop_announce s = Ok s'.
Proof.
  intros (l & Hl & _) Hp. unfold loop_announce. rewrite !heap_print.
  change (dataListHead (print _ _)) with (dataListHead s).
  destruct l as [|[a x] l]; simpl in Hl; [contradiction|].
  destruct Hl as (-> & nx & Ha & _).
  rewrite (deref_Some _ _ _ Ha). cbn [mbind result_bind]. eauto.
Qed.

(** A call of [loop] keeps the cycle open. *)
Lemma loop_cycle_open d fuel now1 now2 r1 r2 r3 s s' :
  cycle_open s → loop d fuel now1 now2 r1 r2 r3 s = Ok s' → cycle_open s'.
Proof.
  intros Hs. unfold loop.
  destruct (sample_due now1 s); [|intros [= <-]; exact Hs].
  destruct (loop_collect_counter d now2 r1 r2 r3 s Hs) as (Hm & Hc & _).
  destruct (loop_announce _) as [s1| |] eqn:E1; try discriminate.
  apply loop_announce_frame in E1.
  cbn [mbind result_bind].
  case_bool_decide as Hfull.
  - destruct (processAndReportData _ _) as [s2| |]; try discriminate.
    cbn [mbind result_bind].
    destruct (clearList fuel s2) as [s3| |] eqn:E3; try discriminate.
    cbn [mbind result_bind]. intros [= <-].
    apply clearList_counter_matches in E3 as [H3 H0].
    split.
    + apply (counter_matches_same s3); [repeat split|assumption].
    + simpl. rewrite H0. unfold SAMPLES_PER_CYCLE. lia.
  - intros [= <-]. split.
    + now apply (counter_matches_same _ _ E1).
    + destruct E1 as (_ & _ & E1 & _). destruct Hs as [_ Hs]. lia.
Qed.

Lemma at_loop_cycle_open d s : at_loop d s → cycle_open s.
Proof.
  induction 1 as [|fuel now1 now2 r1 r2 r3 s s' _ IH _ _ _ Hloop].
  - apply setup_counter.
  - eapply loop_cycle_open; eauto.
Qed.

(** With fuel for the sixteen nodes, a call of [loop] returns. *)
Lemma loop_runs d fuel now1 now2 r1 r2 r3 s :
  cycle_open s → (16 ≤ fuel)%nat →
  ∃ s', loop d fuel now1 now2 r1 r2 r3 s = Ok s'.
Proof.
  intros Hs Hfuel. unfold loop.
  destruct (sample_due now1 s); [|eauto].
  destruct (loop_collect_counter d now2 r1 r2 r3 s Hs) as (Hm & Hc & Hp).
  destruct (loop_announce_runs _ Hm Hp) as (s1 & E1). rewrite E1.
  apply loop_announce_frame in E1.
  cbn [mbind result_bind].
  case_bool_decide as Hfull; [|eauto].
  pose proof (counter_matches_same _ _ E1 Hm) as (l & Hl & Hn).
  assert (length l = 16%nat) as Hlen
    by (unfold SAMPLES_PER_CYCLE in Hfull; lia).
  destruct l as [|hd tl]; [discriminate|].
  rewrite (processAndReportData_list fuel (println cycle_banner s1) hd tl);
    [|exact Hl|exact Hfull|lia|rewrite Hlen; vm_compute; discriminate].
  cbn [mbind result_bind].
  edestruct (clearList_list fuel) as (s3 & -> & _); [exact Hl|lia|].
  cbn [mbind result_bind]. eauto.
Qed.

Lemma reachable_counter d s :
  reachable d s → counter_matches s ∧ 0 ≤ sampleCount s ≤ SAMPLES_PER_CYCLE.
Proof.
  intros H. destruct H as
    [ | s Hs
      | now1 now2 r1 r2 r3 s Hs _ _ _ _
      | fuel now1 now2 r1 r2 r3 s s1 s2 Hs _ _ _ _ E1 Hfull E2
      | fuel fuel' now1 now2 r1 r2 r3 s s1 s2 s3 Hs _ _ _ _ E1 Hfull E2 E3 ].
  - split; [exists []; simpl; auto|]. simpl. unfold SAMPLES_PER_CYCLE. lia.
  - apply at_loop_cycle_open in Hs as [Hm Hc]. split; [assumption|lia].
  - apply at_loop_cycle_open in Hs.
    destruct (loop_collect_counter d now2 r1 r2 r3 s Hs) as (Hm & Hc & _).
    destruct Hs as [_ Hs]. split; [assumption|lia].
  - apply at_loop_cycle_open in Hs.
    destruct (loop_collect_counter d now2 r1 r2 r3 s Hs) as (Hm & Hc & _).
    apply loop_announce_frame in E1. apply processAndReportData_frame in E2.
    assert (same_globals s1 s2) as E12.
    { eapply same_globals_trans; [|exact E2]. repeat split. }
    split.
    + eapply counter_matches_same; [exact E12|].
      eapply counter_matches_same; [exact E1|exact Hm].
    + destruct E12 as (_ & _ & -> & _). rewrite Hfull.
      unfold SAMPLES_PER_CYCLE. lia.
  - apply clearList_counter_matches in E3 as [Hm H0].
    split; [assumption|]. rewrite H0. unfold SAMPLES_PER_CYCLE. lia.
Qed.

Lemma collect_all_list d rs : ∀ s l,
  is_list (heap s) (dataListHead s) l →
  sampleCount s = Z.of_nat (length l) →
  Z.of_nat (length l + length rs) ≤ INT_MAX →
  ∃ l', is_list (heap (collect_all d rs s)) (dataListHead (collect_all d rs s)) l'
        ∧ samples l' = reverse ((λ r, new_sample d r.1.1 r.1.2 r.2) <$> rs) ++ samples l
        ∧ sampleCount (collect_all d rs s) = Z.of_nat (length l')
        ∧ length l' = (length l + length rs)%nat.
Proof.
  induction rs as [|r rs IH]; intros s l Hl Hn Hmax.
  - exists l. simpl. repeat split; auto.
  - simpl in Hmax. unfold collect_all. simpl foldl.
    set (s1 := collectSample d r.1.1 r.1.2 r.2 s).
    destruct (IH s1 ((new_node (heap s), new_sample d r.1.1 r.1.2 r.2) :: l))
      as (l' & Hl' & Hs' & Hn' & Hlen').
    + now apply collectSample_list.
    + unfold s1. rewrite collectSample_count by lia. simpl length. lia.
    + simpl length. lia.
    + exists l'. repeat split; try assumption.
      * rewrite Hs'. simpl. rewrite reverse_cons, <- app_assoc. reflexivity.
      * rewrite Hlen'. simpl. lia.
Qed.

(** C6. At every point of the program the cycle counter is the length of
    the list: [collectSample] puts one node in front and adds one to the
    counter, [clearList] leaves the empty list and the counter 0, the
    processing step changes neither; and after 16 calls of [collectSample]
    from the initial state the counter is 16 and the list has 16 nodes. *)
Theorem counter_is_length (d : float_format) :
  (∀ s, reachable d s →
     counter_matches s ∧ 0 ≤ sampleCount s ≤ SAMPLES_PER_CYCLE)
  ∧ (∀ s l r1 r2 r3,
       is_list (heap s) (dataListHead s) l →
       sampleCount s = Z.of_nat (length l) → Z.of_nat (length l) < INT_MAX →
       let s' := collectSample d r1 r2 r3 s in
       (∃ a, is_list (heap s') (dataListHead s') ((a, new_sample d r1 r2 r3) :: l))
       ∧ sampleCount s' = sampleCount s + 1)
  ∧ (∀ fuel s l,
       is_list (heap s) (dataListHead s) l → (length l ≤ fuel)%nat →
       ∃ s', clearList fuel s = Ok s' ∧ is_list (heap s') (dataListHead s') []
             ∧ sampleCount s' = 0)
  ∧ (∀ fuel s s', processAndReportData fuel s = Ok s' → same_globals s s')
  ∧ (∀ rs, length rs = 16%nat →
       let s := collect_all d rs initial_state in
       sampleCount s = 16
       ∧ ∃ l, is_list (heap s) (dataListHead s) l ∧ length l = 16%nat).
Proof.
  split; [apply reachable_counter|].
  split; [|split; [|split; [apply processAndReportData_frame|]]].
  - intros s l r1 r2 r3 Hl Hn Hmax s'. split.
    + eexists. now apply collectSample_list.
    + apply collectSample_count. lia.
  - intros fuel s l Hl Hfuel.
    destruct (clearList_list fuel s l Hl Hfuel) as (s' & E & Hp & Hc & _).
    exists s'. simpl. auto.
  - intros rs Hrs s.
    destruct (collect_all_list d rs initial_state []) as (l & Hl & _ & Hn & Hlen).
    + reflexivity.
    + reflexivity.
    + rewrite Hrs. vm_compute. discriminate.
    + fold s in Hl, Hn. rewrite Hrs in Hlen. simpl in Hlen.
      split; [rewrite Hn, Hlen; reflexivity|eauto].
Qed.

Lemma counter_is_length_witness :
  reachable binary32 (loop_collect binary32 10000 7 13 5 (setup initial_state))
  ∧ counter_matches (loop_collect binary32 10000 7 13 5 (setup initial_state)).
Proof.
  assert (reachable binary32 (loop_collect binary32 10000 7 13 5 (setup initial_state))) as H.
  { apply (reach_collected binary32 10000); try lia.
    - apply at_loop_setup.
    - reflexivity. }
  split; [exact H|].
  exact (proj1 (proj1 (counter_is_length binary32) _ H)).
Defined.

(** ** The two loops on a cycle of sixteen samples *)

(** What the two loops compute on a list of sixteen nodes. *)
Lemma loops_on_cycle fuel s l :
  is_list (heap s) (dataListHead s) l → length l = 16%nat → (16 ≤ fuel)%nat →
  ∃ hd x,
    head l = Some hd
    ∧ find_extremes fuel (heap s) (dataListHead s) None (from_head s) = Ok x
    ∧ minNode x = Some (scan_min hd l).1 ∧ maxNode x = Some (scan_max hd l).1
    ∧ scan_min hd l ∈ l ∧ scan_max hd l ∈ l
    ∧ sum_remaining fuel (heap s) (dataListHead s) (minNode x) (maxNode x) zero_sums
      = Ok (foldl add_sample zero_sums (samples (kept (minNode x) (maxNode x) l)))
    ∧ remainingCount (foldl add_sample zero_sums (samples (kept (minNode x) (maxNode x) l)))
      = Z.of_nat (length (kept (minNode x) (maxNode x) l)).
Proof.
  intros Hl Hlen Hfuel.
  destruct l as [|hd tl]; [discriminate|]. set (l := hd :: tl) in *.
  assert (node_at (heap s) hd) as Hhd.
  { destruct hd as [a y]. destruct Hl as (_ & nx & Ha & _). red. eauto. }
  assert (dataListHead s = Some hd.1) as Hhead.
  { destruct hd as [a y]. now destruct Hl as (-> & _). }
  destruct (find_extremes_list (heap s) l fuel (dataListHead s) None
              (from_head s) hd hd) as (x & Hx & Hmin & Hmax); auto; [lia|].
  exists hd, x.
  assert (∀ before, foldl (pick before) hd l ∈ l) as Hin.
  { intros before. unfold l. simpl. rewrite pick_same. apply foldl_pick_elem. }
  repeat split; auto; try apply Hin.
  - apply sum_remaining_list; [assumption|lia].
  - rewrite foldl_add_sample; simpl; [|lia|].
    + unfold samples. rewrite length_fmap. lia.
    + unfold samples. rewrite length_fmap.
      pose proof (length_filter (λ n, Some n.1 ≠ minNode x ∧ Some n.1 ≠ maxNode x) l) as Hk.
      unfold kept. rewrite Hlen in Hk. unfold INT_MAX, INT_BITS. simpl. lia.
Qed.

(** C5. With the counter at 16 and a list of sixteen nodes, the two loops
    of the processing step return and the second counts 14 or 15 samples;
    the step then divides the three sums by that count converted to
    [float], which is neither zero nor a NaN, and prints the report on the
    three quotients: none of the three divisions is a division by zero. *)
Theorem remaining_count_not_zero (fuel : nat) (s : State) (l : list (loc * SampleData)) :
  is_list (heap s) (dataListHead s) l →
  sampleCount s = SAMPLES_PER_CYCLE → length l = 16%nat → (16 ≤ fuel)%nat →
  ∃ x a mn mx,
    find_extremes fuel (heap s) (dataListHead s) None (from_head s) = Ok x
    ∧ deref (heap s) (minNode x) = Ok mn
    ∧ deref (heap s) (maxNode x) = Ok mx
    ∧ sum_remaining fuel (heap s) (dataListHead s) (minNode x) (maxNode x) zero_sums = Ok a
    ∧ (remainingCount a = 14 ∨ remainingCount a = 15)
    ∧ is_zero (F32.of_int (remainingCount a)) = false
    ∧ F32.is_nan (F32.of_int (remainingCount a)) = false
    ∧ processAndReportData fuel s =
      let avgTemp := F32.div (sumTemp a) (F32.of_int (remainingCount a)) in
      let avgHum := F32.div (sumHum a) (F32.of_int (remainingCount a)) in
      let avgSal := F32.div (sumSal a) (F32.of_int (remainingCount a)) in
      Ok (printReport avgTemp avgHum avgSal (decideIrrigation avgTemp avgHum avgSal)
            (remainingCount a)
            (removal_lines (temperature (data mn)) (temperature (data mx)) s)).
Proof.
  intros Hl Hc Hlen Hfuel.
  destruct (loops_on_cycle fuel s l Hl Hlen Hfuel)
    as (hd & x & _ & Hx & Hmin & Hmax & Hm & HM & Ha & Hn).
  assert (∀ n, n ∈ l → ∃ nd, deref (heap s) (Some n.1) = Ok nd) as Hat.
  { intros [b y] Hin. destruct (is_list_lookup _ _ _ _ _ Hl Hin) as [nx Hb].
    eexists. apply deref_Some. exact Hb. }
  destruct (Hat _ Hm) as [mn Emn]. destruct (Hat _ HM) as [mx Emx].
  rewrite <- Hmin in Emn. rewrite <- Hmax in Emx.
  set (a := foldl add_sample zero_sums (samples (kept (minNode x) (maxNode x) l))) in *.
  exists x, a, mn, mx.
  split; [exact Hx|]. split; [exact Emn|]. split; [exact Emx|]. split; [exact Ha|].
  assert (remainingCount a = 14 ∨ remainingCount a = 15) as Hcount.
  { rewrite Hn, Hmin, Hmax.
    pose proof (length_kept l _ _ (is_list_NoDup _ _ _ Hl) Hm HM) as Hk.
    rewrite Hlen in Hk.
    destruct (decide (scan_min hd l = scan_max hd l)); [right|left]; lia. }
  split; [exact Hcount|].
  split; [destruct Hcount as [-> | ->]; reflexivity|].
  split; [destruct Hcount as [-> | ->]; reflexivity|].
  unfold processAndReportData.
  rewrite bool_decide_eq_false_2 by (intros H; apply H; exact Hc).
  rewrite Hx. cbn [mbind result_bind].
  rewrite !heap_print, Emn. cbn [mbind result_bind].
  unfold print_float, println. rewrite !heap_print, Emx.
  cbn [mbind result_bind].
  rewrite !heap_print.
  change (dataListHead (print _ _)) with (dataListHead s).
  rewrite Ha. reflexivity.
Qed.

(** C9. The processing step is a traversal that only reads: whenever it
    returns, heap, list head, counter and timestamp are as before, and on a
    list that the counter matches it does return, with the list in place.
    Nodes come into the heap through [collectSample], one at a time at a
    free address, and leave it through [clearList], which frees the nodes
    of the list and no other. *)
Theorem processAndReportData_read_only (fuel : nat) (s : State) :
  (∀ s', processAndReportData fuel s = Ok s' → same_globals s s')
  ∧ (∀ l, is_list (heap s) (dataListHead s) l →
          sampleCount s = Z.of_nat (length l) → (length l ≤ fuel)%nat →
          ∃ s', processAndReportData fuel s = Ok s'
                ∧ is_list (heap s') (dataListHead s') l)
  ∧ (∀ d r1 r2 r3,
       heap s !! new_node (heap s) = None
       ∧ heap (collectSample d r1 r2 r3 s) =
         <[new_node (heap s) :=
             {| data := new_sample d r1 r2 r3; next := dataListHead s |}]> (heap s))
  ∧ (∀ l s', is_list (heap s) (dataListHead s) l → clearList fuel s = Ok s' →
       ∀ a, heap s' !! a = if decide (a ∈ addresses l) then None else heap s !! a).
Proof.
  split; [apply processAndReportData_frame|]. split; [|split].
  - intros l Hl Hn Hfuel.
    assert (∃ s', processAndReportData fuel s = Ok s') as (s' & E).
    { destruct (decide (sampleCount s = SAMPLES_PER_CYCLE)) as [Hc|Hc].
      - assert (length l = 16%nat) as Hlen by (unfold SAMPLES_PER_CYCLE in Hc; lia).
        destruct l as [|hd tl]; [discriminate|].
        rewrite (processAndReportData_list fuel s hd tl); eauto.
        rewrite Hlen. vm_compute. discriminate.
      - rewrite processAndReportData_skip; eauto. }
    exists s'. split; [exact E|].
    apply processAndReportData_frame in E as (-> & -> & _). exact Hl.
  - intros d r1 r2 r3. split; [apply new_node_fresh|reflexivity].
  - intros l s' Hl E.
    destruct (decide (length l ≤ fuel)%nat) as [Hfuel|Hfuel].
    + destruct (clearList_list fuel s l Hl Hfuel) as (s'' & E' & _ & _ & _ & _ & Hh).
      rewrite E in E'. injection E' as <-. exact Hh.
    + exfalso. revert E. unfold clearList.
      rewrite (delete_nodes_short _ _ _ _ Hl); [discriminate|lia].
Qed.

(** ** Ties *)

Lemma find_extremes_from_head fuel s hd tl :
  is_list (heap s) (dataListHead s) (hd :: tl) → (length (hd :: tl) ≤ fuel)%nat →
  ∃ x, find_extremes fuel (heap s) (dataListHead s) None (from_head s) = Ok x
       ∧ minNode x = Some (scan_min hd (hd :: tl)).1
       ∧ maxNode x = Some (scan_max hd (hd :: tl)).1.
Proof.
  intros Hl Hfuel.
  assert (node_at (heap s) hd) as Hhd.
  { destruct hd as [a y]. destruct Hl as (_ & nx & Ha & _). red. eauto. }
  assert (dataListHead s = Some hd.1) as Hhead.
  { destruct hd as [a y]. now destruct Hl as (-> & _). }
  apply find_extremes_list; auto.
Qed.

(** C8. On a list that is not empty the scan ends with [minNode] on the
    first node, from the head, that has the lowest temperature, and with
    [maxNode] on the first node that has the highest one. *)
Theorem first_extreme_wins (fuel : nat) (s : State) (l : list (loc * SampleData)) :
  is_list (heap s) (dataListHead s) l → l ≠ [] → (length l ≤ fuel)%nat →
  ∃ x, find_extremes fuel (heap s) (dataListHead s) None (from_head s) = Ok x
       ∧ (∀ v, min_temperature v (samples l) →
            ∃ c, minNode x = Some c.1 ∧ first_with (λ n, attains v n.2) l c)
       ∧ (∀ v, max_temperature v (samples l) →
            ∃ c, maxNode x = Some c.1 ∧ first_with (λ n, attains v n.2) l c).
Proof.
  intros Hl Hne Hfuel. destruct l as [|hd tl]; [contradiction|].
  destruct (find_extremes_from_head fuel s hd tl Hl Hfuel) as (x & Hx & Hmin & Hmax).
  exists x. split; [exact Hx|]. split; intros v Hv.
  - exists (scan_min hd (hd :: tl)). split; [exact Hmin|]. now apply scan_min_first.
  - exists (scan_max hd (hd :: tl)). split; [exact Hmax|]. now apply scan_max_first.
Qed.

(** ** Unique extremes, and a single extreme *)

Lemma first_with_head {A} (P : A → Prop) (hd : A) tl c :
  first_with P (hd :: tl) c → P hd → c = hd.
Proof.
  intros (l1 & l2 & E & _ & H1) Hhd.
  destruct l1 as [|n l1]; simpl in E; injection E as -> ->; [reflexivity|].
  exfalso. apply (H1 n); [now left|assumption].
Qed.

Lemma first_with_elem {A} (P : A → Prop) l c : first_with P l c → c ∈ l ∧ P c.
Proof.
  intros (l1 & l2 & -> & Hc & _). split; [|assumption].
  apply elem_of_app. right. now left.
Qed.

(** A temperature that one sample only has is that of the first node found
    with it, and of no other node. *)
Lemma attained_once_unique v l m :
  first_with (λ n, attains v n.2) l m → attained_once v (samples l) →
  ∀ n, n ∈ l → attains v n.2 → n = m.
Proof.
  intros (l1 & l2 & -> & Hm & H1) Honce n Hn Hv.
  unfold attained_once, samples in Honce.
  rewrite fmap_app, fmap_cons, filter_app, filter_cons_True, length_app in Honce
    by assumption.
  simpl in Honce.
  apply elem_of_app in Hn as [Hn|Hn]; [now apply H1 in Hn|].
  apply elem_of_cons in Hn as [->|Hn]; [reflexivity|exfalso].
  assert (n.2 ∈ filter (attains v) l2.*2) as Hin.
  { apply list_elem_of_filter. split; [assumption|]. now apply elem_of_samples. }
  destruct (filter (attains v) l2.*2); [inversion Hin|simpl in Honce; lia].
Qed.

Lemma eqb_leb x y : F32.eqb x y = true → F32.leb x y = true ∧ F32.leb y x = true.
Proof.
  intros H. key_facts. split; key_goal; right; key_unfold; lia.
Qed.

Lemma squeezed v w m x :
  F32.eqb m v = true → F32.eqb m w = true →
  F32.leb v x = true → F32.leb x w = true → F32.eqb x v = true.
Proof.
  intros H1 H2 H3 H4. key_facts.
  match goal with
  | Ha : key_le ?a ?b, Hb : key_le ?b ?a |- _ =>
    pose proof (key_le_antisym _ _ Ha Hb); subst
  end.
  key_goal.
Qed.

Lemma kept_one l (n : loc * SampleData) :
  kept (Some n.1) (Some n.1) l = without n.1 l.
Proof.
  unfold kept, without. apply list_filter_iff. intros k. split.
  - intros [H _] E. apply H. now rewrite E.
  - intros H. split; intros [= E]; contradiction.
Qed.

(** The two nodes that the scan ends on when each extreme temperature
    belongs to one sample only, and the nodes that the second loop keeps. *)
Lemma unique_extremes_nodes hd tl vmin vmax :
  let l := hd :: tl in
  let m := scan_min hd l in
  let M := scan_max hd l in
  NoDup (addresses l) → (2 ≤ length l)%nat →
  min_temperature vmin (samples l) → attained_once vmin (samples l) →
  max_temperature vmax (samples l) → attained_once vmax (samples l) →
  m ∈ l ∧ M ∈ l ∧ m ≠ M ∧ attains vmin m.2 ∧ attains vmax M.2
  ∧ samples (kept (Some m.1) (Some M.1) l) = strictly_between vmin vmax (samples l).
Proof.
  intros l m M Hnd Hlen Hmin Honce Hmax Honce'.
  pose proof (scan_min_first hd tl vmin Hmin) as Fm.
  pose proof (scan_max_first hd tl vmax Hmax) as FM.
  fold l in Fm, FM. fold m in Fm. fold M in FM.
  destruct (first_with_elem _ _ _ Fm) as [Hm Hmv].
  destruct (first_with_elem _ _ _ FM) as [HM HMv].
  pose proof (attained_once_unique vmin l m Fm Honce) as Um.
  pose proof (attained_once_unique vmax l M FM Honce') as UM.
  assert (m ≠ M) as Hne.
  { intros E.
    assert (∀ n, n ∈ l → n = m) as Hall.
    { intros n Hn. apply Um; [assumption|].
      apply (squeezed vmin vmax (temperature m.2)); auto.
      - now rewrite E.
      - now apply Hmin, elem_of_samples.
      - now apply Hmax, elem_of_samples. }
    apply NoDup_nodes in Hnd. unfold l in Hnd, Hall, Hlen.
    destruct tl as [|n tl]; [simpl in Hlen; lia|].
    apply NoDup_cons in Hnd as [Hnd _]. apply Hnd.
    rewrite (Hall hd), (Hall n); [now left|right; now left|now left]. }
  repeat split; try assumption.
  assert (kept (Some m.1) (Some M.1) l
          = filter (λ n, ¬ attains vmin n.2 ∧ ¬ attains vmax n.2) l) as ->.
  { unfold kept. apply filter_ext_in. intros n Hn. split.
    - intros [H1 H2]. split; intros Hv.
      + apply H1. now rewrite (Um n).
      + apply H2. now rewrite (UM n).
    - intros [H1 H2]. split; intros [= E].
      + apply H1. now rewrite (addresses_inj l n m).
      + apply H2. now rewrite (addresses_inj l n M). }
  unfold strictly_between, samples. symmetry. apply filter_fmap.
Qed.

(** C2. When one sample only has the lowest temperature of the sixteen and
    one only the highest, the processing step leaves out these two samples
    and no other: the 14 samples that have neither temperature remain, the
    count it reports is 14 and the averages are the means of temperature,
    humidity and salinity over them. *)
Theorem unique_extremes_leave_fourteen (fuel : nat) (s : State)
    (l : list (loc * SampleData)) (vmin vmax : float) :
  is_list (heap s) (dataListHead s) l →
  sampleCount s = SAMPLES_PER_CYCLE → length l = 16%nat → (16 ≤ fuel)%nat →
  min_temperature vmin (samples l) → attained_once vmin (samples l) →
  max_temperature vmax (samples l) → attained_once vmax (samples l) →
  let rem := strictly_between vmin vmax (samples l) in
  ∃ xmin xmax,
    attains vmin xmin ∧ attains vmax xmax
    ∧ samples l ≡ₚ xmin :: xmax :: rem
    ∧ length rem = 14%nat
    ∧ processAndReportData fuel s =
      Ok (cycle_report (temperature xmin) (temperature xmax) rem s).
Proof.
  intros Hl Hc Hlen Hfuel Hmin Honce Hmax Honce' rem.
  destruct l as [|hd tl]; [discriminate|]. set (l := hd :: tl) in *.
  pose proof (is_list_NoDup _ _ _ Hl) as Hnd.
  destruct (unique_extremes_nodes hd tl vmin vmax)
    as (Hm & HM & Hne & Hmv & HMv & Hrem); auto; [fold l; lia|].
  fold l in Hm, HM, Hne, Hmv, HMv, Hrem. fold rem in Hrem.
  set (m := scan_min hd l) in *. set (M := scan_max hd l) in *.
  exists m.2, M.2. split; [exact Hmv|]. split; [exact HMv|].
  split; [|split].
  - rewrite <- Hrem. unfold samples.
    etrans; [apply fmap_Permutation, (kept_complement l m M Hnd Hm HM)|].
    rewrite decide_False by assumption. reflexivity.
  - pose proof (length_kept l m M Hnd Hm HM) as Hk.
    rewrite decide_False in Hk by assumption.
    rewrite <- Hrem. unfold samples. rewrite length_fmap. lia.
  - rewrite <- Hrem. apply processAndReportData_list; auto; fold l.
    + lia.
    + rewrite Hlen. vm_compute. discriminate.
Qed.

(** C3. When the scan of sixteen samples ends with [minNode] and [maxNode]
    on the same node, that node alone is left out: 15 samples remain, the
    count reported is 15 and the averages are the means over these 15. This
    is what happens when the sixteen temperatures are equal: both pointers
    stay on the head of the list. *)
Theorem same_extreme_leaves_fifteen (fuel : nat) (s : State)
    (l : list (loc * SampleData)) :
  is_list (heap s) (dataListHead s) l →
  sampleCount s = SAMPLES_PER_CYCLE → length l = 16%nat → (16 ≤ fuel)%nat →
  ∃ x,
    find_extremes fuel (heap s) (dataListHead s) None (from_head s) = Ok x
    ∧ (minNode x = maxNode x →
       ∃ n, n ∈ l ∧ minNode x = Some n.1 ∧
         let rem := samples (without n.1 l) in
         samples l ≡ₚ n.2 :: rem
         ∧ length rem = 15%nat
         ∧ processAndReportData fuel s =
           Ok (cycle_report (temperature n.2) (temperature n.2) rem s))
    ∧ ((∀ x1 x2, x1 ∈ samples l → x2 ∈ samples l →
          F32.eqb (temperature x1) (temperature x2) = true) →
       minNode x = dataListHead s ∧ maxNode x = dataListHead s).
Proof.
  intros Hl Hc Hlen Hfuel.
  destruct l as [|hd tl]; [discriminate|]. set (l := hd :: tl) in *.
  pose proof (is_list_NoDup _ _ _ Hl) as Hnd.
  destruct (find_extremes_from_head fuel s hd tl Hl) as (x & Hx & Hmin & Hmax);
    [fold l; lia|].
  fold l in Hmin, Hmax.
  set (m := scan_min hd l) in *. set (M := scan_max hd l) in *.
  assert (m ∈ l ∧ M ∈ l) as [Hm HM].
  { unfold m, M, scan_min, scan_max, l. simpl.
    rewrite !pick_same. split; apply foldl_pick_elem. }
  exists x. split; [exact Hx|]. split.
  - intros E. rewrite Hmin, Hmax in E. injection E as E.
    assert (m = M) as EM by (eapply addresses_inj; eauto).
    exists m. split; [exact Hm|]. split; [exact Hmin|]. cbv zeta.
    rewrite <- kept_one. split; [|split].
    + unfold samples.
      etrans; [apply fmap_Permutation, (kept_complement l m m Hnd Hm Hm)|].
      rewrite decide_True by reflexivity. reflexivity.
    + pose proof (length_kept l m m Hnd Hm Hm) as Hk.
      rewrite decide_True in Hk by reflexivity.
      unfold samples. rewrite length_fmap. lia.
    + rewrite (processAndReportData_list fuel s hd tl); auto; fold l.
      * fold m M. rewrite <- EM. reflexivity.
      * lia.
      * rewrite Hlen. vm_compute. discriminate.
  - intros Heq.
    assert (dataListHead s = Some hd.1) as ->.
    { destruct hd as [a y]. now destruct Hl as (-> & _). }
    assert (hd.2 ∈ samples l) as Hhd by (apply elem_of_samples; now left).
    assert (attains (temperature hd.2) hd.2) as Hat by (now apply Heq).
    rewrite Hmin, Hmax. split; f_equal; f_equal.
    + apply (first_with_head (λ n, attains (temperature hd.2) n.2) hd tl);
        [|exact Hat].
      apply scan_min_first. split; [|eauto].
      intros y Hy. now apply eqb_leb, Heq.
    + apply (first_with_head (λ n, attains (temperature hd.2) n.2) hd tl);
        [|exact Hat].
      apply scan_max_first. split; [|eauto].
      intros y Hy. now apply eqb_leb, Heq.
Qed.

(** ** Ranges of the samples in the heap *)

Lemma new_sample_in_range d r1 r2 r3 :
  d = binary32 ∨ d = binary64 → 0 ≤ r1 → 0 ≤ r2 → 0 ≤ r3 →
  sample_in_range (new_sample d r1 r2 r3) = true.
Proof.
  intros Hd H1 H2 H3. unfold sample_in_range, new_sample. simpl.
  rewrite readSimulatedTemperature_range, readSimulatedHumidity_range,
    readSimulatedSalinity_range by assumption.
  reflexivity.
Qed.

Lemma collectSample_in_range d r1 r2 r3 s :
  d = binary32 ∨ d = binary64 → 0 ≤ r1 → 0 ≤ r2 → 0 ≤ r3 →
  heap_in_range s → heap_in_range (collectSample d r1 r2 r3 s).
Proof.
  intros Hd H1 H2 H3 Hs a n. simpl.
  destruct (decide (new_node (heap s) = a)) as [<-|Hne].
  - rewrite lookup_insert_eq. intros [= <-]. now apply new_sample_in_range.
  - rewrite lookup_insert_ne by assumption. apply Hs.
Qed.

Lemma loop_collect_in_range d now2 r1 r2 r3 s :
  d = binary32 ∨ d = binary64 → 0 ≤ r1 → 0 ≤ r2 → 0 ≤ r3 →
  heap_in_range s → heap_in_range (loop_collect d now2 r1 r2 r3 s).
Proof.
  intros Hd H1 H2 H3 Hs. unfold loop_collect.
  apply collectSample_in_range; auto.
Qed.

Lemma heap_in_range_same s s' :
  same_globals s s' → heap_in_range s → heap_in_range s'.
Proof. intros (Hh & _) Hs a n. rewrite Hh. apply Hs. Qed.

Lemma delete_nodes_sub fuel : ∀ h p h',
  delete_nodes fuel h p = Ok h' → ∀ a n, h' !! a = Some n → h !! a = Some n.
Proof.
  induction fuel as [|fuel IH]; intros h [c|] h'; cbn [delete_nodes];
    try discriminate; try (intros [= <-]; auto).
  destruct (deref h (Some c)) as [cur| |]; try discriminate.
  cbn [mbind result_bind]. intros E a n Ha.
  apply (IH _ _ _ E) in Ha.
  destruct (decide (c = a)) as [->|Hne].
  - now rewrite lookup_delete_eq in Ha.
  - now rewrite lookup_delete_ne in Ha.
Qed.

Lemma clearList_in_range fuel s s' :
  clearList fuel s = Ok s' → heap_in_range s → heap_in_range s'.
Proof.
  unfold clearList.
  destruct (delete_nodes _ _ _) as [h| |] eqn:E; try discriminate.
  intros [= <-] Hs a n Ha. simpl in Ha.
  apply (delete_nodes_sub _ _ _ _ E) in Ha. eapply Hs, Ha.
Qed.

Lemma loop_in_range d fuel now1 now2 r1 r2 r3 s s' :
  d = binary32 ∨ d = binary64 → 0 ≤ r1 → 0 ≤ r2 → 0 ≤ r3 →
  heap_in_range s → loop d fuel now1 now2 r1 r2 r3 s = Ok s' → heap_in_range s'.
Proof.
  intros Hd H1 H2 H3 Hs. unfold loop.
  destruct (sample_due now1 s); [|intros [= <-]; exact Hs].
  assert (heap_in_range (loop_collect d now2 r1 r2 r3 s)) as Hc
    by now apply loop_collect_in_range.
  destruct (loop_announce _) as [s1| |] eqn:E1; try discriminate.
  apply loop_announce_frame in E1.
  cbn [mbind result_bind].
  pose proof (heap_in_range_same _ _ E1 Hc) as Hs1.
  case_bool_decide; [|intros [= <-]; exact Hs1].
  destruct (processAndReportData _ _) as [s2| |] eqn:E2; try discriminate.
  cbn [mbind result_bind].
  destruct (clearList fuel s2) as [s3| |] eqn:E3; try discriminate.
  cbn [mbind result_bind]. intros [= <-].
  apply processAndReportData_frame in E2.
  assert (heap_in_range s3) as Hs3; [|exact Hs3].
  eapply clearList_in_range; [exact E3|].
  eapply heap_in_range_same; [exact E2|exact Hs1].
Qed.

Lemma at_loop_in_range d s :
  d = binary32 ∨ d = binary64 → at_loop d s → heap_in_range s.
Proof.
  intros Hd. induction 1 as [|fuel now1 now2 r1 r2 r3 s s' _ IH H1 H2 H3 Hloop].
  - intros a n Ha. simpl in Ha. now rewrite lookup_empty in Ha.
  - exact (loop_in_range d fuel now1 now2 r1 r2 r3 s s' Hd H1 H2 H3 IH Hloop).
Qed.

Lemma reachable_in_range d s :
  d = binary32 ∨ d = binary64 → reachable d s → heap_in_range s.
Proof.
  intros Hd H. destruct H as
    [ | s Hs
      | now1 now2 r1 r2 r3 s Hs H1 H2 H3 _
      | fuel now1 now2 r1 r2 r3 s s1 s2 Hs H1 H2 H3 _ E1 Hfull E2
      | fuel fuel' now1 now2 r1 r2 r3 s s1 s2 s3 Hs H1 H2 H3 _ E1 Hfull E2 E3 ].
  - intros a n Ha. simpl in Ha. now rewrite lookup_empty in Ha.
  - now apply (at_loop_in_range d).
  - apply loop_collect_in_range; auto. now apply (at_loop_in_range d).
  - apply loop_announce_frame in E1. apply processAndReportData_frame in E2.
    eapply heap_in_range_same; [exact E2|].
    eapply (heap_in_range_same (loop_collect d now2 r1 r2 r3 s));
      [eapply same_globals_trans; [exact E1|repeat split]|].
    apply loop_collect_in_range; auto. now apply (at_loop_in_range d).
  - apply loop_announce_frame in E1. apply processAndReportData_frame in E2.
    eapply clearList_in_range; [exact E3|].
    eapply heap_in_range_same; [exact E2|].
    eapply (heap_in_range_same (loop_collect d now2 r1 r2 r3 s));
      [eapply same_globals_trans; [exact E1|repeat split]|].
    apply loop_collect_in_range; auto. now apply (at_loop_in_range d).
Qed.

(** C10. Whatever [rand()] returns, the simulated temperature is within
    [15.0, 35.0], the humidity within [30.0, 90.0] and the salinity within
    [0.5, 4.0], in both formats that [double] can have; so the node that
    [collectSample] puts at the head, and every node of the heap at every
    point of the program, holds readings within these ranges. *)
Theorem readings_in_range (d : float_format) :
  d = binary32 ∨ d = binary64 →
  (∀ r, 0 ≤ r →
     in_range (F32.lit 15 0) (F32.lit 35 0) (readSimulatedTemperature d r) = true)
  ∧ (∀ r, 0 ≤ r →
     in_range (F32.lit 30 0) (F32.lit 90 0) (readSimulatedHumidity d r) = true)
  ∧ (∀ r, 0 ≤ r →
     in_range (F32.lit 1 (-1)) (F32.lit 4 0) (readSimulatedSalinity d r) = true)
  ∧ (∀ r1 r2 r3 s, 0 ≤ r1 → 0 ≤ r2 → 0 ≤ r3 →
     ∃ a n, dataListHead (collectSample d r1 r2 r3 s) = Some a
            ∧ heap (collectSample d r1 r2 r3 s) !! a = Some n
            ∧ data n = new_sample d r1 r2 r3
            ∧ sample_in_range (data n) = true)
  ∧ (∀ s, reachable d s → heap_in_range s).
Proof.
  intros Hd. split; [|split; [|split; [|split]]].
  - intros r Hr. exact (readSimulatedTemperature_range d r Hd Hr).
  - intros r Hr. exact (readSimulatedHumidity_range d r Hd Hr).
  - intros r Hr. exact (readSimulatedSalinity_range d r Hd Hr).
  - intros r1 r2 r3 s H1 H2 H3. eexists _, _. simpl.
    split; [reflexivity|]. split; [apply lookup_insert_eq|].
    split; [reflexivity|]. now apply new_sample_in_range.
  - intros s Hs. now apply (reachable_in_range d).
Qed.

Lemma readings_in_range_witness :
  in_range (F32.lit 15 0) (F32.lit 35 0) (readSimulatedTemperature binary64 32767) = true
  ∧ in_range (F32.lit 30 0) (F32.lit 90 0) (readSimulatedHumidity binary32 599) = true
  ∧ in_range (F32.lit 1 (-1)) (F32.lit 4 0) (readSimulatedSalinity binary32 34) = true.
Proof.
  split; [|split].
  - apply (proj1 (readings_in_range binary64 (or_intror eq_refl))). lia.
  - apply (proj1 (proj2 (readings_in_range binary32 (or_introl eq_refl)))). lia.
  - apply (proj1 (proj2 (proj2 (readings_in_range binary32 (or_introl eq_refl))))). lia.
Defined.

(** ** Lists of the concrete cycles *)

Lemma cycle_of_list rs :
  length rs = 16%nat →
  ∃ l, is_list (heap (cycle_of rs)) (dataListHead (cycle_of rs)) l
       ∧ samples l = samples_of rs
       ∧ sampleCount (cycle_of rs) = SAMPLES_PER_CYCLE
       ∧ length l = 16%nat.
Proof.
  intros Hrs.
  destruct (collect_all_list binary32 rs initial_state []) as (l & Hl & Hs & Hn & Hlen).
  - reflexivity.
  - reflexivity.
  - rewrite Hrs. vm_compute. discriminate.
  - exists l. rewrite Hrs in Hlen. simpl in Hlen, Hs. rewrite app_nil_r in Hs.
    repeat split; try assumption.
    unfold cycle_of. rewrite Hn, Hlen. reflexivity.
Qed.

Lemma min_temperature_check v xs :
  forallb (λ x, F32.leb v (temperature x)) xs = true →
  existsb (λ x, F32.eqb (temperature x) v) xs = true →
  min_temperature v xs.
Proof.
  intros Hall Hex. split.
  - intros x Hx. rewrite forallb_forall in Hall. now apply Hall, list_elem_of_In.
  - apply existsb_exists in Hex as (x & Hx & Hv). exists x.
    split; [now apply list_elem_of_In|exact Hv].
Qed.

Lemma max_temperature_check v xs :
  forallb (λ x, F32.leb (temperature x) v) xs = true →
  existsb (λ x, F32.eqb (temperature x) v) xs = true →
  max_temperature v xs.
Proof.
  intros Hall Hex. split.
  - intros x Hx. rewrite forallb_forall in Hall. now apply Hall, list_elem_of_In.
  - apply existsb_exists in Hex as (x & Hx & Hv). exists x.
    split; [now apply list_elem_of_In|exact Hv].
Qed.

Lemma unique_extremes_leave_fourteen_witness :
  ∃ l, is_list (heap (cycle_of mean45_draws)) (dataListHead (cycle_of mean45_draws)) l
       ∧ samples l = samples_of mean45_draws
       ∧ ∃ xmin xmax,
           samples l ≡ₚ xmin :: xmax
             :: strictly_between (F32.lit 15 0) (readSimulatedTemperature binary32 199) (samples l)
           ∧ processAndReportData 16 (cycle_of mean45_draws) =
             Ok (cycle_report (temperature xmin) (temperature xmax)
                   (strictly_between (F32.lit 15 0) (readSimulatedTemperature binary32 199) (samples l))
                   (cycle_of mean45_draws)).
Proof.
  destruct (cycle_of_list mean45_draws eq_refl) as (l & Hl & Hs & Hc & Hlen).
  exists l. split; [exact Hl|]. split; [exact Hs|].
  destruct (unique_extremes_leave_fourteen 16 (cycle_of mean45_draws) l
              (F32.lit 15 0) (readSimulatedTemperature binary32 199) Hl Hc Hlen)
    as (xmin & xmax & _ & _ & Hp & _ & Hr).
  - lia.
  - rewrite Hs. apply min_temperature_check; vm_compute; reflexivity.
  - rewrite Hs. vm_compute. reflexivity.
  - rewrite Hs. apply max_temperature_check; vm_compute; reflexivity.
  - rewrite Hs. vm_compute. reflexivity.
  - exists xmin, xmax. split; [exact Hp|exact Hr].
Defined.

(** ** Extremes of a list of numbers *)

Lemma leb_refl x : F32.is_nan x = false → F32.leb x x = true.
Proof.
  intros [k Hk]%fkey_not_nan. apply leb_key. exists k, k.
  repeat split; auto. right. auto.
Qed.

Lemma eqb_refl x : F32.is_nan x = false → F32.eqb x x = true.
Proof. intros [k Hk]%fkey_not_nan. apply eqb_key. eauto. Qed.

Lemma leb_trans x y z :
  F32.leb x y = true → F32.leb y z = true → F32.leb x z = true.
Proof.
  intros H1 H2. key_facts. key_goal. key_unfold. lia.
Qed.

Lemma ltb_leb x y : F32.ltb x y = true → F32.leb x y = true.
Proof. intros H. key_facts. key_goal. now left. Qed.

Lemma not_ltb_leb x y :
  F32.is_nan x = false → F32.is_nan y = false →
  F32.ltb x y = false → F32.leb y x = true.
Proof.
  intros [kx Hx]%fkey_not_nan [ky Hy]%fkey_not_nan H.
  destruct (ltb_total x y kx ky Hx Hy); congruence.
Qed.

Lemma scan_min_lower (l : list (loc * SampleData)) : ∀ m,
  F32.is_nan (temperature m.2) = false →
  (∀ n, n ∈ l → F32.is_nan (temperature n.2) = false) →
  F32.leb (temperature (foldl (pick below) m l).2) (temperature m.2) = true
  ∧ ∀ n, n ∈ l →
      F32.leb (temperature (foldl (pick below) m l).2) (temperature n.2) = true.
Proof.
  induction l as [|c l IH]; intros m Hm Hl; simpl.
  - split; [now apply leb_refl|]. intros n Hn. inversion Hn.
  - assert (F32.is_nan (temperature c.2) = false) as Hc by (apply Hl; now left).
    assert (F32.leb (temperature (pick below m c).2) (temperature m.2) = true
            ∧ F32.leb (temperature (pick below m c).2) (temperature c.2) = true
            ∧ F32.is_nan (temperature (pick below m c).2) = false) as (Pm & Pc & Pn).
    { unfold pick, below. destruct (F32.ltb (temperature c.2) (temperature m.2)) eqn:E.
      - split; [now apply ltb_leb|]. split; [now apply leb_refl|exact Hc].
      - split; [now apply leb_refl|]. split; [now apply not_ltb_leb|exact Hm]. }
    destruct (IH (pick below m c) Pn) as [Ha Hb].
    { intros n Hn. apply Hl. now right. }
    split; [eapply leb_trans; eauto|].
    intros n [->|Hn]%elem_of_cons; [eapply leb_trans; eauto|now apply Hb].
Qed.

Lemma scan_max_upper (l : list (loc * SampleData)) : ∀ m,
  F32.is_nan (temperature m.2) = false →
  (∀ n, n ∈ l → F32.is_nan (temperature n.2) = false) →
  F32.leb (temperature m.2) (temperature (foldl (pick above) m l).2) = true
  ∧ ∀ n, n ∈ l →
      F32.leb (temperature n.2) (temperature (foldl (pick above) m l).2) = true.
Proof.
  induction l as [|c l IH]; intros m Hm Hl; simpl.
  - split; [now apply leb_refl|]. intros n Hn. inversion Hn.
  - assert (F32.is_nan (temperature c.2) = false) as Hc by (apply Hl; now left).
    assert (F32.leb (temperature m.2) (temperature (pick above m c).2) = true
            ∧ F32.leb (temperature c.2) (temperature (pick above m c).2) = true
            ∧ F32.is_nan (temperature (pick above m c).2) = false) as (Pm & Pc & Pn).
    { unfold pick, above. destruct (F32.ltb (temperature m.2) (temperature c.2)) eqn:E.
      - split; [now apply ltb_leb|]. split; [now apply leb_refl|exact Hc].
      - split; [now apply leb_refl|]. split; [now apply not_ltb_leb|exact Hm]. }
    destruct (IH (pick above m c) Pn) as [Ha Hb].
    { intros n Hn. apply Hl. now right. }
    split; [eapply leb_trans; eauto|].
    intros n [->|Hn]%elem_of_cons; [eapply leb_trans; eauto|now apply Hb].
Qed.

Lemma extreme_unique v w tx ty :
  F32.eqb tx v = true → F32.leb w tx = true →
  F32.eqb ty w = true → F32.leb v ty = true → F32.eqb v w = true.
Proof.
  intros H1 H2 H3 H4. key_facts.
  match goal with
  | Ha : key_le ?a ?b, Hb : key_le ?b ?a |- _ =>
    pose proof (key_le_antisym _ _ Ha Hb); subst
  end.
  key_goal.
Qed.

Lemma extreme_unique_max v w tx ty :
  F32.eqb tx v = true → F32.leb tx w = true →
  F32.eqb ty w = true → F32.leb ty v = true → F32.eqb v w = true.
Proof.
  intros H1 H2 H3 H4. key_facts.
  match goal with
  | Ha : key_le ?a ?b, Hb : key_le ?b ?a |- _ =>
    pose proof (key_le_antisym _ _ Ha Hb); subst
  end.
  key_goal.
Qed.

Lemma min_temperature_unique v w xs ys :
  xs ≡ₚ ys → min_temperature v xs → min_temperature w ys → F32.eqb v w = true.
Proof.
  intros Hp [Hv (x & Hx & Ex)] [Hw (y & Hy & Ey)].
  apply (extreme_unique v w (temperature x) (temperature y)); auto.
  - apply Hw. now rewrite <- Hp.
  - apply Hv. now rewrite Hp.
Qed.

Lemma max_temperature_unique v w xs ys :
  xs ≡ₚ ys → max_temperature v xs → max_temperature w ys → F32.eqb v w = true.
Proof.
  intros Hp [Hv (x & Hx & Ex)] [Hw (y & Hy & Ey)].
  apply (extreme_unique_max v w (temperature x) (temperature y)); auto.
  - apply Hw. now rewrite <- Hp.
  - apply Hv. now rewrite Hp.
Qed.

(** The scan of a list of numbers ends on its lowest and highest
    temperature. *)
Lemma scan_extremes hd tl :
  (∀ n, n ∈ hd :: tl → F32.is_nan (temperature n.2) = false) →
  min_temperature (temperature (scan_min hd (hd :: tl)).2) (samples (hd :: tl))
  ∧ max_temperature (temperature (scan_max hd (hd :: tl)).2) (samples (hd :: tl)).
Proof.
  intros Hn. set (l := hd :: tl) in *.
  assert (∀ before, foldl (pick before) hd l ∈ l) as Hin.
  { intros before. unfold l. simpl. rewrite pick_same. apply foldl_pick_elem. }
  split; split.
  - intros y (n & Hy & <-)%samples_elem_of.
    apply (scan_min_lower l hd); auto. apply Hn. now left.
  - exists (scan_min hd l).2. split; [apply elem_of_samples, Hin|].
    apply eqb_refl, Hn, Hin.
  - intros y (n & Hy & <-)%samples_elem_of.
    apply (scan_max_upper l hd); auto. apply Hn. now left.
  - exists (scan_max hd l).2. split; [apply elem_of_samples, Hin|].
    apply eqb_refl, Hn, Hin.
Qed.

(** ** The order of the samples *)

Lemma attained_once_same v xs x y :
  attained_once v xs → x ∈ xs → y ∈ xs → attains v x → attains v y → x = y.
Proof.
  unfold attained_once. intros Honce Hx Hy Hvx Hvy.
  assert (x ∈ filter (attains v) xs) as Fx by (apply list_elem_of_filter; auto).
  assert (y ∈ filter (attains v) xs) as Fy by (apply list_elem_of_filter; auto).
  destruct (filter (attains v) xs) as [|z [|z' k]]; try discriminate.
  apply list_elem_of_singleton in Fx, Fy. congruence.
Qed.

(** C4, the counterexample. Two orders of the same sixteen samples give two
    reports. With the two samples at 15.0 degrees exchanged, the one at the
    head is left out in each order and the other is averaged: the mean
    humidity is 62.14 in one order and 57.86 in the other. With sixteen
    distinct temperatures and the list reversed, the same fourteen
    humidities add up, in binary32, to a mean just below 45.0 in one order
    and to 45.0 in the other, and the decision changes. *)
Lemma order_changes_report :
  (samples_of tie_draws_swapped ≡ₚ samples_of tie_draws
   ∧ processAndReportData 16 (cycle_of tie_draws) =
     Ok (cycle_report (F32.lit 15 0) (F32.lit 25 0)
           (samples_of (middle tie_draws)) (cycle_of tie_draws))
   ∧ processAndReportData 16 (cycle_of tie_draws_swapped) =
     Ok (cycle_report (F32.lit 15 0) (F32.lit 25 0)
           (samples_of (middle tie_draws_swapped)) (cycle_of tie_draws_swapped))
   ∧ mean (humidity <$> samples_of (middle tie_draws))
     = S754_finite false 16288505 (-18)
   ∧ mean (humidity <$> samples_of (middle tie_draws_swapped))
     = S754_finite false 15166903 (-18))
  ∧ (samples_of (reverse mean45_draws) ≡ₚ samples_of mean45_draws
     ∧ (∃ o, processAndReportData 16 (cycle_of mean45_draws) = Ok o
             ∧ PrintFloat (S754_finite false 11796479 (-18)) 2 ∈ serial o
             ∧ PrintStr LOW_HUMIDITY ∈ serial o)
     ∧ (∃ o, processAndReportData 16 (cycle_of (reverse mean45_draws)) = Ok o
             ∧ PrintFloat (F32.lit 45 0) 2 ∈ serial o
             ∧ PrintStr IDEAL_LEVEL ∈ serial o
             ∧ PrintStr LOW_HUMIDITY ∉ serial o)).
Proof.
  split; [split; [|split; [|split; [|split]]]|split; [|split]].
  - vm_compute. apply perm_swap.
  - vm_compute. reflexivity.
  - vm_compute. reflexivity.
  - vm_compute. reflexivity.
  - vm_compute. reflexivity.
  - unfold samples_of. rewrite fmap_reverse, reverse_involutive.
    symmetry. apply reverse_Permutation.
  - eexists. split; [vm_compute; reflexivity|].
    split; apply (bool_decide_unpack _); vm_compute; exact I.
  - eexists. split; [vm_compute; reflexivity|].
    split; [|split]; apply (bool_decide_unpack _); vm_compute; exact I.
Qed.

Lemma eqb_trans x y z :
  F32.eqb x y = true → F32.eqb y z = true → F32.eqb x z = true.
Proof. intros H1 H2. key_facts. key_goal. Qed.

(** Two predicates that hold of the same entries have the same first
    entry. *)
Lemma first_with_same {A} (P Q : A → Prop) l c c' :
  (∀ n, P n ↔ Q n) → first_with P l c → first_with Q l c' → c = c'.
Proof.
  intros HPQ (k1 & k2 & -> & Hc & H1) (k1' & k2' & E & Hc' & H1').
  revert k1' E H1'. induction k1 as [|x k1 IH]; intros k1' E H1'.
  - destruct k1' as [|x' k1']; simpl in E; injection E as Ec E; [exact Ec|].
    exfalso. apply (H1' c); [rewrite Ec; now left|now apply HPQ].
  - destruct k1' as [|x' k1']; simpl in E; injection E as Ex E.
    + exfalso. apply (H1 x); [now left|rewrite Ex; now apply HPQ].
    + apply (IH (λ n Hn, H1 n (list_elem_of_further _ _ _ Hn)) k1' E).
      intros n Hn. apply H1'. now right.
Qed.

(** Both pointers end on one node exactly when the lowest temperature is
    the highest. *)
Lemma same_node_iff l (m M : loc * SampleData) vmin vmax :
  first_with (λ n, attains vmin n.2) l m →
  first_with (λ n, attains vmax n.2) l M →
  m = M ↔ F32.eqb vmin vmax = true.
Proof.
  intros Fm FM. split.
  - intros E. destruct (first_with_elem _ _ _ Fm) as [_ Hm].
    destruct (first_with_elem _ _ _ FM) as [_ HM]. rewrite <- E in HM.
    unfold attains in Hm, HM. apply eqb_sym in Hm. now apply (eqb_trans _ _ _ Hm).
  - intros E.
    apply (first_with_same (λ n, attains vmin n.2) (λ n, attains vmax n.2) l m M);
      [|exact Fm|exact FM].
    intros n. unfold attains. split; intros H.
    + now apply (eqb_trans _ _ _ H).
    + apply eqb_sym in E. now apply (eqb_trans _ _ _ H).
Qed.

Lemma min_temperature_perm v xs ys :
  xs ≡ₚ ys → min_temperature v xs → min_temperature v ys.
Proof.
  intros Hp [Hb (x & Hx & Hv)]. split.
  - intros y Hy. apply Hb. now rewrite Hp.
  - exists x. split; [now rewrite <- Hp|exact Hv].
Qed.

Lemma max_temperature_perm v xs ys :
  xs ≡ₚ ys → max_temperature v xs → max_temperature v ys.
Proof.
  intros Hp [Hb (x & Hx & Hv)]. split.
  - intros y Hy. apply Hb. now rewrite Hp.
  - exists x. split; [now rewrite <- Hp|exact Hv].
Qed.

(** The samples of the list are those left out and those averaged. *)
Lemma samples_complement l (m M : loc * SampleData) :
  NoDup (addresses l) → m ∈ l → M ∈ l →
  samples l ≡ₚ (if decide (m = M) then [m.2] else [m.2; M.2])
               ++ samples (kept (Some m.1) (Some M.1) l).
Proof.
  intros Hnd Hm HM. unfold samples.
  etrans; [apply fmap_Permutation, (kept_complement l m M Hnd Hm HM)|].
  rewrite fmap_app. destruct (decide (m = M)); reflexivity.
Qed.

(** C4, amended. On sixteen samples whose temperatures are numbers, in any
    two orders, the processing step announces the same lowest and the same
    highest temperature and reports the same count, 15 when the two
    temperatures are equal and 14 otherwise, ties included. In each order
    the sample left out for an extreme is the first of the list that has
    that temperature, and the samples averaged are those of the list less
    the one or two left out; each average is the sum in list order divided
    by the count. When one sample only has the lowest temperature and one
    only the highest, the two samples left out are the same in both orders
    and so are, up to their order, the 14 samples averaged. *)
Theorem order_keeps_extremes_and_count (fuel : nat) (s1 s2 : State)
    (l1 l2 : list (loc * SampleData)) :
  is_list (heap s1) (dataListHead s1) l1 →
  is_list (heap s2) (dataListHead s2) l2 →
  sampleCount s1 = SAMPLES_PER_CYCLE → sampleCount s2 = SAMPLES_PER_CYCLE →
  length l1 = 16%nat → (16 ≤ fuel)%nat →
  samples l2 ≡ₚ samples l1 →
  (∀ x, x ∈ samples l1 → F32.is_nan (temperature x) = false) →
  ∃ m1 M1 m2 M2,
    let rem1 := samples (kept (Some m1.1) (Some M1.1) l1) in
    let rem2 := samples (kept (Some m2.1) (Some M2.1) l2) in
    (processAndReportData fuel s1 =
       Ok (cycle_report (temperature m1.2) (temperature M1.2) rem1 s1)
     ∧ processAndReportData fuel s2 =
       Ok (cycle_report (temperature m2.2) (temperature M2.2) rem2 s2))
    ∧ (min_temperature (temperature m1.2) (samples l1)
       ∧ max_temperature (temperature M1.2) (samples l1)
       ∧ F32.eqb (temperature m2.2) (temperature m1.2) = true
       ∧ F32.eqb (temperature M2.2) (temperature M1.2) = true)
    ∧ (first_with (λ n, attains (temperature m1.2) n.2) l1 m1
       ∧ first_with (λ n, attains (temperature M1.2) n.2) l1 M1
       ∧ first_with (λ n, attains (temperature m1.2) n.2) l2 m2
       ∧ first_with (λ n, attains (temperature M1.2) n.2) l2 M2)
    ∧ (length rem1
       = (if F32.eqb (temperature m1.2) (temperature M1.2) then 15 else 14)%nat
       ∧ length rem2 = length rem1)
    ∧ (samples l1 ≡ₚ (if decide (m1 = M1) then [m1.2] else [m1.2; M1.2]) ++ rem1
       ∧ samples l2 ≡ₚ (if decide (m2 = M2) then [m2.2] else [m2.2; M2.2]) ++ rem2)
    ∧ (∀ vmin vmax,
         min_temperature vmin (samples l1) → attained_once vmin (samples l1) →
         max_temperature vmax (samples l1) → attained_once vmax (samples l1) →
         attains vmin m1.2 ∧ attains vmax M1.2 ∧ m2.2 = m1.2 ∧ M2.2 = M1.2
         ∧ rem1 = strictly_between vmin vmax (samples l1)
         ∧ rem2 = strictly_between vmin vmax (samples l2)
         ∧ rem2 ≡ₚ rem1 ∧ length rem1 = 14%nat
         ∧ samples l1 ≡ₚ m1.2 :: M1.2 :: rem1).
Proof.
  intros Hl1 Hl2 Hc1 Hc2 Hlen Hfuel Hp Hnum.
  assert (length l2 = 16%nat) as Hlen2.
  { apply Permutation_length in Hp. unfold samples in Hp.
    rewrite !length_fmap in Hp. lia. }
  pose proof (is_list_NoDup _ _ _ Hl1) as Hnd1.
  pose proof (is_list_NoDup _ _ _ Hl2) as Hnd2.
  destruct l1 as [|hd1 tl1]; [discriminate|]. set (l1 := hd1 :: tl1) in *.
  destruct l2 as [|hd2 tl2]; [discriminate|]. set (l2 := hd2 :: tl2) in *.
  assert (∀ n, n ∈ hd1 :: tl1 → F32.is_nan (temperature n.2) = false) as Hn1
    by (intros n Hin; now apply Hnum, elem_of_samples).
  destruct (scan_extremes hd1 tl1 Hn1) as [Pm PM]. fold l1 in Pm, PM.
  set (m1 := scan_min hd1 l1) in *. set (M1 := scan_max hd1 l1) in *.
  set (m2 := scan_min hd2 l2). set (M2 := scan_max hd2 l2).
  set (tmin := temperature m1.2) in *. set (tmax := temperature M1.2) in *.
  symmetry in Hp.
  pose proof (min_temperature_perm _ _ _ Hp Pm) as Pm2.
  pose proof (max_temperature_perm _ _ _ Hp PM) as PM2.
  pose proof (scan_min_first hd1 tl1 tmin Pm) as F1m.
  pose proof (scan_max_first hd1 tl1 tmax PM) as F1M.
  pose proof (scan_min_first hd2 tl2 tmin Pm2) as F2m.
  pose proof (scan_max_first hd2 tl2 tmax PM2) as F2M.
  fold l1 in F1m, F1M. fold m1 in F1m. fold M1 in F1M.
  fold l2 in F2m, F2M. fold m2 in F2m. fold M2 in F2M.
  destruct (first_with_elem _ _ _ F1m) as [Hm1 Hv1].
  destruct (first_with_elem _ _ _ F1M) as [HM1 Hw1].
  destruct (first_with_elem _ _ _ F2m) as [Hm2 Hv2].
  destruct (first_with_elem _ _ _ F2M) as [HM2 Hw2].
  pose proof (length_kept l1 m1 M1 Hnd1 Hm1 HM1) as Hk1.
  pose proof (length_kept l2 m2 M2 Hnd2 Hm2 HM2) as Hk2.
  pose proof (same_node_iff l1 m1 M1 tmin tmax F1m F1M) as I1.
  pose proof (same_node_iff l2 m2 M2 tmin tmax F2m F2M) as I2.
  exists m1, M1, m2, M2. cbv zeta.
  split; [|split; [|split; [|split; [|split]]]].
  - split; apply processAndReportData_list; auto.
    + fold l1. lia.
    + fold l1. rewrite Hlen. vm_compute. discriminate.
    + fold l2. lia.
    + fold l2. rewrite Hlen2. vm_compute. discriminate.
  - split; [exact Pm|]. split; [exact PM|]. split; [exact Hv2|exact Hw2].
  - split; [exact F1m|]. split; [exact F1M|]. split; [exact F2m|exact F2M].
  - unfold samples. rewrite !length_fmap. rewrite Hlen in Hk1. rewrite Hlen2 in Hk2.
    fold tmin tmax.
    destruct (F32.eqb tmin tmax) eqn:E.
    + rewrite decide_True in Hk1 by now apply I1.
      rewrite decide_True in Hk2 by now apply I2. lia.
    + rewrite decide_False in Hk1 by (intros H; apply I1 in H; congruence).
      rewrite decide_False in Hk2 by (intros H; apply I2 in H; congruence). lia.
  - split; now apply samples_complement.
  - intros vmin vmax Hmin Honce Hmax Honce'.
    pose proof (min_temperature_perm _ _ _ Hp Hmin) as Hmin2.
    pose proof (max_temperature_perm _ _ _ Hp Hmax) as Hmax2.
    assert (attained_once vmin (samples l2)) as Honce2
      by (unfold attained_once; now rewrite <- Hp).
    assert (attained_once vmax (samples l2)) as Honce2'
      by (unfold attained_once; now rewrite <- Hp).
    destruct (unique_extremes_nodes hd1 tl1 vmin vmax)
      as (_ & _ & Hne1 & Ha1 & Hb1 & Hrem1); auto; [fold l1; lia|].
    destruct (unique_extremes_nodes hd2 tl2 vmin vmax)
      as (_ & _ & Hne2 & Ha2 & Hb2 & Hrem2); auto; [fold l2; lia|].
    fold l1 in Hne1, Ha1, Hb1, Hrem1. fold m1 M1 in Hne1, Ha1, Hb1, Hrem1.
    fold l2 in Hne2, Ha2, Hb2, Hrem2. fold m2 M2 in Hne2, Ha2, Hb2, Hrem2.
    assert (∀ x, x ∈ samples l2 → x ∈ samples l1) as Hin
      by (intros x; now rewrite Hp).
    split; [exact Ha1|]. split; [exact Hb1|]. split; [|split].
    + apply (attained_once_same vmin (samples l1)); auto.
      * now apply Hin, elem_of_samples.
      * now apply elem_of_samples.
    + apply (attained_once_same vmax (samples l1)); auto.
      * now apply Hin, elem_of_samples.
      * now apply elem_of_samples.
    + split; [exact Hrem1|]. split; [exact Hrem2|]. split; [|split].
      * rewrite Hrem1, Hrem2. unfold strictly_between. now rewrite Hp.
      * unfold samples. rewrite length_fmap. rewrite Hlen in Hk1.
        rewrite decide_False in Hk1 by assumption. lia.
      * pose proof (samples_complement l1 m1 M1 Hnd1 Hm1 HM1) as Hs.
        rewrite decide_False in Hs by assumption. exact Hs.
Qed.

Lemma order_keeps_extremes_and_count_witness :
  ∃ l1 l2 m1 M1 m2 M2,
    samples l2 ≡ₚ samples l1
    ∧ is_list (heap (cycle_of tie_draws)) (dataListHead (cycle_of tie_draws)) l1
    ∧ is_list (heap (cycle_of tie_draws_swapped))
        (dataListHead (cycle_of tie_draws_swapped)) l2
    ∧ processAndReportData 16 (cycle_of tie_draws) =
      Ok (cycle_report (temperature m1.2) (temperature M1.2)
            (samples (kept (Some m1.1) (Some M1.1) l1)) (cycle_of tie_draws))
    ∧ processAndReportData 16 (cycle_of tie_draws_swapped) =
      Ok (cycle_report (temperature m2.2) (temperature M2.2)
            (samples (kept (Some m2.1) (Some M2.1) l2)) (cycle_of tie_draws_swapped))
    ∧ F32.eqb (temperature m2.2) (temperature m1.2) = true
    ∧ F32.eqb (temperature M2.2) (temperature M1.2) = true
    ∧ first_with (λ n, attains (temperature m1.2) n.2) l1 m1
    ∧ first_with (λ n, attains (temperature m1.2) n.2) l2 m2
    ∧ length (samples (kept (Some m2.1) (Some M2.1) l2))
      = length (samples (kept (Some m1.1) (Some M1.1) l1)).
Proof.
  destruct (cycle_of_list tie_draws eq_refl) as (l1 & Hl1 & Hs1 & Hc1 & Hlen1).
  destruct (cycle_of_list tie_draws_swapped eq_refl) as (l2 & Hl2 & Hs2 & Hc2 & Hlen2).
  assert (samples l2 ≡ₚ samples l1) as Hp.
  { rewrite Hs1, Hs2. vm_compute. apply perm_swap. }
  destruct (order_keeps_extremes_and_count 16 _ _ l1 l2 Hl1 Hl2 Hc1 Hc2 Hlen1)
    as (m1 & M1 & m2 & M2 & [R1 R2] & (_ & _ & Em & EM) & (F1 & _ & F2 & _)
        & [_ Hn] & _).
  - lia.
  - exact Hp.
  - rewrite Hs1. intros y Hy. apply list_elem_of_In in Hy.
    vm_compute in Hy. repeat (destruct Hy as [<-|Hy]; [reflexivity|]). contradiction.
  - exists l1, l2, m1, M1, m2, M2.
    split; [exact Hp|]. split; [exact Hl1|]. split; [exact Hl2|].
    split; [exact R1|]. split; [exact R2|]. split; [exact Em|]. split; [exact EM|].
    split; [exact F1|]. split; [exact F2|exact Hn].
Defined.

(** ** Instances of the theorems on concrete cycles *)

Lemma same_extreme_leaves_fifteen_witness :
  ∃ l x n,
    is_list (heap (cycle_of flat_draws)) (dataListHead (cycle_of flat_draws)) l
    ∧ find_extremes 16 (heap (cycle_of flat_draws)) (dataListHead (cycle_of flat_draws))
        None (from_head (cycle_of flat_draws)) = Ok x
    ∧ minNode x = maxNode x
    ∧ length (samples (without n.1 l)) = 15%nat
    ∧ processAndReportData 16 (cycle_of flat_draws) =
      Ok (cycle_report (temperature n.2) (temperature n.2)
            (samples (without n.1 l)) (cycle_of flat_draws)).
Proof.
  destruct (cycle_of_list flat_draws eq_refl) as (l & Hl & Hs & Hc & Hlen).
  destruct (same_extreme_leaves_fifteen 16 (cycle_of flat_draws) l Hl Hc Hlen)
    as (x & Hx & Hsame & Hflat); [lia|].
  assert (minNode x = maxNode x) as E.
  { destruct Hflat as [-> ->]; [|reflexivity].
    assert (∀ y, y ∈ samples l → y = new_sample binary32 50 300 10) as Hy.
    { intros y. rewrite Hs. unfold samples_of, flat_draws.
      rewrite fmap_replicate, reverse_replicate.
      intros ->%elem_of_replicate_inv. reflexivity. }
    intros x1 x2 ->%Hy ->%Hy. reflexivity. }
  destruct (Hsame E) as (n & _ & _ & _ & Hn & Hr).
  exists l, x, n. auto.
Defined.

Lemma remaining_count_not_zero_witness :
  ∃ l x a mn mx,
    is_list (heap (cycle_of mean45_draws)) (dataListHead (cycle_of mean45_draws)) l
    ∧ find_extremes 16 (heap (cycle_of mean45_draws))
        (dataListHead (cycle_of mean45_draws)) None
        (from_head (cycle_of mean45_draws)) = Ok x
    ∧ sum_remaining 16 (heap (cycle_of mean45_draws))
        (dataListHead (cycle_of mean45_draws)) (minNode x) (maxNode x) zero_sums = Ok a
    ∧ (remainingCount a = 14 ∨ remainingCount a = 15)
    ∧ is_zero (F32.of_int (remainingCount a)) = false
    ∧ processAndReportData 16 (cycle_of mean45_draws) =
      Ok (printReport
            (F32.div (sumTemp a) (F32.of_int (remainingCount a)))
            (F32.div (sumHum a) (F32.of_int (remainingCount a)))
            (F32.div (sumSal a) (F32.of_int (remainingCount a)))
            (decideIrrigation
               (F32.div (sumTemp a) (F32.of_int (remainingCount a)))
               (F32.div (sumHum a) (F32.of_int (remainingCount a)))
               (F32.div (sumSal a) (F32.of_int (remainingCount a))))
            (remainingCount a)
            (removal_lines (temperature (data mn)) (temperature (data mx))
               (cycle_of mean45_draws))).
Proof.
  destruct (cycle_of_list mean45_draws eq_refl) as (l & Hl & Hs & Hc & Hlen).
  destruct (remaining_count_not_zero 16 (cycle_of mean45_draws) l Hl Hc Hlen)
    as (x & a & mn & mx & Hx & _ & _ & Ha & Hn & Hz & _ & Hp); [lia|].
  exists l, x, a, mn, mx.
  split; [exact Hl|]. split; [exact Hx|]. split; [exact Ha|].
  split; [exact Hn|]. split; [exact Hz|exact Hp].
Defined.

Lemma first_extreme_wins_witness :
  ∃ l x c,
    is_list (heap (cycle_of tie_draws)) (dataListHead (cycle_of tie_draws)) l
    ∧ find_extremes 16 (heap (cycle_of tie_draws)) (dataListHead (cycle_of tie_draws))
        None (from_head (cycle_of tie_draws)) = Ok x
    ∧ minNode x = Some c.1
    ∧ first_with (λ n, attains (F32.lit 15 0) n.2) l c.
Proof.
  destruct (cycle_of_list tie_draws eq_refl) as (l & Hl & Hs & Hc & Hlen).
  destruct (first_extreme_wins 16 (cycle_of tie_draws) l Hl)
    as (x & Hx & Hmin & _).
  - intros ->. discriminate.
  - lia.
  - destruct (Hmin (F32.lit 15 0)) as (c & Hc' & Hfirst).
    + rewrite Hs. apply min_temperature_check; vm_compute; reflexivity.
    + exists l, x, c. auto.
Defined.

Lemma processAndReportData_read_only_witness :
  ∃ l s',
    is_list (heap (cycle_of mean45_draws)) (dataListHead (cycle_of mean45_draws)) l
    ∧ processAndReportData 16 (cycle_of mean45_draws) = Ok s'
    ∧ same_globals (cycle_of mean45_draws) s'
    ∧ is_list (heap s') (dataListHead s') l.
Proof.
  destruct (cycle_of_list mean45_draws eq_refl) as (l & Hl & Hs & Hc & Hlen).
  destruct (processAndReportData_read_only 16 (cycle_of mean45_draws))
    as (Hframe & Hruns & _).
  destruct (Hruns l Hl) as (s' & E & Hl').
  - rewrite Hc, Hlen. reflexivity.
  - lia.
  - exists l, s'. repeat split; try assumption; now apply Hframe.
Defined.

(* ================================================================== *)
(** * Further properties *)

(** ** The timer of [loop] *)

Lemma elapsed_mod last e :
  0 ≤ e < 2 ^ 32 → wrap_ulong (wrap_ulong (last + e) - last) = e.
Proof.
  intros He. unfold wrap_ulong.
  rewrite Zminus_mod_idemp_l.
  replace (last + e - last) with e by lia.
  now apply Z.mod_small.
Qed.

(** X1. The test on the timer is that of the time elapsed, also when
    [millis()] has wrapped around since the last sample: [e] milliseconds
    after the last sample the test holds exactly when [e] is at least the
    interval, and before that a call of [loop] changes nothing. *)
Theorem timer_survives_rollover (d : float_format) (fuel : nat)
    (e now2 r1 r2 r3 : Z) (s : State) :
  0 ≤ e < 2 ^ 32 →
  sample_due (wrap_ulong (lastSampleTime s + e)) s = bool_decide (SAMPLE_INTERVAL ≤ e)
  ∧ (e < SAMPLE_INTERVAL →
     loop d fuel (wrap_ulong (lastSampleTime s + e)) now2 r1 r2 r3 s = Ok s).
Proof.
  intros He.
  assert (sample_due (wrap_ulong (lastSampleTime s + e)) s
          = bool_decide (SAMPLE_INTERVAL ≤ e)) as E.
  { unfold sample_due. now rewrite elapsed_mod. }
  split; [exact E|].
  intros Hlt. unfold loop. rewrite E.
  now rewrite bool_decide_eq_false_2 by lia.
Qed.

Lemma timer_survives_rollover_witness :
  sample_due (wrap_ulong (4294967000 + 10000))
    (set_lastSampleTime 4294967000 (setup initial_state)) = true
  ∧ wrap_ulong (4294967000 + 10000) = 9704.
Proof.
  split; [|reflexivity].
  pose proof (timer_survives_rollover binary32 0 10000 0 0 0 0
                (set_lastSampleTime 4294967000 (setup initial_state))) as [H _].
  - vm_compute. split; [discriminate|reflexivity].
  - exact H.
Defined.

(** ** [loop] does not fault *)

(** X2. From every state that the program is in between two calls of
    [loop], a call of [loop] with fuel for sixteen nodes returns: no null or
    dangling pointer is dereferenced and the loops over the list end. *)
Theorem loop_returns (d : float_format) (fuel : nat)
    (now1 now2 r1 r2 r3 : Z) (s : State) :
  at_loop d s → (16 ≤ fuel)%nat →
  ∃ s', loop d fuel now1 now2 r1 r2 r3 s = Ok s'.
Proof.
  intros Hs Hfuel. apply loop_runs; [|exact Hfuel].
  now apply (at_loop_cycle_open d).
Qed.

Lemma loop_returns_witness :
  ∃ s', loop binary32 16 10000 10000 7 13 5 (setup initial_state) = Ok s'.
Proof.
  apply (loop_returns binary32 16 10000 10000 7 13 5 (setup initial_state)).
  - apply at_loop_setup.
  - lia.
Defined.

(** ** The values of the simulated sensors *)

Lemma equal_by_cases (f g : Z → float) (n : nat) :
  forallb (λ k, bool_decide (f (Z.of_nat k) = g (Z.of_nat k))) (seq 0 n) = true →
  ∀ k, 0 ≤ k < Z.of_nat n → f k = g k.
Proof.
  intros H k Hk. rewrite forallb_forall in H.
  specialize (H (Z.to_nat k)). rewrite Z2Nat.id in H by lia.
  apply (bool_decide_eq_true _), H, in_seq. lia.
Qed.

(** X3. The three readings do not depend on the width of [double]: done in
    binary32 or in binary64 and converted to [float], the arithmetic of each
    sensor gives the same [float], whatever [rand()] returns. *)
Theorem readings_independent_of_double (r : Z) :
  0 ≤ r →
  readSimulatedTemperature binary32 r = readSimulatedTemperature binary64 r
  ∧ readSimulatedHumidity binary32 r = readSimulatedHumidity binary64 r
  ∧ readSimulatedSalinity binary32 r = readSimulatedSalinity binary64 r.
Proof.
  intros Hr. split; [|split].
  - replace (readSimulatedTemperature binary32 r)
      with (readSimulatedTemperature binary32 (Z.rem r 200))
      by (unfold readSimulatedTemperature; now rewrite rem_rem_pos).
    replace (readSimulatedTemperature binary64 r)
      with (readSimulatedTemperature binary64 (Z.rem r 200))
      by (unfold readSimulatedTemperature; now rewrite rem_rem_pos).
    apply (equal_by_cases _ _ 200); [vm_compute; reflexivity|].
    apply Z.rem_bound_pos; lia.
  - replace (readSimulatedHumidity binary32 r)
      with (readSimulatedHumidity binary32 (Z.rem r 600))
      by (unfold readSimulatedHumidity; now rewrite rem_rem_pos).
    replace (readSimulatedHumidity binary64 r)
      with (readSimulatedHumidity binary64 (Z.rem r 600))
      by (unfold readSimulatedHumidity; now rewrite rem_rem_pos).
    apply (equal_by_cases _ _ 600); [vm_compute; reflexivity|].
    apply Z.rem_bound_pos; lia.
  - replace (readSimulatedSalinity binary32 r)
      with (readSimulatedSalinity binary32 (Z.rem r 35))
      by (unfold readSimulatedSalinity; now rewrite rem_rem_pos).
    replace (readSimulatedSalinity binary64 r)
      with (readSimulatedSalinity binary64 (Z.rem r 35))
      by (unfold readSimulatedSalinity; now rewrite rem_rem_pos).
    apply (equal_by_cases _ _ 35); [vm_compute; reflexivity|].
    apply Z.rem_bound_pos; lia.
Qed.

Lemma readings_independent_of_double_witness :
  readSimulatedTemperature binary32 32767 = readSimulatedTemperature binary64 32767.
Proof.
  apply (readings_independent_of_double 32767). lia.
Defined.

Lemma holds_by_cases (P : Z → bool) (n : nat) :
  forallb (λ k, P (Z.of_nat k)) (seq 0 n) = true →
  ∀ k, 0 ≤ k < Z.of_nat n → P k = true.
Proof.
  intros H k Hk. rewrite forallb_forall in H.
  specialize (H (Z.to_nat k)). rewrite Z2Nat.id in H by lia.
  apply H, in_seq. lia.
Qed.

Lemma increasing_by_steps (f : Z → float) (n : nat) :
  forallb (λ k, F32.ltb (f (Z.of_nat k)) (f (Z.of_nat (S k)))) (seq 0 (n - 1)) = true →
  ∀ i j, 0 ≤ i → i < j → j < Z.of_nat n → F32.ltb (f i) (f j) = true.
Proof.
  intros H i j Hi Hij Hj. rewrite forallb_forall in H.
  assert (∀ k, 0 ≤ k → k + 1 < Z.of_nat n → F32.ltb (f k) (f (k + 1)) = true) as Hstep.
  { intros k Hk Hk'. specialize (H (Z.to_nat k)).
    rewrite Nat2Z.inj_succ, Z2Nat.id in H by lia.
    apply H, in_seq. lia. }
  replace j with (i + 1 + Z.of_nat (Z.to_nat (j - i - 1))) in * by lia.
  induction (Z.to_nat (j - i - 1)) as [|m IH].
  - rewrite Z.add_0_r. apply Hstep; lia.
  - apply (ltb_trans _ (f (i + 1 + Z.of_nat m))).
    + apply IH; lia.
    + replace (i + 1 + Z.of_nat (S m)) with (i + 1 + Z.of_nat m + 1) by lia.
      apply Hstep; lia.
Qed.

(** X4. Each reading grows strictly with the residue of [rand()]: two
    values of [rand()] give the same temperature only when they are equal
    modulo 200 (600 for the humidity, 35 for the salinity). The lowest
    readings are 15.0, 30.0 and 0.5 exactly, at residue 0, and every reading
    is strictly below 35.0, 90.0 and 4.0. *)
Theorem readings_increase_with_residue (d : float_format) (r r' : Z) :
  d = binary32 ∨ d = binary64 → 0 ≤ r → 0 ≤ r' →
  (Z.rem r 200 < Z.rem r' 200 →
   F32.ltb (readSimulatedTemperature d r) (readSimulatedTemperature d r') = true)
  ∧ (Z.rem r 600 < Z.rem r' 600 →
     F32.ltb (readSimulatedHumidity d r) (readSimulatedHumidity d r') = true)
  ∧ (Z.rem r 35 < Z.rem r' 35 →
     F32.ltb (readSimulatedSalinity d r) (readSimulatedSalinity d r') = true)
  ∧ (Z.rem r 200 = 0 → readSimulatedTemperature d r = F32.lit 15 0)
  ∧ (Z.rem r 600 = 0 → readSimulatedHumidity d r = F32.lit 30 0)
  ∧ (Z.rem r 35 = 0 → readSimulatedSalinity d r = F32.lit 1 (-1))
  ∧ F32.ltb (readSimulatedTemperature d r) (F32.lit 35 0) = true
  ∧ F32.ltb (readSimulatedHumidity d r) (F32.lit 90 0) = true
  ∧ F32.ltb (readSimulatedSalinity d r) (F32.lit 4 0) = true.
Proof.
  intros Hd Hr Hr'.
  assert (∀ n, 0 < n → 0 ≤ Z.rem r n < n ∧ 0 ≤ Z.rem r' n < n) as Hb
    by (intros n Hn; split; apply Z.rem_bound_pos; lia).
  assert (∀ q, 0 ≤ q → readSimulatedTemperature d q
                       = readSimulatedTemperature d (Z.rem q 200)) as Et
    by (intros q Hq; unfold readSimulatedTemperature; now rewrite rem_rem_pos).
  assert (∀ q, 0 ≤ q → readSimulatedHumidity d q
                       = readSimulatedHumidity d (Z.rem q 600)) as Eh
    by (intros q Hq; unfold readSimulatedHumidity; now rewrite rem_rem_pos).
  assert (∀ q, 0 ≤ q → readSimulatedSalinity d q
                       = readSimulatedSalinity d (Z.rem q 35)) as Es
    by (intros q Hq; unfold readSimulatedSalinity; now rewrite rem_rem_pos).
  split; [|split; [|split; [|split; [|split; [|split; [|split; [|split]]]]]]].
  - intros Hlt. rewrite (Et r), (Et r') by assumption.
    apply (increasing_by_steps _ 200); try apply Hb; try lia.
    destruct Hd as [-> | ->]; vm_compute; reflexivity.
  - intros Hlt. rewrite (Eh r), (Eh r') by assumption.
    apply (increasing_by_steps _ 600); try apply Hb; try lia.
    destruct Hd as [-> | ->]; vm_compute; reflexivity.
  - intros Hlt. rewrite (Es r), (Es r') by assumption.
    apply (increasing_by_steps _ 35); try apply Hb; try lia.
    destruct Hd as [-> | ->]; vm_compute; reflexivity.
  - intros E. rewrite (Et r), E by assumption.
    destruct Hd as [-> | ->]; vm_compute; reflexivity.
  - intros E. rewrite (Eh r), E by assumption.
    destruct Hd as [-> | ->]; vm_compute; reflexivity.
  - intros E. rewrite (Es r), E by assumption.
    destruct Hd as [-> | ->]; vm_compute; reflexivity.
  - rewrite (Et r) by assumption.
    apply (holds_by_cases (λ k, F32.ltb (readSimulatedTemperature d k) (F32.lit 35 0)) 200);
      [|apply Hb; lia].
    destruct Hd as [-> | ->]; vm_compute; reflexivity.
  - rewrite (Eh r) by assumption.
    apply (holds_by_cases (λ k, F32.ltb (readSimulatedHumidity d k) (F32.lit 90 0)) 600);
      [|apply Hb; lia].
    destruct Hd as [-> | ->]; vm_compute; reflexivity.
  - rewrite (Es r) by assumption.
    apply (holds_by_cases (λ k, F32.ltb (readSimulatedSalinity d k) (F32.lit 4 0)) 35);
      [|apply Hb; lia].
    destruct Hd as [-> | ->]; vm_compute; reflexivity.
Qed.

Lemma readings_increase_with_residue_witness :
  F32.ltb (readSimulatedTemperature binary32 399) (readSimulatedTemperature binary32 200) = false
  ∧ F32.ltb (readSimulatedTemperature binary32 200) (readSimulatedTemperature binary32 399) = true
  ∧ readSimulatedTemperature binary32 200 = F32.lit 15 0.
Proof.
  destruct (readings_increase_with_residue binary32 200 399 (or_introl eq_refl))
    as (Ht & _ & _ & E & _); [lia|lia|].
  split; [reflexivity|]. split; [apply Ht; reflexivity|apply E; reflexivity].
Defined.

(** ** When the decision is to irrigate *)

Lemma labels_distinct :
  HIGH_SALINITY ≠ LOW_HUMIDITY ∧ HIGH_SALINITY ≠ HIGH_HUMIDITY
  ∧ HIGH_SALINITY ≠ IDEAL_LEVEL ∧ LOW_HUMIDITY ≠ HIGH_HUMIDITY
  ∧ LOW_HUMIDITY ≠ IDEAL_LEVEL ∧ HIGH_HUMIDITY ≠ IDEAL_LEVEL.
Proof. repeat split; discriminate. Qed.

(** X5. The decision is to irrigate exactly when the humidity is below 45.0
    and the salinity is not above 3.0; in particular a salinity that is not
    a number does not stop the irrigation, and a humidity that is not a
    number gives the ideal-level label, whatever the salinity. *)
Theorem irrigates_exactly_when (temp hum sal : float) :
  (decideIrrigation temp hum sal = LOW_HUMIDITY
   ↔ F32.ltb hum (F32.lit 45 0) = true ∧ F32.ltb (F32.lit 3 0) sal = false)
  ∧ (decideIrrigation temp hum sal = HIGH_SALINITY
     ↔ F32.ltb hum (F32.lit 45 0) = true ∧ F32.ltb (F32.lit 3 0) sal = true)
  ∧ (decideIrrigation temp hum sal = HIGH_HUMIDITY
     ↔ F32.ltb (F32.lit 80 0) hum = true)
  ∧ (F32.ltb hum (F32.lit 45 0) = true → F32.is_nan sal = true →
     decideIrrigation temp hum sal = LOW_HUMIDITY)
  ∧ (F32.is_nan hum = true → decideIrrigation temp hum sal = IDEAL_LEVEL).
Proof.
  destruct labels_distinct as (D1 & D2 & D3 & D4 & D5 & D6).
  assert (F32.ltb hum (F32.lit 45 0) = true → F32.ltb (F32.lit 80 0) hum = false)
    as Hex.
  { intros E1. destruct (F32.ltb (F32.lit 80 0) hum) eqn:E2; [exfalso|reflexivity].
    key_facts. key_literals. key_unfold. lia. }
  unfold decideIrrigation.
  split; [|split; [|split; [|split]]].
  - destruct (F32.ltb hum (F32.lit 45 0)), (F32.ltb (F32.lit 3 0) sal),
      (F32.ltb (F32.lit 80 0) hum);
      split; intros H; try destruct H; congruence || auto.
  - destruct (F32.ltb hum (F32.lit 45 0)), (F32.ltb (F32.lit 3 0) sal),
      (F32.ltb (F32.lit 80 0) hum);
      split; intros H; try destruct H; congruence || auto.
  - destruct (F32.ltb hum (F32.lit 45 0)), (F32.ltb (F32.lit 3 0) sal),
      (F32.ltb (F32.lit 80 0) hum);
      split; intros H; try specialize (Hex eq_refl); congruence || auto.
  - intros -> Hnan. destruct sal; try discriminate. reflexivity.
  - intros Hnan. destruct hum; try discriminate. reflexivity.
Qed.

Lemma irrigates_exactly_when_witness :
  decideIrrigation (F32.lit 25 0) (F32.lit 40 0) S754_nan = LOW_HUMIDITY.
Proof.
  apply (proj1 (proj2 (proj2 (proj2
    (irrigates_exactly_when (F32.lit 25 0) (F32.lit 40 0) S754_nan)))));
    reflexivity.
Defined.

(** ** The processing step out of its normal use *)

(** X6. With the counter at 16 and an empty list the processing step
    dereferences the null pointer that [minNode] still is after the first
    loop; the program is never in such a state: whenever the counter is 16
    the list has a head. *)
Theorem null_dereference_unreachable :
  (∀ fuel s, sampleCount s = SAMPLES_PER_CYCLE → dataListHead s = None →
             processAndReportData fuel s = Fault)
  ∧ (∀ d s, reachable d s → sampleCount s = SAMPLES_PER_CYCLE →
            ∃ a n, dataListHead s = Some a ∧ heap s !! a = Some n).
Proof.
  split.
  - intros fuel s Hc Hp. unfold processAndReportData, from_head.
    rewrite bool_decide_eq_false_2 by (intros H; now apply H).
    rewrite Hp. destruct fuel; reflexivity.
  - intros d s Hs Hc.
    destruct (reachable_counter d s Hs) as [(l & Hl & Hn) _].
    destruct l as [|[a x] l].
    + rewrite Hc in Hn. discriminate.
    + destruct Hl as (-> & nx & Ha & _). eauto.
Qed.

Lemma null_dereference_unreachable_witness :
  processAndReportData 16
    {| heap := ∅; dataListHead := None; sampleCount := 16;
       lastSampleTime := 0; serial := [] |} = Fault.
Proof.
  apply (proj1 null_dereference_unreachable); reflexivity.
Defined.

(** X7. On a list of a single node, with the counter at 16, that node is
    both extremes and nothing is left to average: the step reports a count
    of 0, the three averages are 0.0 / 0.0, not a number, and the decision
    printed is the ideal-level label. *)
Theorem nothing_left_to_average (fuel : nat) (s : State) (a : loc) (x : SampleData) :
  is_list (heap s) (dataListHead s) [(a, x)] →
  sampleCount s = SAMPLES_PER_CYCLE → (1 ≤ fuel)%nat →
  processAndReportData fuel s =
  Ok (printReport S754_nan S754_nan S754_nan IDEAL_LEVEL 0
        (removal_lines (temperature x) (temperature x) s)).
Proof.
  intros Hl Hc Hfuel.
  rewrite (processAndReportData_list fuel s (a, x) []); auto.
  - unfold scan_min, scan_max. simpl foldl. rewrite !pick_same.
    unfold kept. rewrite filter_cons_False by (intros [H _]; now apply H).
    reflexivity.
  - vm_compute. discriminate.
Qed.

Lemma nothing_left_to_average_witness :
  processAndReportData 1 (single_node 1 (new_sample binary32 0 0 0) 16) =
  Ok (printReport S754_nan S754_nan S754_nan IDEAL_LEVEL 0
        (removal_lines (F32.lit 15 0) (F32.lit 15 0)
           (single_node 1 (new_sample binary32 0 0 0) 16))).
Proof.
  apply (nothing_left_to_average 1 (single_node 1 (new_sample binary32 0 0 0) 16)
           1 (new_sample binary32 0 0 0)).
  - simpl. split; [reflexivity|]. exists None. split; reflexivity.
  - reflexivity.
  - lia.
Defined.

(** ** No node is lost *)

Lemma clearList_heap fuel s s' l :
  is_list (heap s) (dataListHead s) l → clearList fuel s = Ok s' →
  ∀ a, heap s' !! a = if decide (a ∈ addresses l) then None else heap s !! a.
Proof.
  intros Hl E.
  destruct (decide (length l ≤ fuel)%nat) as [Hfuel|Hfuel].
  - destruct (clearList_list fuel s l Hl Hfuel) as (s'' & E' & _ & _ & _ & _ & Hh).
    rewrite E in E'. injection E' as <-. exact Hh.
  - exfalso. revert E. unfold clearList.
    rewrite (delete_nodes_short _ _ _ _ Hl); [discriminate|lia].
Qed.

Lemma clearList_head fuel s s' : clearList fuel s = Ok s' → dataListHead s' = None.
Proof.
  unfold clearList. destruct (delete_nodes _ _ _) as [h| |]; try discriminate.
  now intros [= <-].
Qed.

Lemma heap_is_list_same s s' :
  same_globals s s' → heap_is_list s → heap_is_list s'.
Proof.
  intros (Hh & Hp & _) (l & Hl & Hd). exists l. rewrite Hh, Hp. auto.
Qed.

Lemma heap_is_list_collect d now2 r1 r2 r3 s :
  heap_is_list s → heap_is_list (loop_collect d now2 r1 r2 r3 s).
Proof.
  intros (l & Hl & Hd). unfold loop_collect.
  set (s0 := set_lastSampleTime now2 s).
  exists ((new_node (heap s0), new_sample d r1 r2 r3) :: l). split.
  - now apply (collectSample_list d r1 r2 r3 s0).
  - intros a. simpl. rewrite dom_insert_L, elem_of_union, elem_of_singleton.
    rewrite elem_of_cons. intros [->|Ha]; [now left|right; now apply Hd].
Qed.

Lemma heap_is_list_clear fuel s s' :
  heap_is_list s → clearList fuel s = Ok s' → heap s' = ∅.
Proof.
  intros (l & Hl & Hd) E. apply map_eq. intros a.
  rewrite (clearList_heap fuel s s' l Hl E), lookup_empty.
  destruct (decide (a ∈ addresses l)) as [Ha|Ha]; [reflexivity|].
  apply not_elem_of_dom. intros Hin. apply Ha, Hd, Hin.
Qed.

Lemma heap_is_list_empty s : heap s = ∅ → dataListHead s = None → heap_is_list s.
Proof.
  intros Hh Hp. exists []. rewrite Hp, Hh. split; [reflexivity|].
  intros a Ha. rewrite dom_empty_L in Ha. now apply not_elem_of_empty in Ha.
Qed.

Lemma loop_heap_is_list d fuel now1 now2 r1 r2 r3 s s' :
  heap_is_list s → loop d fuel now1 now2 r1 r2 r3 s = Ok s' → heap_is_list s'.
Proof.
  intros Hs. unfold loop.
  destruct (sample_due now1 s); [|intros [= <-]; exact Hs].
  pose proof (heap_is_list_collect d now2 r1 r2 r3 s Hs) as Hc.
  destruct (loop_announce _) as [s1| |] eqn:E1; try discriminate.
  apply loop_announce_frame in E1.
  cbn [mbind result_bind].
  pose proof (heap_is_list_same _ _ E1 Hc) as Hs1.
  case_bool_decide; [|intros [= <-]; exact Hs1].
  destruct (processAndReportData _ _) as [s2| |] eqn:E2; try discriminate.
  cbn [mbind result_bind].
  destruct (clearList fuel s2) as [s3| |] eqn:E3; try discriminate.
  cbn [mbind result_bind]. intros [= <-].
  apply processAndReportData_frame in E2.
  assert (heap_is_list s2) as Hs2
    by (eapply heap_is_list_same; [exact E2|exact Hs1]).
  apply heap_is_list_empty.
  - exact (heap_is_list_clear fuel s2 s3 Hs2 E3).
  - exact (clearList_head fuel s2 s3 E3).
Qed.

Lemma at_loop_heap_is_list d s : at_loop d s → heap_is_list s.
Proof.
  induction 1 as [|fuel now1 now2 r1 r2 r3 s s' _ IH _ _ _ Hloop].
  - now apply heap_is_list_empty.
  - exact (loop_heap_is_list d fuel now1 now2 r1 r2 r3 s s' IH Hloop).
Qed.

Lemma reachable_heap_is_list d s : reachable d s → heap_is_list s.
Proof.
  intros H. destruct H as
    [ | s Hs
      | now1 now2 r1 r2 r3 s Hs _ _ _ _
      | fuel now1 now2 r1 r2 r3 s s1 s2 Hs _ _ _ _ E1 Hfull E2
      | fuel fuel' now1 now2 r1 r2 r3 s s1 s2 s3 Hs _ _ _ _ E1 Hfull E2 E3 ].
  - now apply heap_is_list_empty.
  - now apply (at_loop_heap_is_list d).
  - now apply heap_is_list_collect, (at_loop_heap_is_list d).
  - apply loop_announce_frame in E1. apply processAndReportData_frame in E2.
    eapply heap_is_list_same; [exact E2|].
    eapply (heap_is_list_same (loop_collect d now2 r1 r2 r3 s));
      [eapply same_globals_trans; [exact E1|repeat split]|].
    now apply heap_is_list_collect, (at_loop_heap_is_list d).
  - apply loop_announce_frame in E1. apply processAndReportData_frame in E2.
    apply heap_is_list_empty; [|exact (clearList_head _ _ _ E3)].
    apply (heap_is_list_clear fuel' s2 s3); [|exact E3].
    eapply heap_is_list_same; [exact E2|].
    eapply (heap_is_list_same (loop_collect d now2 r1 r2 r3 s));
      [eapply same_globals_trans; [exact E1|repeat split]|].
    now apply heap_is_list_collect, (at_loop_heap_is_list d).
Qed.

Lemma heap_is_list_size s l :
  is_list (heap s) (dataListHead s) l →
  (∀ a, a ∈ dom (heap s) → a ∈ addresses l) → size (heap s) = length l.
Proof.
  intros Hl Hd.
  assert (dom (heap s) = list_to_set (addresses l)) as E.
  { apply set_eq. intros a. rewrite elem_of_list_to_set. split; [apply Hd|].
    intros ([b x] & -> & Hin)%list_elem_of_fmap.
    destruct (is_list_lookup _ _ _ _ _ Hl Hin) as (nx & Ha).
    apply elem_of_dom. eauto. }
  rewrite <- size_dom, E, size_list_to_set by (eapply is_list_NoDup; eauto).
  unfold addresses. now rewrite length_fmap.
Qed.

(** X8. No node is lost: at every point of the program the heap holds the
    nodes of the list and no other, as many as the counter says and never
    more than sixteen; once [clearList] has run, and whenever the list is
    empty, the heap is empty. *)
Theorem no_node_is_lost (d : float_format) (s : State) :
  reachable d s →
  heap_is_list s
  ∧ Z.of_nat (size (heap s)) = sampleCount s
  ∧ (size (heap s) ≤ 16)%nat
  ∧ (dataListHead s = None → heap s = ∅).
Proof.
  intros Hs.
  pose proof (reachable_heap_is_list d s Hs) as Hh.
  destruct (reachable_counter d s Hs) as [(l & Hl & Hn) Hc].
  destruct Hh as (l' & Hl' & Hd).
  rewrite (is_list_functional _ _ _ _ Hl' Hl) in Hd.
  pose proof (heap_is_list_size s l Hl Hd) as Hsize.
  split; [exists l; auto|]. split; [lia|].
  split; [unfold SAMPLES_PER_CYCLE in Hc; lia|].
  intros Hp. destruct l as [|[a x] l].
  - apply map_size_empty_inv. exact Hsize.
  - destruct Hl as (E & _). congruence.
Qed.

Lemma no_node_is_lost_witness :
  size (heap (loop_collect binary32 10000 7 13 5 (setup initial_state))) = 1%nat.
Proof.
  assert (reachable binary32 (loop_collect binary32 10000 7 13 5 (setup initial_state))) as H.
  { apply (reach_collected binary32 10000); try lia.
    - apply at_loop_setup.
    - reflexivity. }
  destruct (no_node_is_lost binary32 _ H) as (_ & Hsize & _).
  change (sampleCount _) with 1 in Hsize. lia.
Defined.

(** ** What a call of [loop] does *)

Lemma loop_announce_status d now2 r1 r2 r3 s :
  loop_announce (loop_collect d now2 r1 r2 r3 s)
  = Ok (status_line (readSimulatedTemperature d r1) (loop_collect d now2 r1 r2 r3 s)).
Proof.
  unfold loop_announce, status_line. rewrite !heap_print.
  set (s1 := loop_collect d now2 r1 r2 r3 s).
  change (dataListHead (print _ (print _ (print _ s1)))) with (dataListHead s1).
  assert (deref (heap s1) (dataListHead s1)
          = Ok {| data := new_sample d r1 r2 r3; next := dataListHead s |}) as ->.
  { apply deref_Some. unfold s1, loop_collect. simpl. apply lookup_insert_eq. }
  reflexivity.
Qed.

Lemma loop_collecting d fuel now1 now2 r1 r2 r3 s :
  cycle_open s → sample_due now1 s = true → sampleCount s ≠ 15 →
  loop d fuel now1 now2 r1 r2 r3 s
  = Ok (status_line (readSimulatedTemperature d r1) (loop_collect d now2 r1 r2 r3 s)).
Proof.
  intros Hs Hdue Hc.
  destruct (loop_collect_counter d now2 r1 r2 r3 s Hs) as (_ & Hn & _).
  unfold loop. rewrite Hdue, loop_announce_status. cbn [mbind result_bind].
  rewrite bool_decide_eq_false_2; [reflexivity|].
  change (sampleCount (status_line _ ?t)) with (sampleCount t).
  rewrite Hn. unfold SAMPLES_PER_CYCLE. lia.
Qed.

(** X9. A call of [loop] that is due and does not complete the cycle
    collects one sample and prints its status line, with the new value of
    the counter and the temperature just read; it returns for any fuel, the
    new node is the head of the list and the timestamp is the second
    reading of [millis()]. *)
Theorem tick_collects (d : float_format) (fuel : nat)
    (now1 now2 r1 r2 r3 : Z) (s : State) :
  at_loop d s → sample_due now1 s = true → sampleCount s ≠ 15 →
  ∃ s', loop d fuel now1 now2 r1 r2 r3 s = Ok s'
    ∧ s' = status_line (readSimulatedTemperature d r1) (loop_collect d now2 r1 r2 r3 s)
    ∧ sampleCount s' = sampleCount s + 1
    ∧ lastSampleTime s' = now2
    ∧ (∃ a, dataListHead s' = Some a
            ∧ heap s' !! a = Some {| data := new_sample d r1 r2 r3;
                                     next := dataListHead s |})
    ∧ serial s' = serial s ++
        [PrintStr "Amostra "; PrintInt (sampleCount s + 1);
         PrintStr " coletada. (Temp: ";
         PrintFloat (readSimulatedTemperature d r1) 2; PrintStr " C)"; NewLine].
Proof.
  intros Hs Hdue Hc. apply at_loop_cycle_open in Hs.
  destruct (loop_collect_counter d now2 r1 r2 r3 s Hs) as (_ & Hn & _).
  eexists. split; [|split; [reflexivity|]].
  - now apply loop_collecting.
  - change (sampleCount (status_line _ ?t)) with (sampleCount t).
    split; [exact Hn|]. split; [reflexivity|]. split.
    + eexists. split; [reflexivity|]. apply lookup_insert_eq.
    + unfold status_line, println, print_float, print. cbn [serial sampleCount].
      change (sampleCount (loop_collect d now2 r1 r2 r3 s))
        with (wrap_int (sampleCount s + 1)).
      change (wrap_int (sampleCount s + 1))
        with (sampleCount (loop_collect d now2 r1 r2 r3 s)).
      rewrite Hn. unfold loop_collect. cbn [serial collectSample set_lastSampleTime].
      rewrite <- !app_assoc. reflexivity.
Qed.

Lemma tick_collects_witness :
  ∃ s', loop binary32 0 10000 10001 7 13 5 (setup initial_state) = Ok s'
        ∧ sampleCount s' = 1 ∧ lastSampleTime s' = 10001.
Proof.
  destruct (tick_collects binary32 0 10000 10001 7 13 5 (setup initial_state))
    as (s' & E & _ & Hc & Ht & _).
  - apply at_loop_setup.
  - reflexivity.
  - discriminate.
  - exists s'. auto.
Defined.

Lemma cycle_report_globals t tmin tmax rem s1 :
  same_globals s1
    (cycle_report tmin tmax rem
       (println cycle_banner (status_line t s1))).
Proof. repeat split. Qed.

(** The sixteenth sample of a cycle, on a list that the counter matches in a
    heap that holds nothing else. *)
Lemma loop_completing (d : float_format) (fuel : nat)
    (now1 now2 r1 r2 r3 : Z) (s : State) :
  cycle_open s → heap_is_list s → sample_due now1 s = true → sampleCount s = 15 →
  (16 ≤ fuel)%nat →
  let s1 := loop_collect d now2 r1 r2 r3 s in
  let s2 := println cycle_banner (status_line (readSimulatedTemperature d r1) s1) in
  ∃ a tl,
    let l := (a, new_sample d r1 r2 r3) :: tl in
    let m := scan_min (a, new_sample d r1 r2 r3) l in
    let M := scan_max (a, new_sample d r1 r2 r3) l in
    is_list (heap s1) (dataListHead s1) l
    ∧ is_list (heap s) (dataListHead s) tl
    ∧ length l = 16%nat
    ∧ loop d fuel now1 now2 r1 r2 r3 s =
      Ok (println cleared_banner
            (cleared now2
               (serial (cycle_report (temperature m.2) (temperature M.2)
                          (samples (kept (Some m.1) (Some M.1) l)) s2)))).
Proof.
  intros Hs Hheap Hdue Hc Hfuel s1 s2.
  destruct (loop_collect_counter d now2 r1 r2 r3 s Hs) as (_ & Hn & _).
  destruct Hs as [(tl & Htl & Hlen) _].
  set (a := new_node (heap (set_lastSampleTime now2 s))).
  exists a, tl. cbv zeta.
  set (l := (a, new_sample d r1 r2 r3) :: tl).
  assert (is_list (heap s1) (dataListHead s1) l) as Hl
    by (apply (collectSample_list d r1 r2 r3 (set_lastSampleTime now2 s)); exact Htl).
  assert (length l = 16%nat) as Hl16 by (unfold l; simpl; lia).
  split; [exact Hl|]. split; [exact Htl|]. split; [exact Hl16|].
  assert (sampleCount s1 = SAMPLES_PER_CYCLE) as Hn16
    by (unfold s1; rewrite Hn, Hc; reflexivity).
  unfold loop. rewrite Hdue, loop_announce_status. cbn [mbind result_bind].
  fold s1.
  rewrite bool_decide_eq_true_2
    by (change (sampleCount (status_line _ ?t)) with (sampleCount t); exact Hn16).
  fold s2.
  rewrite (processAndReportData_list fuel s2 (a, new_sample d r1 r2 r3) tl);
    [|exact Hl|exact Hn16|fold l; lia|fold l; rewrite Hl16; vm_compute; discriminate].
  fold l. cbn [mbind result_bind].
  set (s3 := cycle_report _ _ _ s2).
  assert (same_globals s1 s3) as G3 by apply cycle_report_globals.
  assert (heap_is_list s3) as H3.
  { apply (heap_is_list_same s1 s3 G3). now apply heap_is_list_collect. }
  destruct (clearList_list fuel s3 l) as (s4 & E4 & Hp & Hc4 & Ht & Hser & _);
    [destruct G3 as (-> & -> & _); exact Hl|lia|].
  pose proof (heap_is_list_clear fuel s3 s4 H3 E4) as Hh.
  rewrite E4. cbn [mbind result_bind]. do 2 f_equal.
  destruct G3 as (_ & _ & _ & Gt). rewrite Gt in Ht.
  clearbody s3. clear -Hh Hp Hc4 Ht Hser.
  destruct s4 as [h4 p4 c4 t4 log4]. cbn [heap dataListHead sampleCount lastSampleTime serial] in *.
  subst. reflexivity.
Qed.

(** X10. The call of [loop] that collects the sixteenth sample prints the
    status line and the banner, then the report of the processing step over
    the sixteen nodes, the new one at the head, then frees them all: it
    returns the state with an empty heap, no list and the counter at 0, the
    log ending with the report and the banner of the new cycle. *)
Theorem tick_completes_cycle (d : float_format) (fuel : nat)
    (now1 now2 r1 r2 r3 : Z) (s : State) :
  at_loop d s → sample_due now1 s = true → sampleCount s = 15 →
  (16 ≤ fuel)%nat →
  let s1 := loop_collect d now2 r1 r2 r3 s in
  let s2 := println cycle_banner (status_line (readSimulatedTemperature d r1) s1) in
  ∃ a tl,
    let l := (a, new_sample d r1 r2 r3) :: tl in
    let m := scan_min (a, new_sample d r1 r2 r3) l in
    let M := scan_max (a, new_sample d r1 r2 r3) l in
    is_list (heap s1) (dataListHead s1) l
    ∧ is_list (heap s) (dataListHead s) tl
    ∧ length l = 16%nat
    ∧ loop d fuel now1 now2 r1 r2 r3 s =
      Ok (println cleared_banner
            (cleared now2
               (serial (cycle_report (temperature m.2) (temperature M.2)
                          (samples (kept (Some m.1) (Some M.1) l)) s2)))).
Proof.
  intros Hs Hdue Hc Hfuel.
  apply loop_completing; auto.
  - now apply (at_loop_cycle_open d).
  - now apply (at_loop_heap_is_list d).
Qed.

(** ** A whole cycle *)

Lemma status_line_globals t s : same_globals s (status_line t s).
Proof. repeat split. Qed.

Lemma status_line_serial t s : ∃ out, serial (status_line t s) = serial s ++ out.
Proof.
  unfold status_line, println, print_float, print. cbn [serial].
  rewrite <- !app_assoc. eauto.
Qed.

(** Calls that are due and leave the cycle open collect one sample each. *)
Lemma run_loop_collecting d fuel ticks : ∀ s l,
  cycle_open s → heap_is_list s →
  is_list (heap s) (dataListHead s) l →
  (length l + length ticks ≤ 15)%nat →
  due_in_turn (lastSampleTime s) ticks →
  ∃ s' l',
    run_loop d fuel ticks s = Ok s'
    ∧ cycle_open s' ∧ heap_is_list s'
    ∧ is_list (heap s') (dataListHead s') l'
    ∧ samples l' = reverse (sample_of_tick d <$> ticks) ++ samples l
    ∧ length l' = (length l + length ticks)%nat
    ∧ lastSampleTime s' = last_time (lastSampleTime s) ticks
    ∧ ∃ out, serial s' = serial s ++ out.
Proof.
  induction ticks as [|t ticks IH]; intros s l Hs Hh Hl Hlen Hdue.
  - exists s, l. simpl. rewrite Nat.add_0_r.
    split; [reflexivity|]. split; [exact Hs|]. split; [exact Hh|].
    split; [exact Hl|]. split; [reflexivity|]. split; [reflexivity|].
    split; [reflexivity|]. exists []. symmetry. apply app_nil_r.
  - destruct Hdue as [Hdue Hrest]. simpl in Hlen.
    pose proof Hs as [(l0 & Hl0 & Hn0) Hc0].
    rewrite (is_list_functional _ _ _ _ Hl0 Hl) in Hn0.
    set (s1 := loop_collect d (now2 t) (draw1 t) (draw2 t) (draw3 t) s).
    set (s2 := status_line (readSimulatedTemperature d (draw1 t)) s1).
    assert (loop d fuel (now1 t) (now2 t) (draw1 t) (draw2 t) (draw3 t) s = Ok s2)
      as Eloop.
    { apply loop_collecting; auto.
      - unfold sample_due. now apply bool_decide_eq_true_2.
      - lia. }
    destruct (loop_collect_counter d (now2 t) (draw1 t) (draw2 t) (draw3 t) s Hs)
      as (Hm1 & Hn1 & _).
    pose proof (status_line_globals (readSimulatedTemperature d (draw1 t)) s1) as G.
    fold s1 in Hm1, Hn1. fold s2 in G.
    set (l1 := (new_node (heap (set_lastSampleTime (now2 t) s)), sample_of_tick d t) :: l).
    assert (is_list (heap s2) (dataListHead s2) l1) as Hl2.
    { destruct G as (-> & -> & _).
      apply (collectSample_list d (draw1 t) (draw2 t) (draw3 t)
               (set_lastSampleTime (now2 t) s)). exact Hl. }
    destruct (IH s2 l1) as (s' & l' & E & Hs' & Hh' & Hl' & Hsam & Hlen' & Ht & out & Hout).
    + split; [now apply (counter_matches_same s1 s2 G)|].
      destruct G as (_ & _ & -> & _). rewrite Hn1. unfold SAMPLES_PER_CYCLE. lia.
    + apply (heap_is_list_same s1 s2 G). now apply heap_is_list_collect.
    + exact Hl2.
    + unfold l1. simpl. lia.
    + exact Hrest.
    + exists s', l'. cbn [run_loop]. rewrite Eloop. cbn [mbind result_bind].
      split; [exact E|]. split; [exact Hs'|]. split; [exact Hh'|].
      split; [exact Hl'|]. split; [|split; [|split]].
      * rewrite Hsam. unfold l1. simpl. rewrite reverse_cons, <- app_assoc. reflexivity.
      * rewrite Hlen'. unfold l1. simpl. lia.
      * exact Ht.
      * destruct (status_line_serial (readSimulatedTemperature d (draw1 t)) s1)
          as (out1 & Hout1).
        exists (out1 ++ out). fold s2 in Hout1. rewrite Hout, Hout1.
        now rewrite app_assoc.
Qed.

Lemma run_loop_app d fuel ticks1 ticks2 s :
  run_loop d fuel (ticks1 ++ ticks2) s
  = run_loop d fuel ticks1 s ≫= run_loop d fuel ticks2.
Proof.
  revert s. induction ticks1 as [|t ticks1 IH]; intros s; [reflexivity|].
  cbn [app run_loop].
  destruct (loop d fuel _ _ _ _ _ s) as [s'| |]; [|reflexivity|reflexivity].
  cbn [mbind result_bind]. apply IH.
Qed.

Lemma due_in_turn_app last ticks1 ticks2 :
  due_in_turn last (ticks1 ++ ticks2) →
  due_in_turn last ticks1 ∧ due_in_turn (last_time last ticks1) ticks2.
Proof.
  revert last. induction ticks1 as [|t ticks1 IH]; intros last H; [now split|].
  destruct H as [H1 H2]. apply IH in H2 as [H2 H3]. repeat split; assumption.
Qed.

Lemma status_log_app d ticks1 ticks2 : ∀ n,
  status_log d n (ticks1 ++ ticks2)
  = status_log d n ticks1 ++ status_log d (n + Z.of_nat (length ticks1)) ticks2.
Proof.
  induction ticks1 as [|t ticks1 IH]; intros n.
  - simpl. now rewrite Z.add_0_r.
  - cbn [app status_log length]. rewrite IH, <- app_assoc.
    do 3 f_equal. lia.
Qed.

Lemma collect_tick_serial d s t :
  serial (collect_tick d s t)
  = serial s ++ status_events
                  (sampleCount (loop_collect d (now2 t) (draw1 t) (draw2 t) (draw3 t) s))
                  (readSimulatedTemperature d (draw1 t)).
Proof.
  unfold collect_tick, status_line, status_events, println, print_float, print.
  cbn [serial sampleCount].
  change (serial (loop_collect d (now2 t) (draw1 t) (draw2 t) (draw3 t) s))
    with (serial s).
  rewrite <- !app_assoc. reflexivity.
Qed.

(** Calls that are due and leave the cycle open: the state they return, and
    its log. *)
Lemma run_loop_collect_ticks d fuel ticks : ∀ s l,
  cycle_open s → heap_is_list s →
  is_list (heap s) (dataListHead s) l →
  (length l + length ticks ≤ 15)%nat →
  due_in_turn (lastSampleTime s) ticks →
  run_loop d fuel ticks s = Ok (collect_ticks d ticks s)
  ∧ serial (collect_ticks d ticks s)
    = serial s ++ status_log d (sampleCount s + 1) ticks.
Proof.
  induction ticks as [|t ticks IH] using rev_ind; intros s l Hs Hh Hl Hlen Hdue.
  - split; [reflexivity|]. simpl. now rewrite app_nil_r.
  - rewrite length_app in Hlen. simpl in Hlen.
    apply due_in_turn_app in Hdue as [Hdue [Hlast _]].
    destruct (IH s l Hs Hh Hl) as [E Hlog]; [lia|exact Hdue|].
    destruct (run_loop_collecting d fuel ticks s l Hs Hh Hl)
      as (s' & l' & E' & Hs' & _ & Hl' & _ & Hlen' & Ht & _); [lia|exact Hdue|].
    rewrite E in E'. injection E' as <-.
    set (s' := collect_ticks d ticks s) in *.
    assert (sampleCount s' = Z.of_nat (length l')) as Hc'.
    { destruct Hs' as [(k & Hk & Hn) _].
      now rewrite (is_list_functional _ _ _ _ Hk Hl') in Hn. }
    assert (sampleCount s = Z.of_nat (length l)) as Hc.
    { destruct Hs as [(k & Hk & Hn) _].
      now rewrite (is_list_functional _ _ _ _ Hk Hl) in Hn. }
    destruct (loop_collect_counter d (now2 t) (draw1 t) (draw2 t) (draw3 t) s' Hs')
      as (_ & Hn1 & _).
    unfold collect_ticks. rewrite foldl_app. cbn [foldl]. fold (collect_ticks d ticks s).
    fold s'. split.
    + rewrite run_loop_app, E. cbn [mbind result_bind run_loop].
      rewrite loop_collecting; [reflexivity|exact Hs'| |lia].
      unfold sample_due. rewrite Ht. now apply bool_decide_eq_true_2.
    + rewrite collect_tick_serial, Hn1, Hlog, status_log_app, <- app_assoc.
      cbn [status_log]. rewrite app_nil_r.
      do 3 f_equal. lia.
Qed.

(** X11. Sixteen calls of [loop] that are each due, from a state where the
    cycle starts, make one cycle. The first fifteen and the collection of
    the sixteenth leave the state [s16]: its list holds the sixteen samples
    collected, last collected first, and its log is that of the start
    followed by the sixteen status lines, numbered from 1. The calls return
    the state with an empty heap, no list, the counter at 0 and the
    timestamp of the last call, whose log is that of [s16] followed by the
    banner, the report of the processing step on that list and the banner
    of the new cycle. *)
Theorem sixteen_ticks_one_report (d : float_format) (fuel : nat)
    (ticks : list Tick) (t : Tick) (s : State) :
  at_loop d s → sampleCount s = 0 → length ticks = 15%nat →
  due_in_turn (lastSampleTime s) (ticks ++ [t]) → (16 ≤ fuel)%nat →
  let s16 := collect_ticks d (ticks ++ [t]) s in
  ∃ hd tl,
    let l := hd :: tl in
    let m := scan_min hd l in
    let M := scan_max hd l in
    is_list (heap s16) (dataListHead s16) l
    ∧ samples l = reverse (sample_of_tick d <$> (ticks ++ [t]))
    ∧ sampleCount s16 = 16
    ∧ serial s16 = serial s ++ status_log d 1 (ticks ++ [t])
    ∧ run_loop d fuel (ticks ++ [t]) s =
      Ok (println cleared_banner
            (cleared (now2 t)
               (serial (cycle_report (temperature m.2) (temperature M.2)
                          (samples (kept (Some m.1) (Some M.1) l))
                          (println cycle_banner s16))))).
Proof.
  intros Hs Hc Hlen Hdue Hfuel s16.
  pose proof (at_loop_heap_is_list d s Hs) as Hh.
  apply at_loop_cycle_open in Hs.
  pose proof Hs as [(l0 & Hl0 & Hn0) _].
  assert (l0 = []) as -> by (destruct l0; [reflexivity|simpl in Hn0; lia]).
  apply due_in_turn_app in Hdue as [Hdue [Hlast _]].
  destruct (run_loop_collecting d fuel ticks s [] Hs Hh Hl0)
    as (s15 & l15 & E & Hs15 & Hh15 & Hl15 & Hsam & Hlen15 & Ht & _);
    [simpl; lia|exact Hdue|].
  destruct (run_loop_collect_ticks d fuel ticks s [] Hs Hh Hl0) as [E' Hlog];
    [simpl; lia|exact Hdue|].
  rewrite E in E'. injection E' as ->.
  rewrite <- Ht in Hlast.
  assert (sampleCount (collect_ticks d ticks s) = 15) as Hc15.
  { destruct Hs15 as [(l' & Hl' & Hn') _].
    rewrite (is_list_functional _ _ _ _ Hl' Hl15) in Hn'.
    rewrite Hn', Hlen15, Hlen. reflexivity. }
  destruct (loop_completing d fuel (now1 t) (now2 t) (draw1 t) (draw2 t) (draw3 t)
              (collect_ticks d ticks s) Hs15 Hh15)
    as (a & tl & Hl & Htl & Hl16 & Eloop); auto.
  { unfold sample_due. now apply bool_decide_eq_true_2. }
  rewrite (is_list_functional _ _ _ _ Htl Hl15) in *.
  destruct (loop_collect_counter d (now2 t) (draw1 t) (draw2 t) (draw3 t)
              (collect_ticks d ticks s) Hs15) as (_ & Hn1 & _).
  assert (s16 = collect_tick d (collect_ticks d ticks s) t) as E16
    by (unfold s16, collect_ticks; now rewrite foldl_app).
  exists (a, sample_of_tick d t), l15. cbv zeta. rewrite E16.
  split; [exact Hl|]. split; [|split; [|split]].
  - simpl. rewrite Hsam, app_nil_r, fmap_app, reverse_app. reflexivity.
  - change (sampleCount (collect_tick d ?u t))
      with (sampleCount (loop_collect d (now2 t) (draw1 t) (draw2 t) (draw3 t) u)).
    rewrite Hn1, Hc15. reflexivity.
  - rewrite collect_tick_serial, Hn1, Hc15, Hlog, Hc, status_log_app, Hlen,
      <- app_assoc.
    cbn [status_log]. now rewrite app_nil_r.
  - rewrite run_loop_app, E. cbn [mbind result_bind run_loop].
    rewrite Eloop. reflexivity.
Qed.

Lemma run_loop_at_loop d fuel ticks : ∀ s s',
  at_loop d s → Forall draws_nonneg ticks →
  run_loop d fuel ticks s = Ok s' → at_loop d s'.
Proof.
  induction ticks as [|t ticks IH]; intros s s' Hs Hd E.
  - injection E as <-. exact Hs.
  - apply Forall_cons in Hd as [(H1 & H2 & H3) Hd]. cbn [run_loop] in E.
    destruct (loop d fuel _ _ _ _ _ s) as [s1| |] eqn:E1; try discriminate.
    cbn [mbind result_bind] in E.
    apply (IH s1 s'); [|exact Hd|exact E].
    exact (at_loop_next d fuel _ _ _ _ _ s s1 Hs H1 H2 H3 E1).
Qed.

Lemma sixteen_ticks_one_report_witness :
  ∃ hd tl s',
    is_list (heap (collect_ticks binary32 (ticks_of mean45_draws) (setup initial_state)))
      (dataListHead (collect_ticks binary32 (ticks_of mean45_draws) (setup initial_state)))
      (hd :: tl)
    ∧ samples (hd :: tl) = samples_of mean45_draws
    ∧ run_loop binary32 16 (ticks_of mean45_draws) (setup initial_state) = Ok s'
    ∧ s' = println cleared_banner
             (cleared 160000
                (serial (cycle_report (temperature (scan_min hd (hd :: tl)).2)
                           (temperature (scan_max hd (hd :: tl)).2)
                           (samples (kept (Some (scan_min hd (hd :: tl)).1)
                                      (Some (scan_max hd (hd :: tl)).1) (hd :: tl)))
                           (println cycle_banner
                              (collect_ticks binary32 (ticks_of mean45_draws)
                                 (setup initial_state)))))).
Proof.
  destruct (sixteen_ticks_one_report binary32 16
              (take 15 (ticks_of mean45_draws))
              {| now1 := 160000; now2 := 160000; draw1 := 199; draw2 := 300; draw3 := 10 |}
              (setup initial_state))
    as (hd & tl & Hl & Hsam & _ & _ & E).
  - apply at_loop_setup.
  - reflexivity.
  - reflexivity.
  - vm_compute. repeat split; discriminate.
  - lia.
  - exists hd, tl. eexists.
    split; [exact Hl|]. split; [exact Hsam|]. split; [exact E|reflexivity].
Defined.

Lemma tick_completes_cycle_witness :
  ∃ s15 s',
    run_loop binary32 16 (take 15 (ticks_of mean45_draws)) (setup initial_state) = Ok s15
    ∧ sampleCount s15 = 15
    ∧ loop binary32 16 160000 160000 199 300 10 s15 = Ok s'
    ∧ heap s' = ∅ ∧ dataListHead s' = None ∧ sampleCount s' = 0.
Proof.
  destruct (run_loop_collecting binary32 16 (take 15 (ticks_of mean45_draws))
              (setup initial_state) [])
    as (s15 & l15 & E & Hs15 & _ & Hl15 & _ & Hlen15 & Ht & _).
  - apply setup_counter.
  - now apply heap_is_list_empty.
  - reflexivity.
  - vm_compute. lia.
  - vm_compute. repeat split; discriminate.
  - assert (at_loop binary32 s15) as Hat.
    { apply (run_loop_at_loop binary32 16 (take 15 (ticks_of mean45_draws))
               (setup initial_state)); [apply at_loop_setup| |exact E].
      vm_compute. repeat constructor; discriminate. }
    assert (sampleCount s15 = 15) as Hc15.
    { destruct Hs15 as [(l' & Hl' & Hn') _].
      rewrite (is_list_functional _ _ _ _ Hl' Hl15) in Hn'.
      rewrite Hn', Hlen15. reflexivity. }
    destruct (tick_completes_cycle binary32 16 160000 160000 199 300 10 s15 Hat)
      as (a & tl & _ & _ & _ & Eloop).
    + unfold sample_due. rewrite Ht. reflexivity.
    + exact Hc15.
    + lia.
    + exists s15. eexists. split; [exact E|]. split; [exact Hc15|].
      split; [exact Eloop|]. repeat split.
Defined.

(** ** The scan on temperatures that are numbers *)

(** X12. On a list that is not empty and whose temperatures are all
    numbers, the first loop returns with [minNode] on a node of the lowest
    temperature of the list and [maxNode] on a node of the highest: no
    sample is below the one, none above the other. *)
Theorem scan_finds_extremes (fuel : nat) (s : State) (l : list (loc * SampleData)) :
  is_list (heap s) (dataListHead s) l → l ≠ [] → (length l ≤ fuel)%nat →
  (∀ x, x ∈ samples l → F32.is_nan (temperature x) = false) →
  ∃ x m M,
    find_extremes fuel (heap s) (dataListHead s) None (from_head s) = Ok x
    ∧ m ∈ l ∧ M ∈ l
    ∧ minNode x = Some m.1 ∧ maxNode x = Some M.1
    ∧ min_temperature (temperature m.2) (samples l)
    ∧ max_temperature (temperature M.2) (samples l).
Proof.
  intros Hl Hne Hfuel Hnum. destruct l as [|hd tl]; [contradiction|].
  destruct (find_extremes_from_head fuel s hd tl Hl Hfuel) as (x & Hx & Hmin & Hmax).
  set (l := hd :: tl) in *.
  assert (∀ n, n ∈ l → F32.is_nan (temperature n.2) = false) as Hn
    by (intros n Hin; now apply Hnum, elem_of_samples).
  assert (∀ before, foldl (pick before) hd l ∈ l) as Hin.
  { intros before. unfold l. simpl. rewrite pick_same. apply foldl_pick_elem. }
  exists x, (scan_min hd l), (scan_max hd l).
  split; [exact Hx|]. split; [apply Hin|]. split; [apply Hin|].
  split; [exact Hmin|]. split; [exact Hmax|]. split.
  - split.
    + intros y (n & Hy & <-)%samples_elem_of.
      apply (scan_min_lower l hd); auto. apply Hn. now left.
    + exists (scan_min hd l).2. split; [apply elem_of_samples, Hin|].
      apply eqb_refl, Hn, Hin.
  - split.
    + intros y (n & Hy & <-)%samples_elem_of.
      apply (scan_max_upper l hd); auto. apply Hn. now left.
    + exists (scan_max hd l).2. split; [apply elem_of_samples, Hin|].
      apply eqb_refl, Hn, Hin.
Qed.

Lemma scan_finds_extremes_witness :
  ∃ l x m M,
    is_list (heap (cycle_of mean45_draws)) (dataListHead (cycle_of mean45_draws)) l
    ∧ find_extremes 16 (heap (cycle_of mean45_draws))
        (dataListHead (cycle_of mean45_draws)) None
        (from_head (cycle_of mean45_draws)) = Ok x
    ∧ minNode x = Some m.1 ∧ maxNode x = Some M.1
    ∧ min_temperature (temperature m.2) (samples l)
    ∧ max_temperature (temperature M.2) (samples l).
Proof.
  destruct (cycle_of_list mean45_draws eq_refl) as (l & Hl & Hs & Hc & Hlen).
  destruct (scan_finds_extremes 16 (cycle_of mean45_draws) l Hl)
    as (x & m & M & Hx & _ & _ & Hm & HM & Hmin & Hmax).
  - intros ->. discriminate.
  - lia.
  - rewrite Hs. intros y Hy. apply list_elem_of_In in Hy.
    vm_compute in Hy. repeat (destruct Hy as [<-|Hy]; [reflexivity|]). contradiction.
  - exists l, x, m, M.
    split; [exact Hl|]. split; [exact Hx|]. split; [exact Hm|].
    split; [exact HM|]. split; [exact Hmin|exact Hmax].
Defined.

(** X13. A head whose temperature is not a number keeps both pointers: no
    comparison with it holds, so the first loop ends with [minNode] and
    [maxNode] on the head, whatever the other temperatures. *)
Theorem nan_head_keeps_both (fuel : nat) (s : State) (hd : loc * SampleData)
    (tl : list (loc * SampleData)) :
  is_list (heap s) (dataListHead s) (hd :: tl) → (length (hd :: tl) ≤ fuel)%nat →
  F32.is_nan (temperature hd.2) = true →
  ∃ x, find_extremes fuel (heap s) (dataListHead s) None (from_head s) = Ok x
       ∧ minNode x = Some hd.1 ∧ maxNode x = Some hd.1.
Proof.
  intros Hl Hfuel Hnan.
  destruct (find_extremes_from_head fuel s hd tl Hl Hfuel) as (x & Hx & Hmin & Hmax).
  exists x. split; [exact Hx|].
  assert (∀ before, (∀ c, before c (temperature hd.2) = false) →
                    foldl (pick before) hd (hd :: tl) = hd) as Hkeep.
  { intros before Hb. generalize (hd :: tl). intros l.
    induction l as [|c l IH]; [reflexivity|].
    simpl. unfold pick at 2. now rewrite Hb. }
  assert (∀ c, F32.ltb c (temperature hd.2) = false
               ∧ F32.ltb (temperature hd.2) c = false) as Hcmp.
  { intros c. destruct (temperature hd.2); try discriminate.
    split; [now destruct c|reflexivity]. }
  unfold scan_min in Hmin. unfold scan_max in Hmax.
  rewrite Hkeep in Hmin, Hmax.
  - auto.
  - intros c. apply Hcmp.
  - intros c. apply Hcmp.
Qed.

Lemma nan_head_keeps_both_witness :
  is_list (heap nan_headed) (dataListHead nan_headed)
    [(3%positive, nan_sample); (2%positive, new_sample binary32 199 300 10);
     (1%positive, new_sample binary32 0 300 10)]
  ∧ ∃ x, find_extremes 3 (heap nan_headed) (dataListHead nan_headed) None
           (from_head nan_headed) = Ok x
         ∧ minNode x = Some 3%positive ∧ maxNode x = Some 3%positive.
Proof.
  assert (is_list (heap nan_headed) (dataListHead nan_headed)
            [(3%positive, nan_sample); (2%positive, new_sample binary32 199 300 10);
             (1%positive, new_sample binary32 0 300 10)]) as Hl.
  { split; [reflexivity|]. exists (Some 2%positive). split; [reflexivity|].
    split; [reflexivity|]. exists (Some 1%positive). split; [reflexivity|].
    split; [reflexivity|]. exists None. split; reflexivity. }
  split; [exact Hl|].
  apply (nan_head_keeps_both 3 nan_headed (3%positive, nan_sample)
           [(2%positive, new_sample binary32 199 300 10);
            (1%positive, new_sample binary32 0 300 10)] Hl).
  - simpl. lia.
  - reflexivity.
Defined.

(** ** The nodes before the extremes *)

Lemma prev_of_first a x pre rest : ∀ q,
  a ∉ addresses pre →
  prev_of a q (pre ++ (a, x) :: rest)
  = match last (addresses pre) with Some b => Some b | None => q end.
Proof.
  induction pre as [|n pre IH]; intros q Ha; simpl.
  - now rewrite decide_True.
  - unfold addresses in Ha. rewrite fmap_cons in Ha.
    apply not_elem_of_cons in Ha as [Hn Ha].
    rewrite decide_False by congruence.
    rewrite IH by exact Ha.
    destruct (addresses pre) as [|b k] eqn:E; [reflexivity|].
    change (last (n.1 :: b :: k)) with (last (b :: k)).
    destruct (last (b :: k)) eqn:El; [reflexivity|].
    now apply last_None in El.
Qed.

Lemma prev_of_link h l a : ∀ p q,
  is_list h p l → a ∈ addresses l →
  (prev_of a q l = q ∧ p = Some a)
  ∨ ∃ b nb, prev_of a q l = Some b ∧ h !! b = Some nb ∧ next nb = Some a.
Proof.
  induction l as [|[b x] l IH]; intros p q Hl Ha.
  - inversion Ha.
  - destruct Hl as (-> & nx & Hb & Hl). simpl.
    destruct (decide (b = a)) as [->|Hne]; [now left|].
    unfold addresses in Ha. rewrite fmap_cons in Ha.
    apply elem_of_cons in Ha as [Ha|Ha]; [simpl in Ha; congruence|].
    right. destruct (IH nx (Some b) Hl Ha) as [[E ->]|(c & nc & E & Hc & Hn)].
    + exists b, {| data := x; next := Some a |}. auto.
    + exists c, nc. auto.
Qed.

(** The first loop keeps, beside each extreme, the node before it. *)
Lemma find_extremes_prev h L : ∀ rest pre fuel p prev x x',
  L = pre ++ rest → NoDup (addresses L) →
  is_list h p rest → prev = last (addresses pre) →
  minNodePrev x = prev_ptr (minNode x) L →
  maxNodePrev x = prev_ptr (maxNode x) L →
  find_extremes fuel h p prev x = Ok x' →
  minNodePrev x' = prev_ptr (minNode x') L
  ∧ maxNodePrev x' = prev_ptr (maxNode x') L.
Proof.
  induction rest as [|[c y] rest IH]; intros pre fuel p prev x x' EL Hnd Hl Hprev Hm HM E.
  - simpl in Hl. subst p. destruct fuel; injection E as <-; auto.
  - destruct Hl as (-> & nx & Hc & Hl).
    destruct fuel as [|fuel]; [discriminate|].
    cbn [find_extremes] in E. rewrite (deref_Some _ _ _ Hc) in E.
    cbn [mbind result_bind] in E.
    destruct (deref h (minNode x)) as [mn| |]; try discriminate.
    cbn [mbind result_bind data] in E.
    assert (c ∉ addresses pre) as Hcpre.
    { rewrite EL in Hnd. unfold addresses in Hnd. rewrite fmap_app in Hnd.
      apply NoDup_app in Hnd as (_ & Hnd & _). intros Hin.
      apply (Hnd c Hin). rewrite fmap_cons. now left. }
    assert (prev_of c None L = prev) as Hpc.
    { rewrite EL, prev_of_first, Hprev by exact Hcpre.
      now destruct (last (addresses pre)). }
    set (x1 := if F32.ltb _ _ then _ else x) in E.
    assert (minNodePrev x1 = prev_ptr (minNode x1) L
            ∧ maxNodePrev x1 = prev_ptr (maxNode x1) L
            ∧ maxNode x1 = maxNode x) as (Hm1 & HM1 & EM1).
    { unfold x1. destruct (F32.ltb _ _); simpl; auto. }
    clearbody x1. rewrite EM1 in E.
    destruct (deref h (maxNode x)) as [mx| |]; try discriminate.
    cbn [mbind result_bind data] in E.
    set (x2 := if F32.ltb _ _ then _ else x1) in E.
    assert (minNodePrev x2 = prev_ptr (minNode x2) L
            ∧ maxNodePrev x2 = prev_ptr (maxNode x2) L) as (Hm2 & HM2).
    { unfold x2. destruct (F32.ltb _ _); simpl; auto. }
    clearbody x2.
    apply (IH (pre ++ [(c, y)]) fuel nx (Some c) x2 x'); auto.
    + rewrite EL, <- app_assoc. reflexivity.
    + unfold addresses. rewrite fmap_app.
      change ([(c, y)].*1) with [c]. now rewrite last_snoc.
Qed.

(** X14. The first loop also leaves, in [minNodePrev] and [maxNodePrev], the
    node that comes before each extreme in the list: the pointer is null
    exactly when the extreme is the head, and otherwise the [next] link of
    the node it points to is the extreme. *)
Theorem prev_pointers_link (fuel : nat) (s : State) (l : list (loc * SampleData)) :
  is_list (heap s) (dataListHead s) l → l ≠ [] → (length l ≤ fuel)%nat →
  ∃ x, find_extremes fuel (heap s) (dataListHead s) None (from_head s) = Ok x
    ∧ ((minNodePrev x = None ∧ minNode x = dataListHead s)
       ∨ ∃ b nb, minNodePrev x = Some b ∧ heap s !! b = Some nb
                 ∧ next nb = minNode x ∧ minNode x ≠ dataListHead s)
    ∧ ((maxNodePrev x = None ∧ maxNode x = dataListHead s)
       ∨ ∃ b nb, maxNodePrev x = Some b ∧ heap s !! b = Some nb
                 ∧ next nb = maxNode x ∧ maxNode x ≠ dataListHead s).
Proof.
  intros Hl Hne Hfuel. destruct l as [|hd tl]; [contradiction|].
  destruct (find_extremes_from_head fuel s hd tl Hl Hfuel) as (x & Hx & Hmin & Hmax).
  set (l := hd :: tl) in *.
  pose proof (is_list_NoDup _ _ _ Hl) as Hnd.
  assert (dataListHead s = Some hd.1) as Hhead.
  { destruct hd as [a y]. now destruct Hl as (-> & _). }
  assert (prev_ptr (Some hd.1) l = None) as Hp0
    by (unfold l; simpl; now rewrite decide_True).
  destruct (find_extremes_prev (heap s) l l [] fuel (dataListHead s) None
              (from_head s) x eq_refl Hnd Hl eq_refl) as [Pm PM]; auto.
  { simpl. now rewrite Hhead, Hp0. }
  { simpl. now rewrite Hhead, Hp0. }
  assert (∀ before, foldl (pick before) hd l ∈ l) as Hin.
  { intros before. unfold l. simpl. rewrite pick_same. apply foldl_pick_elem. }
  assert (∀ n q, n ∈ l → q = prev_ptr (Some n.1) l →
            (q = None ∧ Some n.1 = dataListHead s)
            ∨ ∃ b nb, q = Some b ∧ heap s !! b = Some nb
                      ∧ next nb = Some n.1 ∧ Some n.1 ≠ dataListHead s) as Hlink.
  { intros n q Hn ->. simpl.
    destruct (prev_of_link (heap s) l n.1 (dataListHead s) None Hl)
      as [[E Ep]|(b & nb & E & Hb & Hnb)].
    - apply list_elem_of_fmap. eauto.
    - left. split; [exact E|now rewrite Ep].
    - right. exists b, nb. repeat split; auto.
      rewrite Hhead. intros [= E']. revert E. unfold l. simpl.
      rewrite decide_True by congruence. discriminate. }
  exists x. split; [exact Hx|]. split.
  - rewrite Hmin in Pm |- *. apply Hlink; [apply Hin|exact Pm].
  - rewrite Hmax in PM |- *. apply Hlink; [apply Hin|exact PM].
Qed.

Lemma prev_pointers_link_witness :
  ∃ l x,
    is_list (heap (cycle_of mean45_draws)) (dataListHead (cycle_of mean45_draws)) l
    ∧ find_extremes 16 (heap (cycle_of mean45_draws))
        (dataListHead (cycle_of mean45_draws)) None
        (from_head (cycle_of mean45_draws)) = Ok x
    ∧ ((minNodePrev x = None ∧ minNode x = dataListHead (cycle_of mean45_draws))
       ∨ ∃ b nb, minNodePrev x = Some b
                 ∧ heap (cycle_of mean45_draws) !! b = Some nb
                 ∧ next nb = minNode x
                 ∧ minNode x ≠ dataListHead (cycle_of mean45_draws)).
Proof.
  destruct (cycle_of_list mean45_draws eq_refl) as (l & Hl & Hs & Hc & Hlen).
  destruct (prev_pointers_link 16 (cycle_of mean45_draws) l Hl)
    as (x & Hx & Hm & _).
  - intros ->. discriminate.
  - lia.
  - exists l, x. split; [exact Hl|]. split; [exact Hx|exact Hm].
Defined.

(** ** The extremes do not depend on the order *)

(** X15. The two temperatures announced as removed do not depend on the
    order of the list: on two lists of numbers that hold the same samples in
    any order, the first loop ends on nodes of equal lowest and of equal
    highest temperature, also when several samples share an extreme. *)
Theorem extremes_independent_of_order (fuel : nat) (s s' : State)
    (l l' : list (loc * SampleData)) :
  is_list (heap s) (dataListHead s) l →
  is_list (heap s') (dataListHead s') l' →
  samples l ≡ₚ samples l' → l ≠ [] → (length l ≤ fuel)%nat →
  (∀ x, x ∈ samples l → F32.is_nan (temperature x) = false) →
  ∃ x x' m M m' M',
    find_extremes fuel (heap s) (dataListHead s) None (from_head s) = Ok x
    ∧ find_extremes fuel (heap s') (dataListHead s') None (from_head s') = Ok x'
    ∧ deref (heap s) (minNode x) = Ok m ∧ deref (heap s') (minNode x') = Ok m'
    ∧ deref (heap s) (maxNode x) = Ok M ∧ deref (heap s') (maxNode x') = Ok M'
    ∧ F32.eqb (temperature (data m)) (temperature (data m')) = true
    ∧ F32.eqb (temperature (data M)) (temperature (data M')) = true.
Proof.
  intros Hl Hl' Hp Hne Hfuel Hnum.
  assert (length l' = length l) as Hlen.
  { apply Permutation_length in Hp. unfold samples in Hp.
    rewrite !length_fmap in Hp. congruence. }
  destruct l as [|hd tl]; [contradiction|].
  destruct l' as [|hd' tl']; [discriminate|].
  destruct (find_extremes_from_head fuel s hd tl Hl Hfuel) as (x & Hx & Hmin & Hmax).
  destruct (find_extremes_from_head fuel s' hd' tl' Hl') as (x' & Hx' & Hmin' & Hmax');
    [lia|].
  assert (∀ n, n ∈ hd :: tl → F32.is_nan (temperature n.2) = false) as Hn
    by (intros n Hin; now apply Hnum, elem_of_samples).
  assert (∀ n, n ∈ hd' :: tl' → F32.is_nan (temperature n.2) = false) as Hn'.
  { intros n Hin. apply Hnum. rewrite Hp. now apply elem_of_samples. }
  destruct (scan_extremes hd tl Hn) as [Pm PM].
  destruct (scan_extremes hd' tl' Hn') as [Pm' PM'].
  assert (∀ before, foldl (pick before) hd (hd :: tl) ∈ hd :: tl) as Hin.
  { intros before. simpl. rewrite pick_same. apply foldl_pick_elem. }
  assert (∀ before, foldl (pick before) hd' (hd' :: tl') ∈ hd' :: tl') as Hin'.
  { intros before. simpl. rewrite pick_same. apply foldl_pick_elem. }
  assert (∀ h p k (n : loc * SampleData), is_list h p k → n ∈ k →
            ∃ nx, deref h (Some n.1) = Ok {| data := n.2; next := nx |}) as Hat.
  { intros h p k [a y] Hk Hn0.
    destruct (is_list_lookup _ _ _ _ _ Hk Hn0) as [nx Ha].
    exists nx. now apply deref_Some. }
  destruct (Hat _ _ _ _ Hl (Hin below)) as [nm Hm].
  destruct (Hat _ _ _ _ Hl (Hin above)) as [nM HM].
  destruct (Hat _ _ _ _ Hl' (Hin' below)) as [nm' Hm'].
  destruct (Hat _ _ _ _ Hl' (Hin' above)) as [nM' HM'].
  eexists x, x', _, _, _, _.
  split; [exact Hx|]. split; [exact Hx'|].
  rewrite Hmin, Hmin', Hmax, Hmax'.
  split; [exact Hm|]. split; [exact Hm'|]. split; [exact HM|]. split; [exact HM'|].
  split.
  - exact (min_temperature_unique _ _ _ _ Hp Pm Pm').
  - exact (max_temperature_unique _ _ _ _ Hp PM PM').
Qed.

Lemma extremes_independent_of_order_witness :
  ∃ l l' x x' m M m' M',
    samples l ≡ₚ samples l'
    ∧ find_extremes 16 (heap (cycle_of tie_draws)) (dataListHead (cycle_of tie_draws))
        None (from_head (cycle_of tie_draws)) = Ok x
    ∧ find_extremes 16 (heap (cycle_of (reverse tie_draws)))
        (dataListHead (cycle_of (reverse tie_draws)))
        None (from_head (cycle_of (reverse tie_draws))) = Ok x'
    ∧ deref (heap (cycle_of tie_draws)) (minNode x) = Ok m
    ∧ deref (heap (cycle_of (reverse tie_draws))) (minNode x') = Ok m'
    ∧ deref (heap (cycle_of tie_draws)) (maxNode x) = Ok M
    ∧ deref (heap (cycle_of (reverse tie_draws))) (maxNode x') = Ok M'
    ∧ F32.eqb (temperature (data m)) (temperature (data m')) = true
    ∧ F32.eqb (temperature (data M)) (temperature (data M')) = true.
Proof.
  destruct (cycle_of_list tie_draws eq_refl) as (l & Hl & Hs & Hc & Hlen).
  destruct (cycle_of_list (reverse tie_draws) eq_refl) as (l' & Hl' & Hs' & Hc' & Hlen').
  assert (samples l ≡ₚ samples l') as Hp.
  { rewrite Hs, Hs'. unfold samples_of.
    rewrite fmap_reverse, reverse_involutive. apply reverse_Permutation. }
  destruct (extremes_independent_of_order 16 _ _ l l' Hl Hl' Hp)
    as (x & x' & m & M & m' & M' & H1 & H2 & H3 & H4 & H5 & H6 & H7 & H8).
  - intros ->. discriminate.
  - lia.
  - rewrite Hs. intros y Hy. apply list_elem_of_In in Hy.
    vm_compute in Hy. repeat (destruct Hy as [<-|Hy]; [reflexivity|]). contradiction.
  - exists l, l', x, x', m, M, m', M'.
    split; [exact Hp|]. split; [exact H1|]. split; [exact H2|].
    split; [exact H3|]. split; [exact H4|]. split; [exact H5|].
    split; [exact H6|]. split; [exact H7|exact H8].
Defined.

(** ** The width of [int] *)

Lemma wrap_signed_small bits z :
  16 ≤ bits → 0 ≤ z ≤ 32767 → wrap_signed bits z = z.
Proof.
  intros Hb Hz. unfold wrap_signed.
  assert (2 ^ 15 ≤ 2 ^ (bits - 1)) as Hp by (apply Z.pow_le_mono_r; lia).
  assert (2 ^ bits = 2 * 2 ^ (bits - 1)) as E.
  { rewrite <- Z.pow_succ_r by lia. f_equal. lia. }
  change (2 ^ 15) with 32768 in Hp.
  rewrite Z.mod_small; lia.
Qed.

(** X16. The width of [int] does not matter to the counter: [collectSample]
    is called between two calls of [loop], where the counter is between 0
    and 15, so that [sampleCount++] gives the counter plus one, without
    wrapping, for the 16 bits of the model and for every wider [int]. *)
Theorem counter_never_wraps (d : float_format) (bits now2 r1 r2 r3 : Z) (s : State) :
  at_loop d s → 16 ≤ bits →
  0 ≤ sampleCount s ≤ 15
  ∧ sampleCount (loop_collect d now2 r1 r2 r3 s) = sampleCount s + 1
  ∧ wrap_int (sampleCount s + 1) = wrap_signed bits (sampleCount s + 1)
  ∧ wrap_signed bits (sampleCount s + 1) = sampleCount s + 1.
Proof.
  intros Hs Hb. apply at_loop_cycle_open in Hs.
  destruct (loop_collect_counter d now2 r1 r2 r3 s Hs) as (_ & Hn & _).
  destruct Hs as [_ Hc]. unfold SAMPLES_PER_CYCLE in Hc.
  assert (wrap_signed bits (sampleCount s + 1) = sampleCount s + 1) as E
    by (apply wrap_signed_small; lia).
  split; [lia|]. split; [exact Hn|]. split; [|exact E].
  rewrite E. apply wrap_int_small. unfold INT_MAX, INT_BITS.
  change (2 ^ 15) with 32768. change (2 ^ (16 - 1) - 1) with 32767. lia.
Qed.

Lemma counter_never_wraps_witness :
  sampleCount (loop_collect binary32 10000 7 13 5 (setup initial_state)) = 1
  ∧ wrap_int 1 = wrap_signed 32 1.
Proof.
  destruct (counter_never_wraps binary32 32 10000 7 13 5 (setup initial_state))
    as (_ & Hn & Hw & _).
  - apply at_loop_setup.
  - lia.
  - split; [exact Hn|exact Hw].
Defined.
